(** * azure-login: the retry engine and the kubeconfig merge

    A shallow embedding of
    - [internal/retry/retry.go]: [Config], [DefaultConfig], [LoadConfig],
      [IsRetryable] and [Config.Do];
    - the kubeconfig part of package [aks]: [Kubeconfig] and
      [MergeClusterCredentials] with its three upsert helpers;
    - their callers: [extractClusterInfo], [GetClusterCredentials] and
      [SaveKubeconfig] of package [aks], [GetGitHubOIDCToken] and
      [ExchangeOIDCToken] of package [auth], [isValidUUID] and [runLogin]
      of package [commands], and the token file of package [config].

    Go values are modelled as the code has them: [int] and [time.Duration]
    are 64-bit integers kept in [Z], [float64] is IEEE binary64
    ([spec_float] with 53 bits of precision), strings are byte strings,
    the process environment is a finite map from names to values, slices
    are lists updated by index.  What the callers do outside the process
    (HTTP requests, the clock, the files) is taken by its results,
    threaded through a world. *)

From Equations Require Import Equations.
From Equations.Prop Require Import Logic.
From Stdlib Require Import ZArith String Ascii List Lia Bool.
From Stdlib Require Import Floats.SpecFloat.
From stdpp Require Import base option list strings gmap pretty.
From coqutil Require Import Z.bitblast.

Open Scope string_scope.
Open Scope Z_scope.

(** ** Go's standard error values *)

Module errors.

(** [syscall.Errno] is a [uintptr]; the numbers are those of linux/amd64. *)
Definition Errno := Z.

Definition EINTR : Errno := 4.
Definition EAGAIN : Errno := 11.
Definition EWOULDBLOCK : Errno := 11.
Definition ENFILE : Errno := 23.
Definition EMFILE : Errno := 24.
Definition EPIPE : Errno := 32.
Definition ENETUNREACH : Errno := 101.
Definition ECONNABORTED : Errno := 103.
Definition ECONNRESET : Errno := 104.
Definition ETIMEDOUT : Errno := 110.
Definition ECONNREFUSED : Errno := 111.
Definition EHOSTUNREACH : Errno := 113.

(** A value of Go's interface type [error]: [nil], or one of the concrete
    error types that reach the retry engine.  Every wrapper has a single
    cause ([Unwrap() error]), so an error is a chain.

    - [errorString]: [errors.New(s)];
    - [Canceled], [DeadlineExceeded]: the two variables of package [context];
    - [ErrnoError]: a [syscall.Errno];
    - [SyscallError]: [*os.SyscallError];
    - [URLError]: [*url.Error];
    - [OpError]: [*net.OpError] ([Source] and [Addr] only add to its text);
    - [DNSError]: [*net.DNSError]; its [Unwrap] method returns the field
      [UnwrapErr], which the resolver sets to [context.Canceled] or
      [context.DeadlineExceeded] when the lookup ended that way and leaves
      nil otherwise;
    - [timeoutError]: the unexported timeout errors of [net] and [net/http],
      which report [Timeout()] and answer [Is(context.DeadlineExceeded)];
    - [netError]: any other leaf type that implements [net.Error];
    - [wrapError]: the result of [fmt.Errorf] with one [%w] verb at the end
      of the format; [prefix] is the formatted text before the verb, so the
      message of the error is [prefix] followed by the message of [err]. *)
Inductive error : Type :=
  | nil
  | errorString (s : string)
  | Canceled
  | DeadlineExceeded
  | ErrnoError (e : Errno)
  | SyscallError (Syscall : string) (Err : error)
  | URLError (Op URL : string) (Err : error)
  | OpError (Op Net : string) (Err : error)
  | DNSError (UnwrapErr : error) (Err Name Server : string)
             (IsTimeout IsTemporary IsNotFound : bool)
  | timeoutError (err : string)
  | netError (text : string) (timeout temporary : bool)
  | wrapError (prefix : string) (err : error).

Definition is_nil (e : error) : bool :=
  match e with nil => true | _ => false end.

(** [errors.Unwrap]: the result of the value's [Unwrap() error] method, or
    [nil] when it has none. *)
Definition Unwrap (e : error) : error :=
  match e with
  | SyscallError _ x | URLError _ _ x | OpError _ _ x | wrapError _ x => x
  | DNSError x _ _ _ _ _ _ => x
  | _ => nil
  end.

(** Length of the chain of causes. *)
Fixpoint depth (e : error) : nat :=
  match e with
  | SyscallError _ x | URLError _ _ x | OpError _ _ x | wrapError _ x => S (depth x)
  | DNSError x _ _ _ _ _ _ => S (depth x)
  | nil => O
  | _ => 1%nat
  end.

(** [e] is [u] or wraps it: [u] is reached from [e] by unwrapping. *)
Inductive Wraps : error -> error -> Prop :=
  | Wraps_here e : e <> nil -> Wraps e e
  | Wraps_step e u : e <> nil -> Wraps (Unwrap e) u -> Wraps e u.

(** [Errno.Timeout] and [Errno.Temporary]. *)
Definition Errno_Timeout (e : Errno) : bool :=
  (e =? EAGAIN) || (e =? EWOULDBLOCK) || (e =? ETIMEDOUT).

Definition Errno_Temporary (e : Errno) : bool :=
  (e =? EINTR) || (e =? EMFILE) || (e =? ENFILE) || Errno_Timeout e.

(** The [Timeout() bool] method: [None] when the dynamic type has no such
    method, so that [ok && t.Timeout()] after a type assertion is
    [default false (Timeout e)]. *)
Fixpoint Timeout (e : error) : option bool :=
  match e with
  | DeadlineExceeded => Some true
  | ErrnoError n => Some (Errno_Timeout n)
  | SyscallError _ x => Some (default false (Timeout x))
  | URLError _ _ x => Some (default false (Timeout x))
  | OpError _ _ x =>
      Some match x with
           | SyscallError _ y => default false (Timeout y)
           | _ => default false (Timeout x)
           end
  | DNSError _ _ _ _ t _ _ => Some t
  | timeoutError _ => Some true
  | netError _ t _ => Some t
  | _ => None
  end.

(** [isConnError] of package [net]. *)
Definition isConnError (e : error) : bool :=
  match e with
  | ErrnoError n => (n =? ECONNRESET) || (n =? ECONNABORTED)
  | _ => false
  end.

(** The [Temporary() bool] method; [*os.SyscallError] has none. *)
Fixpoint Temporary (e : error) : option bool :=
  match e with
  | DeadlineExceeded => Some true
  | ErrnoError n => Some (Errno_Temporary n)
  | URLError _ _ x => Some (default false (Temporary x))
  | OpError op _ x =>
      Some (if String.eqb op "accept" && isConnError x then true
            else match x with
                 | SyscallError _ y => default false (Temporary y)
                 | _ => default false (Temporary x)
                 end)
  | DNSError _ _ _ _ t tmp _ => Some (t || tmp)
  | timeoutError _ => Some true
  | netError _ _ tmp => Some tmp
  | _ => None
  end.

(** The sentinel values [errors.Is] is asked about. *)
Inductive target := tCanceled | tDeadlineExceeded | tErrno (e : Errno).

(** One step of [errors.Is]: the value equals the target, or its own [Is]
    method accepts it. *)
Definition is_here (e : error) (t : target) : bool :=
  match e, t with
  | Canceled, tCanceled => true
  | DeadlineExceeded, tDeadlineExceeded => true
  | timeoutError _, tDeadlineExceeded => true
  | ErrnoError n, tErrno m => n =? m
  | _, _ => false
  end.

(** [errors.Is(err, target)]. *)
Fixpoint Is (e : error) (t : target) : bool :=
  is_here e t ||
  match e with
  | SyscallError _ x | URLError _ _ x | OpError _ _ x | wrapError _ x => Is x t
  | DNSError x _ _ _ _ _ _ => Is x t
  | _ => false
  end.

(** [errors.As(err, &target)] for a target type recognised by [p]: the first
    value of the chain that has the type, if any. *)
Fixpoint As (p : error -> bool) (e : error) : option error :=
  if p e then Some e
  else match e with
       | SyscallError _ x | URLError _ _ x | OpError _ _ x | wrapError _ x => As p x
       | DNSError x _ _ _ _ _ _ => As p x
       | _ => None
       end.

Definition is_URLError (e : error) : bool :=
  match e with URLError _ _ _ => true | _ => false end.

Definition is_OpError (e : error) : bool :=
  match e with OpError _ _ _ => true | _ => false end.

Definition is_DNSError (e : error) : bool :=
  match e with DNSError _ _ _ _ _ _ _ => true | _ => false end.

(** The interface [net.Error]: [Error], [Timeout] and [Temporary]. *)
Definition is_netError (e : error) : bool :=
  match Timeout e, Temporary e with
  | Some _, Some _ => true
  | _, _ => false
  end.

End errors.
Import errors.

(** ** Package retry: the failure classifier *)

(** A method call on a value whose dynamic type has the method. *)
Definition call (m : error -> option bool) (e : error) : bool :=
  default false (m e).

(** The [Err] field of [*url.Error], [*net.OpError] and [*os.SyscallError],
    which is what their [Unwrap] method returns. *)
Definition Err (e : error) : error := Unwrap e.

(** The statements of [IsRetryable] that follow the [*url.Error] case, in
    their order: the context errors, [*net.OpError], [*net.DNSError],
    [net.Error], and the final [return false]. *)
Definition afterURL (err : error) : bool :=
  if Is err tCanceled || Is err tDeadlineExceeded then false
  else if match As is_OpError err with
          | Some opErr =>
              (negb (is_nil (Err opErr)) &&
               (Is (Err opErr) (tErrno ECONNRESET) ||
                Is (Err opErr) (tErrno ECONNREFUSED) ||
                Is (Err opErr) (tErrno ENETUNREACH) ||
                Is (Err opErr) (tErrno EHOSTUNREACH) ||
                Is (Err opErr) (tErrno ECONNABORTED) ||
                Is (Err opErr) (tErrno ETIMEDOUT)))
              || call Temporary opErr
          | None => false
          end then true
  else match As is_DNSError err with
       | Some dnsErr => call Temporary dnsErr
       | None =>
           match As is_netError err with
           | Some netErr => call Timeout netErr || call Temporary netErr
           | None => false
           end
       end.

(** [IsRetryable]: the nil test, the [*url.Error] case, then the rest.
    The recursive call is on the [Err] field of the [*url.Error] that
    [errors.As] found in the chain, which is shorter than the chain. *)
Equations? IsRetryable (err : error) : bool by wf (depth err) lt :=
IsRetryable err with is_nil err := {
  | true => false
  | false with inspect (As is_URLError err) := {
    | exist _ (Some urlErr) Hurl =>
        if call Timeout urlErr then true
        else IsRetryable (Err urlErr)
    | exist _ None _ => afterURL err } }.
Proof.
  clear - Hurl. revert urlErr Hurl.
  induction err; simpl; intros u H; try discriminate;
    try (injection H as <-; simpl; lia);
    match goal with IH : forall _, _ -> _ |- _ => apply IH in H end; lia.
Qed.

(** ** Numbers, durations, the environment *)

Definition minInt64 : Z := - 2 ^ 63.
Definition maxInt64 : Z := 2 ^ 63 - 1.

(** Two's complement wrap-around of a 64-bit signed result. *)
Definition wrap64 (z : Z) : Z := (z + 2 ^ 63) mod 2 ^ 64 - 2 ^ 63.

(** Go's [float64]: IEEE 754 binary64, round to nearest even. *)
Module float64.
Definition t := spec_float.
Definition prec : Z := 53.
Definition emax : Z := 1024.

(** The conversion [float64(n)] of an integer. *)
Definition of_int64 (n : Z) : t := binary_normalize prec emax n 0 false.

Definition mul (x y : t) : t := SFmul prec emax x y.

(** [x <= y] and [x >= y]; both are false when an operand is NaN. *)
Definition le (x y : t) : bool := SFleb x y.
Definition ge (x y : t) : bool := SFleb y x.

(** The conversion of a float to [int64]: the fraction is discarded; a
    value that does not fit (and NaN) gives the "integer indefinite"
    value of amd64. *)
Definition to_int64 (f : t) : Z :=
  match f with
  | S754_zero _ => 0
  | S754_finite s m e =>
      let a := Z.shiftl (Zpos m) e in
      let v := if s then - a else a in
      if (minInt64 <=? v) && (v <=? maxInt64) then v else minInt64
  | _ => minInt64
  end.

Definition one : t := Eval vm_compute in of_int64 1.
Definition two : t := Eval vm_compute in of_int64 2.
Definition five : t := Eval vm_compute in of_int64 5.
End float64.

Module time.
(** [time.Duration] is an [int64] count of nanoseconds. *)
Definition Duration := Z.
Definition Nanosecond : Duration := 1.
Definition Millisecond : Duration := 1000000.
Definition Second : Duration := 1000000000.
End time.

Module strconv.
Definition digit (c : ascii) : option Z :=
  let n := Z.of_N (N_of_ascii c) in
  if (48 <=? n) && (n <=? 57) then Some (n - 48) else None.

Fixpoint digits (s : string) (acc : Z) : option Z :=
  match s with
  | EmptyString => Some acc
  | String c r =>
      match digit c with
      | Some d => digits r (acc * 10 + d)
      | None => None
      end
  end.

(** [strconv.Atoi]: an optional sign and one or more decimal digits whose
    value fits an [int]; [Some n] stands for the result [(n, nil)] and
    [None] for a non-nil error. *)
Definition Atoi (s : string) : option Z :=
  let '(neg, body) :=
    match s with
    | String "-" r => (true, r)
    | String "+" r => (false, r)
    | _ => (false, s)
    end in
  match body with
  | EmptyString => None
  | _ =>
      match digits body 0 with
      | Some n =>
          let v := if neg : bool then - n else n in
          if (minInt64 <=? v) && (v <=? maxInt64) then Some v else None
      | None => None
      end
  end.
End strconv.

Module os.
(** The environment of the process, and [os.Getenv]: the value of the
    variable, empty when it is not set. *)
Definition Getenv (env : gmap string string) (key : string) : string :=
  default "" (env !! key).
End os.

(** ** Package retry: configuration *)

Record Config := mkConfig {
  MaxAttempts : Z;
  InitialDelay : time.Duration;
  MaxDelay : time.Duration;
  BackoffMultiplier : float64.t
}.

Definition DefaultConfig : Config :=
  {| MaxAttempts := 3;
     InitialDelay := wrap64 (1 * time.Second);
     MaxDelay := wrap64 (30 * time.Second);
     BackoffMultiplier := float64.two |}.

Definition set_MaxAttempts (v : Z) (c : Config) : Config :=
  mkConfig v (InitialDelay c) (MaxDelay c) (BackoffMultiplier c).
Definition set_InitialDelay (v : time.Duration) (c : Config) : Config :=
  mkConfig (MaxAttempts c) v (MaxDelay c) (BackoffMultiplier c).
Definition set_MaxDelay (v : time.Duration) (c : Config) : Config :=
  mkConfig (MaxAttempts c) (InitialDelay c) v (BackoffMultiplier c).
Definition set_BackoffMultiplier (v : float64.t) (c : Config) : Config :=
  mkConfig (MaxAttempts c) (InitialDelay c) (MaxDelay c) v.

Section LoadConfig.
(** [strconv.ParseFloat(s, 64)]: [Some f] stands for [(f, nil)], [None]
    for a non-nil error.  [LoadConfig] relies on nothing else about it. *)
Variable ParseFloat : string -> option float64.t.

(** The process environment read by [os.Getenv]. *)
Variable env : gmap string string.

Definition loadMaxAttempts (cfg : Config) : Config :=
  let maxAttemptsStr := os.Getenv env "AZURE_LOGIN_RETRY_MAX_ATTEMPTS" in
  if negb (String.eqb maxAttemptsStr "") then
    match strconv.Atoi maxAttemptsStr with
    | Some maxAttempts =>
        if (maxAttempts >? 0) && (maxAttempts <=? 10)
        then set_MaxAttempts maxAttempts cfg else cfg
    | None => cfg
    end
  else cfg.

Definition loadInitialDelay (cfg : Config) : Config :=
  let initialDelayStr := os.Getenv env "AZURE_LOGIN_RETRY_INITIAL_DELAY" in
  if negb (String.eqb initialDelayStr "") then
    match strconv.Atoi initialDelayStr with
    | Some initialDelay =>
        if (initialDelay >? 0) && (initialDelay <=? 60)
        then set_InitialDelay (wrap64 (initialDelay * time.Second)) cfg
        else cfg
    | None => cfg
    end
  else cfg.

Definition loadMaxDelay (cfg : Config) : Config :=
  let maxDelayStr := os.Getenv env "AZURE_LOGIN_RETRY_MAX_DELAY" in
  if negb (String.eqb maxDelayStr "") then
    match strconv.Atoi maxDelayStr with
    | Some maxDelay =>
        if (maxDelay >? 0) && (maxDelay <=? 300)
        then set_MaxDelay (wrap64 (maxDelay * time.Second)) cfg else cfg
    | None => cfg
    end
  else cfg.

Definition loadBackoffMultiplier (cfg : Config) : Config :=
  let backoffStr := os.Getenv env "AZURE_LOGIN_RETRY_BACKOFF_MULTIPLIER" in
  if negb (String.eqb backoffStr "") then
    match ParseFloat backoffStr with
    | Some backoff =>
        if float64.ge backoff float64.one && float64.le backoff float64.five
        then set_BackoffMultiplier backoff cfg else cfg
    | None => cfg
    end
  else cfg.

(** [LoadConfig]: the defaults, then the four settings in the order of
    the source. *)
Definition LoadConfig : Config :=
  let cfg := DefaultConfig in
  let cfg := loadMaxAttempts cfg in
  let cfg := loadInitialDelay cfg in
  let cfg := loadMaxDelay cfg in
  let cfg := loadBackoffMultiplier cfg in
  cfg.
End LoadConfig.

(** ** Package retry: the driver *)

Module context.
(** Why a context is done, and the error its [Err()] then returns. *)
Inductive reason := canceled | deadlineExceeded.

(** What [Do] can observe of a [context.Context].  [fires k] tells
    whether, in the [select] of the wait number [k] (counted from 0),
    the case [<-ctx.Done()] is the one taken rather than the timer. *)
Record Context := {
  fires : nat -> bool;
  why : reason
}.

Definition Err (ctx : Context) : error :=
  match why ctx with
  | canceled => Canceled
  | deadlineExceeded => DeadlineExceeded
  end.

(** [context.Background()] is never done. *)
Definition Background : Context :=
  {| fires := fun _ => false; why := canceled |}.
End context.

Section Do.
(** The state the operation closes over. *)
Context {St : Type}.

(** [operation func() error]: one call returns an error value and
    leaves the captured state changed. *)
Definition Operation := St -> error * St.

(** What a call of [Do] did: the value it returned, the results of the
    calls of the operation in order, the durations given to [time.After]
    in order, whether it left through the [<-ctx.Done()] case, and the
    state the operation was left in. *)
Record Run := mkRun {
  result : error;
  outcomes : list error;
  waits : list time.Duration;
  cancelled : bool;
  final : St
}.

(** The statements after the loop. *)
Definition exhausted (c : Config) (lastErr : error) : error :=
  if MaxAttempts c >? 1 then
    wrapError ("operation failed after " ++ pretty (MaxAttempts c) ++
               " attempts: ") lastErr
  else lastErr.

(** [delay = time.Duration(float64(delay) * c.BackoffMultiplier)],
    then the clamp to [c.MaxDelay]. *)
Definition nextDelay (c : Config) (delay : time.Duration) : time.Duration :=
  let delay :=
    float64.to_int64
      (float64.mul (float64.of_int64 delay) (BackoffMultiplier c)) in
  if delay >? MaxDelay c then MaxDelay c else delay.

(** The [for] loop of [Do], from the test of its condition.  [attempt]
    never passes [c.MaxAttempts], so its increment does not wrap.  The
    loop is given [fuel] iterations; [None] means they ran out. *)
Fixpoint loop (c : Config) (ctx : context.Context) (operation : Operation)
    (fuel : nat) (attempt : Z) (delay : time.Duration) (lastErr : error)
    (st : St) (outs : list error) (ws : list time.Duration)
    : option Run :=
  match fuel with
  | O => None
  | S fuel =>
      if attempt <=? MaxAttempts c then
        let '(err, st) := operation st in
        let outs := (outs ++ [err])%list in
        if is_nil err then Some (mkRun nil outs ws false st)
        else
          let lastErr := err in
          if negb (IsRetryable err) then Some (mkRun err outs ws false st)
          else if attempt >=? MaxAttempts c then
            Some (mkRun (exhausted c lastErr) outs ws false st)
          else if context.fires ctx (length ws) then
            Some (mkRun (context.Err ctx) outs (ws ++ [delay])%list true st)
          else
            loop c ctx operation fuel (attempt + 1) (nextDelay c delay)
                 lastErr st outs (ws ++ [delay])%list
      else Some (mkRun (exhausted c lastErr) outs ws false st)
  end.

(** [Config.Do]. *)
Definition Do (c : Config) (ctx : context.Context) (operation : Operation)
    (st : St) : option Run :=
  loop c ctx operation (S (Z.to_nat (MaxAttempts c)))
       1 (InitialDelay c) nil st [] [].
End Do.

Arguments Run : clear implicits.
Arguments Operation : clear implicits.

(** An operation that closes over a counter, as the tests write it:
    [attempts++], then the error for that attempt. *)
Definition counting (f : nat -> error) : Operation nat :=
  fun attempts => let attempts := S attempts in (f attempts, attempts).

(** ** Package aks: the kubeconfig merge *)

Module base64.
Definition encodeStd : string :=
  "ABCDEFGHIJKLMNOPQRSTUVWXYZabcdefghijklmnopqrstuvwxyz0123456789+/".

(** The character of the standard alphabet for a 6-bit value. *)
Definition enc (v : N) : ascii :=
  default "="%char (String.get (N.to_nat (N.land v 63)) encodeStd).

(** [base64.StdEncoding.EncodeToString]: three bytes give four
    characters; a last group of one or two bytes is padded with [=]. *)
Fixpoint EncodeToString (src : list Byte.byte) : string :=
  match src with
  | [] => ""
  | [a] =>
      let v := N.shiftl (Byte.to_N a) 16 in
      String (enc (N.shiftr v 18)) (String (enc (N.shiftr v 12)) "==")
  | [a; b] =>
      let v := N.lor (N.shiftl (Byte.to_N a) 16) (N.shiftl (Byte.to_N b) 8) in
      String (enc (N.shiftr v 18))
        (String (enc (N.shiftr v 12)) (String (enc (N.shiftr v 6)) "="))
  | a :: b :: c :: rest =>
      let v := N.lor (N.lor (N.shiftl (Byte.to_N a) 16)
                            (N.shiftl (Byte.to_N b) 8)) (Byte.to_N c) in
      String (enc (N.shiftr v 18))
        (String (enc (N.shiftr v 12))
           (String (enc (N.shiftr v 6))
              (String (enc v) (EncodeToString rest))))
  end.
End base64.

Module aks.

(** [ClusterCredentials] *)
Record ClusterCredentials := {
  ClusterName : string;
  ServerURL : string;
  CACertificate : list Byte.byte;
  ResourceGroup : string;
  SubscriptionID : string;
  TenantID : string;
  ClientID : string
}.

Module Cluster.
Record t := mk { Server : string; CertificateAuthorityData : string }.
End Cluster.

Module NamedCluster.
Record t := mk { Name : string; Cluster : Cluster.t }.
End NamedCluster.

Module Context.
Record t := mk { Cluster : string; User : string; Namespace : string }.
End Context.

Module NamedContext.
Record t := mk { Name : string; Context : Context.t }.
End NamedContext.

Module ExecEnvVar.
Record t := mk { Name : string; Value : string }.
End ExecEnvVar.

Module ExecConfig.
Record t := mk {
  APIVersion : string;
  Command : string;
  Args : list string;
  Env : list ExecEnvVar.t;
  InteractiveMode : string;
  ProvideClusterInfo : bool
}.
End ExecConfig.

Module User.
(** [Exec *ExecConfig]: [None] is the nil pointer. *)
Record t := mk { Exec : option ExecConfig.t }.
End User.

Module NamedUser.
Record t := mk { Name : string; User : User.t }.
End NamedUser.

Section Kubeconfig.
(** The values of [map[string]any]. *)
Variable any : Type.

Record Kubeconfig := mkKubeconfig {
  APIVersion : string;
  Kind : string;
  CurrentContext : string;
  Clusters : list NamedCluster.t;
  Contexts : list NamedContext.t;
  Users : list NamedUser.t;
  Preferences : gmap string any
}.

Definition set_CurrentContext (v : string) (k : Kubeconfig) : Kubeconfig :=
  mkKubeconfig (APIVersion k) (Kind k) v (Clusters k) (Contexts k)
               (Users k) (Preferences k).
Definition set_Clusters (v : list NamedCluster.t) (k : Kubeconfig) : Kubeconfig :=
  mkKubeconfig (APIVersion k) (Kind k) (CurrentContext k) v (Contexts k)
               (Users k) (Preferences k).
Definition set_Contexts (v : list NamedContext.t) (k : Kubeconfig) : Kubeconfig :=
  mkKubeconfig (APIVersion k) (Kind k) (CurrentContext k) (Clusters k) v
               (Users k) (Preferences k).
Definition set_Users (v : list NamedUser.t) (k : Kubeconfig) : Kubeconfig :=
  mkKubeconfig (APIVersion k) (Kind k) (CurrentContext k) (Clusters k)
               (Contexts k) v (Preferences k).

(** The loop [for i, x := range xs { if x.Name == name { ...; return } }]
    stops at the first index whose entry has the name. *)
Definition upsertCluster (name server caCert : string) (k : Kubeconfig)
    : Kubeconfig :=
  match list_find (fun cluster => NamedCluster.Name cluster = name)
                  (Clusters k) with
  | Some (i, _) =>
      set_Clusters
        (alter (fun c => NamedCluster.mk (NamedCluster.Name c)
                           (Cluster.mk server caCert)) i (Clusters k)) k
  | None =>
      set_Clusters
        (Clusters k ++ [NamedCluster.mk name (Cluster.mk server caCert)])%list
        k
  end.

(** The user entry for Azure CLI authentication through kubelogin. *)
Definition azurecliUser : User.t :=
  User.mk (Some (ExecConfig.mk "client.authentication.k8s.io/v1beta1"
                   "kubelogin" ["get-token"; "--login"; "azurecli"]
                   [] "" false)).

Definition upsertUser (name : string) (k : Kubeconfig) : Kubeconfig :=
  match list_find (fun user => NamedUser.Name user = name) (Users k) with
  | Some (i, _) =>
      set_Users
        (alter (fun u => NamedUser.mk (NamedUser.Name u) azurecliUser)
               i (Users k)) k
  | None =>
      set_Users (Users k ++ [NamedUser.mk name azurecliUser])%list k
  end.

Definition upsertContext (name cluster user : string) (k : Kubeconfig)
    : Kubeconfig :=
  match list_find (fun ctx => NamedContext.Name ctx = name)
                  (Contexts k) with
  | Some (i, _) =>
      set_Contexts
        (alter (fun c => NamedContext.mk (NamedContext.Name c)
                           (Context.mk cluster user
                              (Context.Namespace (NamedContext.Context c))))
               i (Contexts k)) k
  | None =>
      set_Contexts
        (Contexts k ++ [NamedContext.mk name (Context.mk cluster user "")])%list
        k
  end.

(** [fmt.Sprintf("clusterUser_%s_%s", ...)] *)
Definition userNameOf (creds : ClusterCredentials) : string :=
  "clusterUser_" ++ ResourceGroup creds ++ "_" ++ ClusterName creds.

Definition MergeClusterCredentials (creds : ClusterCredentials)
    (k : Kubeconfig) : Kubeconfig :=
  let clusterName := ClusterName creds in
  let contextName := clusterName in
  let userName := userNameOf creds in
  let caCertBase64 := base64.EncodeToString (CACertificate creds) in
  let k := upsertCluster clusterName (ServerURL creds) caCertBase64 k in
  let k := upsertUser userName k in
  let k := upsertContext contextName clusterName userName k in
  set_CurrentContext contextName k.
End Kubeconfig.

End aks.

(** * The callers of the retry engine and of the merge *)

(** ** Package aks: reading the credentials *)

Module base64dec.
(** The sextet of a character of the standard alphabet: the table
    [decodeMap], [None] for the entries [0xff]. *)
Definition decodeMap (c : ascii) : option N :=
  (fix find (s : string) (i : N) : option N :=
     match s with
     | EmptyString => None
     | String a r => if Ascii.eqb a c then Some i else find r (N.succ i)
     end) base64.encodeStd 0%N.

Definition isNewline (c : ascii) : bool :=
  Ascii.eqb c "010" || Ascii.eqb c "013".

Definition padChar : ascii := "=".

(** [base64.CorruptInputError(n)]: an error value with no method but
    [Error], kept with its text. *)
Definition CorruptInputError (n : Z) : error :=
  errorString ("illegal base64 data at input byte " ++ pretty n).

(** The bytes of the 24 bits a quantum holds. *)
Definition byteOf (v : N) : Byte.byte :=
  default Byte.x00 (Byte.of_N (N.land v 255)).

Definition quantum (a b c d : N) : N :=
  N.lor (N.lor (N.lor (N.shiftl a 18) (N.shiftl b 12)) (N.shiftl c 6)) d.

(** The input after the carriage returns and line feeds at its head, and
    how many of them were skipped. *)
Fixpoint skipNewlines (src : string) : Z * string :=
  match src with
  | String c rest =>
      if isNewline c then let '(k, r) := skipNewlines rest in (k + 1, r)
      else (0, src)
  | EmptyString => (0, src)
  end.

(** [Encoding.Decode] of the padded, lenient [StdEncoding], quantum by
    quantum: [si] is the index of the head of [src] in the whole input,
    [dbuf] the sextets read for the current quantum, [dst] the bytes
    written so far. *)
Fixpoint decode (src : string) (si : Z) (dbuf : list N)
    (dst : list Byte.byte) : list Byte.byte * error :=
  match src with
  | EmptyString =>
      match dbuf with
      | [] => (dst, nil)
      | _ => (dst, CorruptInputError (si - Z.of_nat (length dbuf)))
      end
  | String c rest =>
      match decodeMap c with
      | Some out =>
          match dbuf with
          | [a; b; c3] =>
              let val := quantum a b c3 out in
              decode rest (si + 1) []
                (dst ++ [byteOf (N.shiftr val 16); byteOf (N.shiftr val 8);
                         byteOf val])%list
          | _ => decode rest (si + 1) (dbuf ++ [out])%list dst
          end
      | None =>
          if isNewline c then decode rest (si + 1) dbuf dst
          else if negb (Ascii.eqb c padChar) then (dst, CorruptInputError si)
          else
            match dbuf with
            | [] | [_] => (dst, CorruptInputError si)
            | [a; b] =>
                let val := quantum a b 0 0 in
                let '(k, rest) := skipNewlines rest in
                let si := si + 1 + k in
                match rest with
                | EmptyString => (dst, CorruptInputError si)
                | String c2 rest =>
                    if negb (Ascii.eqb c2 padChar)
                    then (dst, CorruptInputError (si - 1))
                    else
                      let '(k, rest) := skipNewlines rest in
                      let si := si + 1 + k in
                      ((dst ++ [byteOf (N.shiftr val 16)])%list,
                       match rest with
                       | EmptyString => nil
                       | _ => CorruptInputError si
                       end)
                end
            | a :: b :: c3 :: _ =>
                let val := quantum a b c3 0 in
                let '(k, rest) := skipNewlines rest in
                let si := si + 1 + k in
                ((dst ++ [byteOf (N.shiftr val 16);
                          byteOf (N.shiftr val 8)])%list,
                 match rest with
                 | EmptyString => nil
                 | _ => CorruptInputError si
                 end)
            end
      end
  end.

(** [base64.StdEncoding.DecodeString] *)
Definition DecodeString (s : string) : list Byte.byte * error :=
  decode s 0 [] [].
End base64dec.

Module yaml.
(** The dynamic values [yaml.Unmarshal] stores in a [map[string]any]. *)
#[warnings="-register-all"] Inductive any : Type :=
  | anyNil
  | anyBool (b : bool)
  | anyInt (n : Z)
  | anyFloat (f : float64.t)
  | anyString (s : string)
  | anySlice (l : list any)
  | anyMap (m : gmap string any)
  | anyOther.
End yaml.

Module aksclient.
Import yaml.

(** The type assertions of [extractClusterInfo]; a missing key gives the
    nil interface, which no assertion accepts. *)
Definition asSlice (v : option any) : option (list any) :=
  match v with Some (anySlice l) => Some l | _ => None end.

Definition asMap (v : option any) : option (gmap string any) :=
  match v with Some (anyMap m) => Some m | _ => None end.

Definition asString (v : option any) : option string :=
  match v with Some (anyString s) => Some s | _ => None end.

(** [extractClusterInfo]: the server URL, the CA certificate, the error. *)
Definition extractClusterInfo (kubeconfigMap : gmap string any)
    : string * list Byte.byte * error :=
  match kubeconfigMap !! "clusters" with
  | None => ("", [], errorString "no clusters found in kubeconfig")
  | Some clustersInterface =>
      match asSlice (Some clustersInterface) with
      | None | Some [] =>
          ("", [], errorString "invalid clusters format in kubeconfig")
      | Some (first :: _) =>
          match asMap (Some first) with
          | None => ("", [], errorString "invalid cluster format")
          | Some firstCluster =>
              match asMap (firstCluster !! "cluster") with
              | None => ("", [], errorString "invalid cluster data format")
              | Some clusterData =>
                  match asString (clusterData !! "server") with
                  | None =>
                      ("", [],
                       errorString "no server URL found in cluster data")
                  | Some serverURL =>
                      match asString
                              (clusterData !! "certificate-authority-data")
                      with
                      | None =>
                          ("", [],
                           errorString
                             "no CA certificate found in cluster data")
                      | Some caCertBase64 =>
                          let '(caCert, err) :=
                            base64dec.DecodeString caCertBase64 in
                          if negb (is_nil err) then
                            ("", [],
                             wrapError "failed to decode CA certificate: " err)
                          else (serverURL, caCert, nil)
                      end
                  end
              end
          end
      end
  end.

Definition AzureManagementURL : string := "https://management.azure.com".
Definition AKSAPIVersion : string := "2023-01-01".

(** [Client]: the subscription and the access token. Its [httpClient] is
    part of the world the two requests below act on. *)
Record Client := mkClient { subscriptionID : string; accessToken : string }.

(** An element of [clusterUserCredentialResponse.Kubeconfigs]. *)
Module kubeconfigValue.
Record t := mk { Name : string; Value : string }.
End kubeconfigValue.

Definition managedClusterURL (c : Client) (resourceGroup clusterName : string)
    : string :=
  AzureManagementURL ++ "/subscriptions/" ++ subscriptionID c
  ++ "/resourceGroups/" ++ resourceGroup
  ++ "/providers/Microsoft.ContainerService/managedClusters/" ++ clusterName.

Section GetClusterCredentials.
(** What the requests act on, and [yaml.Unmarshal] into a
    [map[string]any]. The two requests [getClusterInfo] and
    [getClusterUserCredentials] are taken by what they return: the first
    one's response is dropped by the caller, so only its error is kept. *)
Context {World : Type}.
Variable Unmarshal : list Byte.byte -> gmap string any * error.
Variable getClusterInfo : Client -> string -> World -> error * World.
Variable getClusterUserCredentials :
  Client -> string -> World -> (list kubeconfigValue.t * error) * World.

(** [Client.GetClusterCredentials]: [None] is the nil pointer. *)
Definition GetClusterCredentials (c : Client)
    (resourceGroup clusterName : string) (w : World)
    : option aks.ClusterCredentials * error * World :=
  let clusterURL :=
    managedClusterURL c resourceGroup clusterName
    ++ "?api-version=" ++ AKSAPIVersion in
  let '(err, w) := getClusterInfo c clusterURL w in
  if negb (is_nil err) then (None, err, w)
  else
    let credentialsURL :=
      managedClusterURL c resourceGroup clusterName
      ++ "/listClusterUserCredential?api-version=" ++ AKSAPIVersion in
    let '((kubeconfigs, err), w) :=
      getClusterUserCredentials c credentialsURL w in
    if negb (is_nil err) then (None, err, w)
    else
      match kubeconfigs with
      | [] => (None, errorString "no kubeconfig returned from Azure", w)
      | first :: _ =>
          let '(kubeconfigData, err) :=
            base64dec.DecodeString (kubeconfigValue.Value first) in
          if negb (is_nil err)
          then (None, wrapError "failed to decode kubeconfig: " err, w)
          else
            let '(kubeconfigMap, err) := Unmarshal kubeconfigData in
            if negb (is_nil err)
            then (None, wrapError "failed to parse kubeconfig: " err, w)
            else
              let '(serverURL, caCert, err) :=
                extractClusterInfo kubeconfigMap in
              if negb (is_nil err) then (None, err, w)
              else
                (Some {| aks.ClusterName := clusterName;
                         aks.ServerURL := serverURL;
                         aks.CACertificate := caCert;
                         aks.ResourceGroup := resourceGroup;
                         aks.SubscriptionID := subscriptionID c;
                         aks.TenantID := "";
                         aks.ClientID := "" |}, nil, w)
      end.
End GetClusterCredentials.
End aksclient.


(** ** Package auth: the two token requests *)

Module http.
Definition StatusOK : Z := 200.

(** What the callers read of an [*http.Response]. *)
Record Response {B : Type} := mkResponse {
  StatusCode : Z;
  Body : B
}.
Arguments Response : clear implicits.
Arguments mkResponse {B} StatusCode Body.
End http.

Module auth.

Definition OIDCRequestTimeout : time.Duration := 5 * time.Second.
Definition AzureTokenExchangeTimeout : time.Duration := 10 * time.Second.

(** [TokenResponse] *)
Record TokenResponse {Time : Type} := mkTokenResponse {
  AccessToken : string;
  TokenType : string;
  ExpiresIn : Z;
  ExtExpiresIn : Z;
  RefreshToken : string;
  ExpiresOn : Time;
  TenantID : string;
  ClientID : string;
  SubscriptionID : string
}.
Arguments TokenResponse : clear implicits.
Arguments mkTokenResponse {Time}.

(** [Client]; its [httpClient] has the timeout
    [AzureTokenExchangeTimeout] and follows no redirect. *)
Record Client := mkClient {
  tenantID : string;
  clientID : string;
  subscriptionID : string;
  scope : string
}.

Definition NewClientWithScope (tenantID clientID subscriptionID scope : string)
    : Client :=
  mkClient tenantID clientID subscriptionID scope.

Definition NewClient (tenantID clientID subscriptionID : string) : Client :=
  NewClientWithScope tenantID clientID subscriptionID
    "https://management.azure.com/.default".

Section Requests.
(** The process environment, [strconv.ParseFloat] (for [LoadConfig]),
    and the world outside: what requests act on, with its clock. *)
Variable env : gmap string string.
Variable ParseFloat : string -> option float64.t.
Context {World Request Body Time : Type}.

(** [url.Parse] of the request URL, the parameter [audience] set in its
    query, and the URL printed again: the text, or the error of
    [url.Parse]. *)
Variable tokenURLWithAudience : string -> string -> string * error.
(** [url.Values.Encode] of the values set in a form. *)
Variable Encode : gmap string string -> string.
(** [http.NewRequestWithContext(ctx, method, url, body)], the body given
    as its text ([None] for nil); [Header.Add] and [Header.Set]. *)
Variable NewRequestWithContext :
  string -> string -> option string -> Request * error.
Variable HeaderAdd : string -> string -> Request -> Request.
Variable HeaderSet : string -> string -> Request -> Request.
(** [Do] of an [http.Client] with the given timeout that follows no
    redirect. *)
Variable clientDo :
  time.Duration -> Request -> World -> http.Response Body * error * World.
(** [json.NewDecoder(io.LimitReader(body, n)).Decode(&tokenResponse)]:
    the field [Value] and the error. *)
Variable decodeValue : Z -> Body -> string * error.
(** [io.ReadAll(io.LimitReader(body, n))]. *)
Variable ReadAll : Z -> Body -> list Byte.byte * error.
(** [json.Unmarshal] into the error response (its field [Error]) and
    into a [TokenResponse]. *)
Variable unmarshalError : list Byte.byte -> string * error.
Variable unmarshalToken : list Byte.byte -> TokenResponse Time * error.
(** [time.Now().UTC()] and [Time.Add]. *)
Variable Now : World -> Time.
Variable Add : Time -> time.Duration -> Time.

(** The closure [GetGitHubOIDCToken] gives to [Do]; it captures the
    variable [token]. *)
Definition requestOIDCToken (tokenURL requestToken : string)
    : Operation (World * string) :=
  fun st =>
    let w := st.1 in
    let token := st.2 in
    let '(req, err) := NewRequestWithContext "GET" tokenURL None in
    if negb (is_nil err)
    then (wrapError "failed to create request: " err, (w, token))
    else
      let req := HeaderAdd "Authorization" ("Bearer " ++ requestToken) req in
      let req := HeaderAdd "Accept" "application/json" req in
      let '(resp, err, w) := clientDo OIDCRequestTimeout req w in
      if negb (is_nil err)
      then (wrapError "failed to request OIDC token: " err, (w, token))
      else if negb (http.StatusCode resp =? http.StatusOK)
      then (errorString
              ("failed to get OIDC token: status "
               ++ pretty (http.StatusCode resp)
               ++ " (check ACTIONS_ID_TOKEN_REQUEST_TOKEN and workflow permissions)"),
            (w, token))
      else
        let '(Value, err) := decodeValue (1024 * 1024) (http.Body resp) in
        if negb (is_nil err)
        then (wrapError "failed to parse OIDC token response: " err,
              (w, token))
        else if String.eqb Value ""
        then (errorString "empty OIDC token received", (w, token))
        else (nil, (w, Value)).

(** [GetGitHubOIDCToken]: the token, the error, the world after the
    requests. *)
Definition GetGitHubOIDCToken (ctx : context.Context) (w : World)
    : option (string * error * World) :=
  let requestToken := os.Getenv env "ACTIONS_ID_TOKEN_REQUEST_TOKEN" in
  let requestURL := os.Getenv env "ACTIONS_ID_TOKEN_REQUEST_URL" in
  if String.eqb requestToken ""
  then Some ("",
             errorString
               "ACTIONS_ID_TOKEN_REQUEST_TOKEN environment variable not set. Are you running in GitHub Actions?",
             w)
  else if String.eqb requestURL ""
  then Some ("",
             errorString
               "ACTIONS_ID_TOKEN_REQUEST_URL environment variable not set. Are you running in GitHub Actions?",
             w)
  else
    let '(tokenURL, err) :=
      tokenURLWithAudience requestURL "api://AzureADTokenExchange" in
    if negb (is_nil err)
    then Some ("", wrapError "invalid ACTIONS_ID_TOKEN_REQUEST_URL: " err, w)
    else
      let retryConfig := LoadConfig ParseFloat env in
      match Do retryConfig ctx (requestOIDCToken tokenURL requestToken)
               (w, "") with
      | None => None
      | Some run =>
          let w := (final run).1 in
          let token := (final run).2 in
          let err := result run in
          if negb (is_nil err)
          then Some ("", wrapError "failed to get OIDC token: " err, w)
          else Some (token, nil, w)
      end.

(** The closure [ExchangeOIDCToken] gives to [Do]; it captures the
    pointer [tokenResp], nil at first. *)
Definition exchangeToken (c : Client) (tokenEndpoint : string)
    (data : gmap string string)
    : Operation (World * option (TokenResponse Time)) :=
  fun st =>
    let w := st.1 in
    let tokenResp := st.2 in
    let '(req, err) :=
      NewRequestWithContext "POST" tokenEndpoint (Some (Encode data)) in
    if negb (is_nil err)
    then (wrapError "failed to create token request: " err, (w, tokenResp))
    else
      let req :=
        HeaderSet "Content-Type" "application/x-www-form-urlencoded" req in
      let req := HeaderSet "Accept" "application/json" req in
      let '(resp, err, w) := clientDo AzureTokenExchangeTimeout req w in
      if negb (is_nil err)
      then (wrapError "failed to exchange token: " err, (w, tokenResp))
      else
        let '(body, err) := ReadAll (1024 * 1024) (http.Body resp) in
        if negb (is_nil err)
        then (wrapError "failed to read response body: " err, (w, tokenResp))
        else if negb (http.StatusCode resp =? http.StatusOK)
        then
          let '(errorRespError, err) := unmarshalError body in
          if is_nil err
          then (errorString
                  ("authentication failed: " ++ errorRespError
                   ++ " (check credentials and federated identity configuration)"),
                (w, tokenResp))
          else (errorString
                  ("authentication failed with status "
                   ++ pretty (http.StatusCode resp)
                   ++ " (check credentials and network connectivity)"),
                (w, tokenResp))
        else
          let '(response, err) := unmarshalToken body in
          if negb (is_nil err)
          then (wrapError "failed to parse token response: " err,
                (w, tokenResp))
          else
            let response :=
              {| AccessToken := AccessToken response;
                 TokenType := TokenType response;
                 ExpiresIn := ExpiresIn response;
                 ExtExpiresIn := ExtExpiresIn response;
                 RefreshToken := RefreshToken response;
                 ExpiresOn :=
                   Add (Now w) (wrap64 (ExpiresIn response * time.Second));
                 TenantID := tenantID c;
                 ClientID := clientID c;
                 SubscriptionID := subscriptionID c |} in
            (nil, (w, Some response)).

(** [Client.ExchangeOIDCToken]: the pointer ([None] for nil), the
    error, the world after the requests. *)
Definition ExchangeOIDCToken (c : Client) (ctx : context.Context)
    (oidcToken : string) (w : World)
    : option (option (TokenResponse Time) * error * World) :=
  let tokenEndpoint :=
    "https://login.microsoftonline.com/" ++ tenantID c
    ++ "/oauth2/v2.0/token" in
  let data : gmap string string :=
    <["scope" := scope c]>
      (<["grant_type" := "client_credentials"]>
         (<["client_assertion" := oidcToken]>
            (<["client_assertion_type" :=
                 "urn:ietf:params:oauth:client-assertion-type:jwt-bearer"]>
               (<["client_id" := clientID c]> ∅)))) in
  let retryConfig := LoadConfig ParseFloat env in
  match Do retryConfig ctx (exchangeToken c tokenEndpoint data) (w, None) with
  | None => None
  | Some run =>
      let w := (final run).1 in
      let tokenResp := (final run).2 in
      let err := result run in
      if negb (is_nil err) then Some (None, err, w)
      else Some (tokenResp, nil, w)
  end.
End Requests.
End auth.

(** ** Package commands: the checks of [login] *)

Module regexp.
(** The part of the syntax of [regexp] that [uuidPattern] uses: a class
    of byte ranges, a literal byte, an exact repetition [r{n}], a
    concatenation, and the anchors [^] and [$], which without the flag
    [m] stand for the beginning and the end of the text. The classes and
    literals of the pattern are ASCII, so matching byte by byte is
    matching rune by rune. *)
Inductive Regexp : Type :=
  | CharClass (ranges : list (ascii * ascii))
  | Literal (c : ascii)
  | Repeat (r : Regexp) (n : nat)
  | Concat (r1 r2 : Regexp)
  | BeginText
  | EndText.

Definition inClass (ranges : list (ascii * ascii)) (c : ascii) : bool :=
  existsb (fun '(lo, hi) =>
             (nat_of_ascii lo <=? nat_of_ascii c)%nat
             && (nat_of_ascii c <=? nat_of_ascii hi)%nat) ranges.

(** The ways [r] matches at position [pos], where [s] is the text from
    there on: the position and the text after each match. *)
Fixpoint matchAt (r : Regexp) (pos : nat) (s : string)
    : list (nat * string) :=
  match r with
  | CharClass ranges =>
      match s with
      | String c rest => if inClass ranges c then [(S pos, rest)] else []
      | EmptyString => []
      end
  | Literal c =>
      match s with
      | String c' rest => if Ascii.eqb c c' then [(S pos, rest)] else []
      | EmptyString => []
      end
  | Repeat r n =>
      (fix rep (n : nat) (pos : nat) (s : string) : list (nat * string) :=
         match n with
         | O => [(pos, s)]
         | S n => flat_map (fun '(p, t) => rep n p t) (matchAt r pos s)
         end) n pos s
  | Concat r1 r2 =>
      flat_map (fun '(p, t) => matchAt r2 p t) (matchAt r1 pos s)
  | BeginText => if Nat.eqb pos 0 then [(pos, s)] else []
  | EndText => match s with EmptyString => [(pos, s)] | _ => [] end
  end.

(** [Regexp.MatchString]: whether the text has a match, at any position. *)
Fixpoint matchFrom (r : Regexp) (pos : nat) (s : string) : bool :=
  match matchAt r pos s with
  | _ :: _ => true
  | [] =>
      match s with
      | String _ rest => matchFrom r (S pos) rest
      | EmptyString => false
      end
  end.

Definition MatchString (r : Regexp) (s : string) : bool := matchFrom r 0 s.
End regexp.

Module commands.
Import regexp.

(** [[0-9a-fA-F]] *)
Definition hexClass : Regexp :=
  CharClass [("0", "9"); ("a", "f"); ("A", "F")]%char.

(** [uuidPattern]:
    [^[0-9a-fA-F]{8}-[0-9a-fA-F]{4}-[0-9a-fA-F]{4}-[0-9a-fA-F]{4}-[0-9a-fA-F]{12}$] *)
Definition uuidPattern : Regexp :=
  Concat BeginText
    (Concat (Repeat hexClass 8)
       (Concat (Literal "-")
          (Concat (Repeat hexClass 4)
             (Concat (Literal "-")
                (Concat (Repeat hexClass 4)
                   (Concat (Literal "-")
                      (Concat (Repeat hexClass 4)
                         (Concat (Literal "-")
                            (Concat (Repeat hexClass 12) EndText))))))))).

(** [isValidUUID] *)
Definition isValidUUID (id : string) : bool := MatchString uuidPattern id.

(** The line feed that ends the messages. *)
Definition lf : string := String "010" EmptyString.

(** The package variables the flags of [login] are bound to. *)
Record loginFlags := mkLoginFlags {
  clientID : string;
  tenantID : string;
  subscriptionID : string;
  allowNoSubscription : bool
}.

Definition invalidUUID (flag : string) : error :=
  errorString
    (flag ++ " must be a valid UUID/GUID format (e.g., 12345678-1234-1234-1234-123456789abc)").

Section runLogin.
Variable env : gmap string string.
Variable ParseFloat : string -> option float64.t.
Context {World Request Body Time : Type}.
Variable tokenURLWithAudience : string -> string -> string * error.
Variable Encode : gmap string string -> string.
Variable NewRequestWithContext :
  string -> string -> option string -> Request * error.
Variable HeaderAdd : string -> string -> Request -> Request.
Variable HeaderSet : string -> string -> Request -> Request.
Variable clientDo :
  time.Duration -> Request -> World -> http.Response Body * error * World.
Variable decodeValue : Z -> Body -> string * error.
Variable ReadAll : Z -> Body -> list Byte.byte * error.
Variable unmarshalError : list Byte.byte -> string * error.
Variable unmarshalToken : list Byte.byte -> auth.TokenResponse Time * error.
Variable Now : World -> Time.
Variable Add : Time -> time.Duration -> Time.
(** [config.NewConfig().SaveToken(token)], given the pointer it is
    called with, and [fmt.Fprintf(os.Stderr, ...)], whose result the
    caller drops. *)
Variable SaveToken : option (auth.TokenResponse Time) -> World -> error * World.
Variable Stderr : string -> World -> World.

(** [runLogin], with [cmd.Context()] as [ctx]: the error, the package
    variables and the world it leaves. *)
Definition runLogin (ctx : context.Context) (flags : loginFlags) (w : World)
    : option (error * loginFlags * World) :=
  let clientID :=
    if String.eqb (clientID flags) "" then os.Getenv env "AZURE_CLIENT_ID"
    else clientID flags in
  let tenantID :=
    if String.eqb (tenantID flags) "" then os.Getenv env "AZURE_TENANT_ID"
    else tenantID flags in
  let subscriptionID :=
    if String.eqb (subscriptionID flags) ""
    then os.Getenv env "AZURE_SUBSCRIPTION_ID"
    else subscriptionID flags in
  let allowNoSubscription := allowNoSubscription flags in
  let flags :=
    mkLoginFlags clientID tenantID subscriptionID allowNoSubscription in
  if String.eqb clientID ""
  then Some (errorString "client-id is required", flags, w)
  else if negb (isValidUUID clientID)
  then Some (invalidUUID "client-id", flags, w)
  else if String.eqb tenantID ""
  then Some (errorString "tenant-id is required", flags, w)
  else if negb (isValidUUID tenantID)
  then Some (invalidUUID "tenant-id", flags, w)
  else if String.eqb subscriptionID "" && negb allowNoSubscription
  then Some (errorString
               "subscription-id is required (or use --allow-no-subscriptions)",
             flags, w)
  else if negb (String.eqb subscriptionID "")
          && negb (isValidUUID subscriptionID)
  then Some (invalidUUID "subscription-id", flags, w)
  else
    match auth.GetGitHubOIDCToken env ParseFloat tokenURLWithAudience
            NewRequestWithContext HeaderAdd clientDo decodeValue ctx w with
    | None => None
    | Some (oidcToken, err, w) =>
        if negb (is_nil err)
        then Some (wrapError "failed to get OIDC token: " err, flags, w)
        else
          let authClient := auth.NewClient tenantID clientID subscriptionID in
          match auth.ExchangeOIDCToken env ParseFloat Encode
                  NewRequestWithContext HeaderSet clientDo ReadAll
                  unmarshalError unmarshalToken Now Add
                  authClient ctx oidcToken w with
          | None => None
          | Some (tokenResponse, err, w) =>
              if negb (is_nil err)
              then Some (wrapError "failed to exchange OIDC token: " err,
                         flags, w)
              else
                let '(err, w) := SaveToken tokenResponse w in
                if negb (is_nil err)
                then Some (wrapError "failed to save token: " err, flags, w)
                else
                  let w := Stderr ("Successfully authenticated to Azure" ++ lf) w in
                  let w := Stderr ("Tenant: " ++ tenantID ++ lf) w in
                  let w := Stderr ("Client: " ++ clientID ++ lf) w in
                  let w :=
                    if negb (String.eqb subscriptionID "")
                    then Stderr ("Subscription: " ++ subscriptionID ++ lf) w
                    else w in
                  Some (nil, flags, w)
          end
    end.
End runLogin.
End commands.

(** ** Packages config and aks: the files *)

Module config.

Definition defaultConfigDir : string := ".azure".
Definition tokenFile : string := "azure-login-token.json".

(** [Config] *)
Record Config := mkConfig { configDir : string }.

(** [SavedToken] *)
Record SavedToken {Time : Type} := mkSavedToken {
  AccessToken : string;
  TokenType : string;
  ExpiresOn : Time;
  TenantID : string;
  ClientID : string;
  SubscriptionID : string
}.
Arguments SavedToken : clear implicits.
Arguments mkSavedToken {Time}.

Section Files.
(** The process environment and the file system: the functions of
    packages [os] and [path/filepath] the code calls, each with the
    error it returns and the file system it leaves, and [encoding/json]
    on a [SavedToken]. *)
Variable env : gmap string string.
Context {World Time : Type}.
Variable UserHomeDir : string * error.
Variable Join : string -> string -> string.
Variable MkdirAll : string -> Z -> World -> error * World.
Variable WriteFile : string -> list Byte.byte -> Z -> World -> error * World.
Variable Rename : string -> string -> World -> error * World.
Variable Remove : string -> World -> error * World.
Variable ReadFile : string -> World -> list Byte.byte * error.
Variable IsNotExist : error -> bool.
Variable Marshal : SavedToken Time -> list Byte.byte * error.
Variable Unmarshal : list Byte.byte -> SavedToken Time * error.

(** [NewConfig] *)
Definition NewConfig : Config :=
  let configDir := os.Getenv env "AZURE_CONFIG_DIR" in
  let configDir :=
    if String.eqb configDir "" then
      let '(home, err) := UserHomeDir in
      if negb (is_nil err) then defaultConfigDir
      else Join home defaultConfigDir
    else configDir in
  mkConfig configDir.

(** [Config.SaveToken], on a token that is not nil. *)
Definition SaveToken (c : Config) (token : auth.TokenResponse Time)
    (w : World) : error * World :=
  let '(err, w) := MkdirAll (configDir c) 448 w in
  if negb (is_nil err)
  then (wrapError "failed to create config directory: " err, w)
  else
    let savedToken :=
      {| AccessToken := auth.AccessToken token;
         TokenType := auth.TokenType token;
         ExpiresOn := auth.ExpiresOn token;
         TenantID := auth.TenantID token;
         ClientID := auth.ClientID token;
         SubscriptionID := auth.SubscriptionID token |} in
    let '(data, err) := Marshal savedToken in
    if negb (is_nil err)
    then (wrapError "failed to marshal token: " err, w)
    else
      let tokenPath := Join (configDir c) tokenFile in
      let tmpPath := tokenPath ++ ".tmp" in
      let '(err, w) := WriteFile tmpPath data 384 w in
      if negb (is_nil err)
      then (wrapError "failed to write token file: " err, w)
      else
        let '(err, w) := Rename tmpPath tokenPath w in
        if negb (is_nil err)
        then
          let '(_, w) := Remove tmpPath w in
          (wrapError "failed to save token file: " err, w)
        else (nil, w).

(** [Config.LoadToken]: [None] is the nil pointer. *)
Definition LoadToken (c : Config) (w : World)
    : option (SavedToken Time) * error :=
  let tokenPath := Join (configDir c) tokenFile in
  let '(data, err) := ReadFile tokenPath w in
  if negb (is_nil err)
  then
    if IsNotExist err then (None, errorString "not authenticated")
    else (None, wrapError "failed to read token file: " err)
  else
    let '(token, err) := Unmarshal data in
    if negb (is_nil err)
    then (None, wrapError "failed to parse token file: " err)
    else (Some token, nil).

(** [Config.DeleteToken] *)
Definition DeleteToken (c : Config) (w : World) : error * World :=
  let tokenPath := Join (configDir c) tokenFile in
  let '(err, w') := Remove tokenPath w in
  if negb (is_nil err)
  then
    if IsNotExist err then (nil, w')
    else (wrapError "failed to delete token file: " err, w')
  else (nil, w').
End Files.
End config.

Module kubeconfig.
Section Files.
Context {World any : Type}.
Variable Dir : string -> string.
Variable MkdirAll : string -> Z -> World -> error * World.
Variable WriteFile : string -> list Byte.byte -> Z -> World -> error * World.
Variable Rename : string -> string -> World -> error * World.
Variable Remove : string -> World -> error * World.
(** [yaml.Marshal] of a [Kubeconfig]. *)
Variable Marshal : aks.Kubeconfig any -> list Byte.byte * error.

(** [SaveKubeconfig] *)
Definition SaveKubeconfig (path : string) (config : aks.Kubeconfig any)
    (w : World) : error * World :=
  let dir := Dir path in
  let '(err, w) := MkdirAll dir 448 w in
  if negb (is_nil err)
  then (wrapError "failed to create kubeconfig directory: " err, w)
  else
    let '(data, err) := Marshal config in
    if negb (is_nil err)
    then (wrapError "failed to marshal kubeconfig: " err, w)
    else
      let tmpPath := path ++ ".tmp" in
      let '(err, w) := WriteFile tmpPath data 384 w in
      if negb (is_nil err)
      then (wrapError "failed to write kubeconfig: " err, w)
      else
        let '(err, w) := Rename tmpPath path w in
        if negb (is_nil err)
        then
          let '(_, w) := Remove tmpPath w in
          (wrapError "failed to save kubeconfig: " err, w)
        else (nil, w).
End Files.
End kubeconfig.

(** * Vocabulary of the properties *)

(** The errno values that [IsRetryable] names: connection reset,
    connection refused, network unreachable, host unreachable, connection
    aborted, operation timed out. *)
Definition retryableErrnos : list Errno :=
  [ECONNRESET; ECONNREFUSED; ENETUNREACH; EHOSTUNREACH; ECONNABORTED;
   ETIMEDOUT].

Section Accepted.
Variable ParseFloat : string -> option float64.t.
Variable env : gmap string string.

(** The number [LoadConfig] takes from a variable read with [Atoi]:
    the variable is set, parses, and lies in [1..hi]. *)
Definition accepted (key : string) (hi : Z) : option Z :=
  let s := os.Getenv env key in
  if String.eqb s "" then None
  else match strconv.Atoi s with
       | Some n => if (n >? 0) && (n <=? hi) then Some n else None
       | None => None
       end.

(** The multiplier [LoadConfig] takes from its variable. *)
Definition acceptedFloat (key : string) : option float64.t :=
  let s := os.Getenv env key in
  if String.eqb s "" then None
  else match ParseFloat s with
       | Some f =>
           if float64.ge f float64.one && float64.le f float64.five
           then Some f else None
       | None => None
       end.

(** [time.Duration(n) * time.Second] *)
Definition seconds (n : Z) : time.Duration := wrap64 (n * time.Second).

(** A variable holds a parsed in-range value: it is set to a text that
    is not empty, the text parses, and the number lies in the range. *)
Definition parsedInRange (key : string) (hi : Z) (n : Z) : Prop :=
  os.Getenv env key <> "" /\
  strconv.Atoi (os.Getenv env key) = Some n /\
  1 <= n <= hi.

Definition parsedInRangeFloat (key : string) (f : float64.t) : Prop :=
  os.Getenv env key <> "" /\
  ParseFloat (os.Getenv env key) = Some f /\
  float64.ge f float64.one = true /\ float64.le f float64.five = true.
End Accepted.

Section Calls.
Context {St : Type}.
Variable operation : Operation St.

(** The captured state after [n] calls of the operation from [st]. *)
Fixpoint stateAfter (st : St) (n : nat) : St :=
  match n with
  | O => st
  | S n => stateAfter (snd (operation st)) n
  end.

(** What call number [i + 1] returns. *)
Definition outcome (st : St) (i : nat) : error :=
  fst (operation (stateAfter st i)).

(** What the first [n] calls return, in order. *)
Fixpoint outcomesUpTo (st : St) (n : nat) : list error :=
  match n with
  | O => []
  | S n => fst (operation st) :: outcomesUpTo (snd (operation st)) n
  end.

(** The durations of [k] successive waits that start with [delay]. *)
Fixpoint schedule (c : Config) (delay : time.Duration) (k : nat)
    : list time.Duration :=
  match k with
  | O => []
  | S k => delay :: schedule c (nextDelay c delay) k
  end.
End Calls.

(** The fixtures of the package's tests. *)
Definition connReset : error := OpError "" "" (ErrnoError ECONNRESET).
Definition permanentErr : error := errorString "permanent error".

(** The error of a name lookup that ran into the deadline of its
    context: the resolver marks it as a timeout and keeps
    [context.DeadlineExceeded] as its cause. *)
Definition lookupDeadline : error :=
  DNSError DeadlineExceeded "i/o timeout" "example.com" "" true true false.

(** The environment with [AZURE_LOGIN_RETRY_INITIAL_DELAY=60] and
    [AZURE_LOGIN_RETRY_MAX_DELAY=1]. *)
Definition envLongFirstDelay : gmap string string :=
  <["AZURE_LOGIN_RETRY_INITIAL_DELAY" := "60"]>
    (<["AZURE_LOGIN_RETRY_MAX_DELAY" := "1"]> ∅).

(** The environment with [AZURE_LOGIN_RETRY_MAX_ATTEMPTS=11], out of
    range, [AZURE_LOGIN_RETRY_INITIAL_DELAY=60], in range, and
    [AZURE_LOGIN_RETRY_MAX_DELAY=soon], not a number. *)
Definition envMixed : gmap string string :=
  <["AZURE_LOGIN_RETRY_MAX_ATTEMPTS" := "11"]>
    (<["AZURE_LOGIN_RETRY_INITIAL_DELAY" := "60"]>
       (<["AZURE_LOGIN_RETRY_MAX_DELAY" := "soon"]> ∅)).

(** The configuration of [TestExponentialBackoff]. *)
Definition cfgBackoff : Config :=
  mkConfig 4 (10 * time.Millisecond) (100 * time.Millisecond) float64.two.

(** The configuration of [TestDoWithContextCancellation]. *)
Definition cfgCancel : Config :=
  mkConfig 5 (100 * time.Millisecond) (1 * time.Second) float64.two.

(** A context cancelled during the first wait. *)
Definition ctxCancelled : context.Context :=
  {| context.fires := fun _ => true; context.why := context.canceled |}.

(** An operation that fails with a connection reset until call [n]. *)
Definition failsBefore (n : nat) : Operation nat :=
  counting (fun attempts => if (attempts <? n)%nat then connReset else nil).

Section Upsert.
Context {A : Type}.
Variable name_of : A -> string.
Variable name : string.
Variable update : A -> A.
Variable fresh : A.

(** The shape shared by the three upsert helpers. *)
Definition upsertBy (l : list A) : list A :=
  match list_find (fun x => name_of x = name) l with
  | Some (i, _) => alter update i l
  | None => (l ++ [fresh])%list
  end.

(** [l'] is [l] after an upsert by name: either the first entry called
    [name] is replaced in place by its update and nothing else moves,
    or no entry has the name and [fresh] is added at the end. *)
Definition upserted (l l' : list A) : Prop :=
  (exists i x,
      l !! i = Some x /\ name_of x = name /\
      (forall j y, l !! j = Some y -> (j < i)%nat -> name_of y <> name) /\
      length l' = length l /\
      l' !! i = Some (update x) /\
      forall j, j <> i -> l' !! j = l !! j)
  \/
  (Forall (fun y => name_of y <> name) l /\ l' = (l ++ [fresh])%list).
End Upsert.

Section NewEntries.
Import aks.
Variable creds : ClusterCredentials.

(** The cluster and context details the merge writes for [creds]. *)
Definition newCluster : Cluster.t :=
  Cluster.mk (ServerURL creds) (base64.EncodeToString (CACertificate creds)).

Definition newContext (namespace : string) : Context.t :=
  Context.mk (ClusterName creds) (userNameOf creds) namespace.
End NewEntries.

(** The time spent in a list of waits. *)
Definition totalWait (ws : list time.Duration) : Z := fold_right Z.add 0 ws.

(** The variables [LoadConfig] reads. *)
Definition retryVariables : list string :=
  ["AZURE_LOGIN_RETRY_MAX_ATTEMPTS"; "AZURE_LOGIN_RETRY_INITIAL_DELAY";
   "AZURE_LOGIN_RETRY_MAX_DELAY"; "AZURE_LOGIN_RETRY_BACKOFF_MULTIPLIER"].


(** The kubeconfig of [TestExtractClusterInfo_Success], and an answer of
    Azure that holds it. *)
Definition testKubeconfigMap : gmap string yaml.any :=
  {[ "clusters" :=
       yaml.anySlice
         [yaml.anyMap
            {[ "name" := yaml.anyString "test-cluster";
               "cluster" :=
                 yaml.anyMap
                   {[ "server" :=
                        yaml.anyString
                          "https://test-cluster.hcp.eastus.azmk8s.io:443";
                      "certificate-authority-data" :=
                        yaml.anyString
                          "LS0tLS1CRUdJTiBDRVJUSUZJQ0FURS0tLS0tCk1JSURCVENDQWUyZ0F3SUJBZ0lJZVlLQ3RWUU1ZMHM9Ci0tLS0tRU5EIENFUlRJRklDQVRFLS0tLS0K"
                   ]} ]}] ]}.

Definition testClient : aksclient.Client :=
  aksclient.mkClient "test-subscription" "mock-access-token".

Definition testCredentials : aks.ClusterCredentials :=
  {| aks.ClusterName := "test-cluster";
     aks.ServerURL := "https://test-cluster.hcp.eastus.azmk8s.io:443";
     aks.CACertificate :=
       (base64dec.DecodeString
          "LS0tLS1CRUdJTiBDRVJUSUZJQ0FURS0tLS0tCk1JSURCVENDQWUyZ0F3SUJBZ0lJZVlLQ3RWUU1ZMHM9Ci0tLS0tRU5EIENFUlRJRklDQVRFLS0tLS0K").1;
     aks.ResourceGroup := "test-rg";
     aks.SubscriptionID := "test-subscription";
     aks.TenantID := "";
     aks.ClientID := "" |}.

(** A hexadecimal digit, in either case. *)
Definition isHexDigit (c : ascii) : bool :=
  let n := nat_of_ascii c in
  ((48 <=? n) && (n <=? 57) || (97 <=? n) && (n <=? 102)
   || (65 <=? n) && (n <=? 70))%nat.

(** [n] hexadecimal digits and nothing else. *)
Definition hexGroup (n : nat) (g : string) : bool :=
  Nat.eqb (String.length g) n && forallb isHexDigit (list_ascii_of_string g).

(** The [n] hexadecimal digits at the head of a text, and what follows
    them. *)
Fixpoint takeHex (n : nat) (s : string) : option (string * string) :=
  match n with
  | O => Some (EmptyString, s)
  | S n =>
      match s with
      | String c rest =>
          if isHexDigit c then
            match takeHex n rest with
            | Some (g, t) => Some (String c g, t)
            | None => None
            end
          else None
      | EmptyString => None
      end
  end.

(** A world for the token requests as the tests set it up: the server
    gives every request the same answer, and the world counts the
    requests it has seen. Requests and bodies are kept as texts. *)
Definition testOIDCEnv : gmap string string :=
  {[ "ACTIONS_ID_TOKEN_REQUEST_TOKEN" := "test-token";
     "ACTIONS_ID_TOKEN_REQUEST_URL" := "http://127.0.0.1:8080" ]}.

Definition testTokenURL (requestURL audience : string) : string * error :=
  (requestURL ++ "?audience=" ++ audience, nil).

Definition testNewRequest (method url : string) (body : option string)
    : string * error :=
  (method ++ " " ++ url, nil).

Definition testHeader (key value request : string) : string := request.

Definition testServer (status : Z) (body : string) (timeout : time.Duration)
    (request : string) (requests : nat)
    : http.Response string * error * nat :=
  (http.mkResponse status body, nil, S requests).

Definition testReadAll (limit : Z) (body : string)
    : list Byte.byte * error :=
  (list_byte_of_string body, nil).

(** The identifiers [runLogin] works with: a flag, or the environment
    variable when the flag is empty. *)
Definition resolved (env : gmap string string) (flags : commands.loginFlags)
    : commands.loginFlags :=
  commands.mkLoginFlags
    (if String.eqb (commands.clientID flags) ""
     then os.Getenv env "AZURE_CLIENT_ID" else commands.clientID flags)
    (if String.eqb (commands.tenantID flags) ""
     then os.Getenv env "AZURE_TENANT_ID" else commands.tenantID flags)
    (if String.eqb (commands.subscriptionID flags) ""
     then os.Getenv env "AZURE_SUBSCRIPTION_ID"
     else commands.subscriptionID flags)
    (commands.allowNoSubscription flags).

(** The identifiers are well formed: client and tenant are UUIDs, the
    subscription is one too, or is empty and allowed to be. *)
Definition wellFormed (flags : commands.loginFlags) : Prop :=
  commands.isValidUUID (commands.clientID flags) = true /\
  commands.isValidUUID (commands.tenantID flags) = true /\
  (commands.isValidUUID (commands.subscriptionID flags) = true \/
   commands.subscriptionID flags = "" /\
   commands.allowNoSubscription flags = true).

(** The flags of a [login] with a client and a tenant, and no
    subscription. *)
Definition testFlags : commands.loginFlags :=
  commands.mkLoginFlags "12345678-1234-1234-1234-123456789abc"
    "87654321-4321-4321-4321-cba987654321" "" true.

Definition testTokenResponse : auth.TokenResponse Z :=
  auth.mkTokenResponse "mock-access-token" "Bearer" 3600 0 "" 0 "" "" "".

(** A server no request reaches: every request ends in a connection
    reset. *)
Definition testUnreachable (timeout : time.Duration) (request : string)
    (requests : nat) : http.Response string * error * nat :=
  (http.mkResponse 0 "", connReset, S requests).

(** A file system kept in memory: the contents of the files by path. *)
Abbreviation memFiles := (gmap string (list Byte.byte)).

Definition memMkdirAll (dir : string) (perm : Z) (w : memFiles)
    : error * memFiles :=
  (nil, w).

Definition memWriteFile (path : string) (data : list Byte.byte) (perm : Z)
    (w : memFiles) : error * memFiles :=
  (nil, <[path := data]> w).

Definition memRename (src dst : string) (w : memFiles) : error * memFiles :=
  match w !! src with
  | Some data => (nil, <[dst := data]> (delete src w))
  | None => (errorString "no such file or directory", w)
  end.

Definition memRemove (path : string) (w : memFiles) : error * memFiles :=
  match w !! path with
  | Some _ => (nil, delete path w)
  | None => (errorString "no such file or directory", w)
  end.

Definition memReadFile (path : string) (w : memFiles)
    : list Byte.byte * error :=
  match w !! path with
  | Some data => (data, nil)
  | None => ([], errorString "no such file or directory")
  end.

Definition memRead (w : memFiles) (path : string)
    : option (list Byte.byte) :=
  w !! path.

Definition memJoin (dir file : string) : string := dir ++ "/" ++ file.

Definition testSavedToken : config.SavedToken Z :=
  config.mkSavedToken "mock-access-token" "Bearer" 0 "" "" "".

(** * Properties *)

(** ** The failure classifier *)

Lemma IsRetryable_eq err :
  IsRetryable err =
  if is_nil err then false
  else match As is_URLError err with
       | Some urlErr =>
           if call Timeout urlErr then true else IsRetryable (Err urlErr)
       | None => afterURL err
       end.
Proof.
  funelim (IsRetryable err);
    try match goal with H : is_nil _ = _ |- _ => rewrite H end;
    try match goal with H : As is_URLError _ = _ |- _ => rewrite H end;
    reflexivity.
Qed.

Lemma IsRetryable_nil : IsRetryable nil = false.
Proof. rewrite IsRetryable_eq. reflexivity. Qed.

(** An error whose chain holds no [*url.Error] is classified by the later
    checks alone. *)
Lemma IsRetryable_no_url err :
  As is_URLError err = None -> IsRetryable err = afterURL err.
Proof.
  intros Hu. rewrite IsRetryable_eq, Hu.
  destruct err; reflexivity.
Qed.

Lemma Wraps_nil u : ~ Wraps nil u.
Proof. intros H; inversion H; congruence. Qed.

(** [errors.As] finds a value of the wanted type whenever the chain
    holds one. *)
Lemma As_Wraps p e u : Wraps e u -> p u = true -> exists v, As p e = Some v.
Proof.
  induction 1 as [e Hn | e u Hn Hw IH]; intros Hp.
  - exists e. destruct e; simpl; rewrite Hp; reflexivity.
  - destruct (IH Hp) as [v Hv].
    destruct e; simpl in *; try (exfalso; eapply Wraps_nil; eassumption);
      match goal with |- context [if p ?x then _ else _] => destruct (p x) end;
      eauto.
Qed.

(** A wrapper that is not itself a [*url.Error] is classified like its
    cause as long as the cause's chain holds a [*url.Error]. *)
Lemma IsRetryable_through e v :
  e <> nil -> is_URLError e = false ->
  As is_URLError (Unwrap e) = Some v ->
  IsRetryable e = IsRetryable (Unwrap e).
Proof.
  intros Hn He Hv.
  rewrite (IsRetryable_eq e), (IsRetryable_eq (Unwrap e)).
  assert (Hc : is_nil (Unwrap e) = false).
  { destruct (Unwrap e); try reflexivity. discriminate. }
  rewrite Hc.
  destruct e; simpl in *; try discriminate; try congruence;
    rewrite Hv; reflexivity.
Qed.

Lemma IsRetryable_wraps_url_timeout err u :
  Wraps err u -> is_URLError u = true -> call Timeout u = true ->
  IsRetryable err = true.
Proof.
  induction 1 as [e Hn | e u Hn Hw IH]; intros Hu Ht.
  - rewrite IsRetryable_eq.
    destruct e; simpl in *; try discriminate. rewrite Ht. reflexivity.
  - specialize (IH Hu Ht).
    destruct (is_URLError e) eqn:He.
    + rewrite IsRetryable_eq.
      destruct e; simpl in *; try discriminate.
      destruct (call Timeout (URLError Op URL e)); [reflexivity | exact IH].
    + destruct (As_Wraps is_URLError _ _ Hw Hu) as [v Hv].
      rewrite (IsRetryable_through e v); auto.
Qed.

(** C4. An error that is, or wraps, a [*url.Error] whose [Timeout()]
    reports true is retryable; so is in particular a [*url.Error] around
    [context.DeadlineExceeded], which the cancellation check that follows
    in the source recognises ([errors.Is] answers true) and which the
    checks after the first one would on their own classify as final. *)
Theorem IsRetryable_url_timeout_first :
  (forall err op url cause,
     Wraps err (URLError op url cause) ->
     call Timeout (URLError op url cause) = true ->
     IsRetryable err = true) /\
  (forall op url,
     call Timeout (URLError op url DeadlineExceeded) = true /\
     Is (URLError op url DeadlineExceeded) tDeadlineExceeded = true /\
     afterURL (URLError op url DeadlineExceeded) = false /\
     IsRetryable (URLError op url DeadlineExceeded) = true).
Proof.
  split.
  - intros err op url cause Hw Ht.
    eapply IsRetryable_wraps_url_timeout; eauto.
  - intros op url. repeat split; reflexivity.
Qed.

Lemma IsRetryable_url_timeout_first_witness :
  IsRetryable
    (wrapError "failed to request OIDC token: "
       (URLError "Get" "https://token.example" (timeoutError "i/o timeout")))
  = true.
Proof.
  apply (proj1 IsRetryable_url_timeout_first _ "Get"
           "https://token.example" (timeoutError "i/o timeout")).
  - apply Wraps_step; [discriminate | apply Wraps_here; discriminate].
  - reflexivity.
Defined.

(** An error without a [*url.Error] in its chain that [errors.Is] a
    context error is final. *)
Lemma IsRetryable_context err :
  As is_URLError err = None ->
  Is err tCanceled || Is err tDeadlineExceeded = true ->
  IsRetryable err = false.
Proof.
  intros Hu Hc. rewrite (IsRetryable_no_url _ Hu).
  unfold afterURL. rewrite Hc. reflexivity.
Qed.

(** A [*net.DNSError] whose chain of causes holds no [*url.Error] and
    no [*net.OpError] is classified by the context check, then by its
    own [Temporary()]. *)
Lemma IsRetryable_DNSError cause e name server t tmp notFound :
  As is_URLError cause = None -> As is_OpError cause = None ->
  IsRetryable (DNSError cause e name server t tmp notFound) =
  negb (Is cause tCanceled || Is cause tDeadlineExceeded) && (t || tmp).
Proof.
  intros Hu Ho. rewrite IsRetryable_no_url by (simpl; exact Hu).
  unfold afterURL. simpl. rewrite Ho.
  destruct (Is cause tCanceled || Is cause tDeadlineExceeded); reflexivity.
Qed.

(** C7, the input that refutes the claim as worded: the error of a
    lookup that ran into the deadline of its context is marked temporary
    ([Temporary()] is true), and [IsRetryable] returns false for it,
    because [errors.Is] finds [context.DeadlineExceeded] through
    [DNSError.Unwrap] before the [*net.DNSError] case is reached. *)
Lemma IsRetryable_classes_counterexample :
  call Temporary lookupDeadline = true /\
  IsRetryable lookupDeadline = false.
Proof. split; reflexivity. Qed.

(** C7. [IsRetryable] is false for nil, for [context.Canceled] and
    [context.DeadlineExceeded] (bare, or wrapped in a chain without a
    [*url.Error]), for [errors.New] values, for a [*net.DNSError] whose
    [Temporary()] is false ([IsTimeout] and [IsTemporary] both unset)
    and whose cause is nil or a context error, and for a [*net.DNSError]
    whose cause is a context error, even when its [Temporary()] is true;
    it is true for a [*net.OpError] whose cause is one of the six errno
    values, bare or inside an [*os.SyscallError], and for a
    [*net.DNSError] without a cause whose [Temporary()] is true, as when
    [IsTemporary] is set.  In general a [*net.DNSError] whose chain of
    causes holds no [*url.Error] and no [*net.OpError] is retryable
    exactly when [errors.Is] finds no context error in the chain and its
    [Temporary()] is true. *)
Theorem IsRetryable_classes :
  IsRetryable nil = false /\
  IsRetryable Canceled = false /\
  IsRetryable DeadlineExceeded = false /\
  (forall err,
     As is_URLError err = None ->
     Is err tCanceled || Is err tDeadlineExceeded = true ->
     IsRetryable err = false) /\
  (forall s, IsRetryable (errorString s) = false) /\
  (forall prefix s, IsRetryable (wrapError prefix (errorString s)) = false) /\
  (forall cause e name server t tmp notFound,
     As is_URLError cause = None -> As is_OpError cause = None ->
     IsRetryable (DNSError cause e name server t tmp notFound) =
     negb (Is cause tCanceled || Is cause tDeadlineExceeded) &&
     call Temporary (DNSError cause e name server t tmp notFound)) /\
  (forall e name server t tmp notFound,
     IsRetryable (DNSError nil e name server t tmp notFound) =
     call Temporary (DNSError nil e name server t tmp notFound)) /\
  (forall cause e name server notFound,
     cause = nil \/ cause = Canceled \/ cause = DeadlineExceeded ->
     IsRetryable (DNSError cause e name server false false notFound) = false) /\
  (forall cause e name server t tmp notFound,
     cause = Canceled \/ cause = DeadlineExceeded ->
     IsRetryable (DNSError cause e name server t tmp notFound) = false) /\
  (forall e name server t notFound,
     IsRetryable (DNSError nil e name server t true notFound) = true) /\
  Forall (fun errno =>
            forall op net,
              IsRetryable (OpError op net (ErrnoError errno)) = true /\
              forall syscall,
                IsRetryable
                  (OpError op net (SyscallError syscall (ErrnoError errno)))
                = true)
         retryableErrnos.
Proof.
  repeat split; try reflexivity.
  - apply IsRetryable_context.
  - intros cause e name server t tmp notFound Hu Ho.
    apply IsRetryable_DNSError; assumption.
  - intros cause e name server notFound [-> | [-> | ->]]; reflexivity.
  - intros cause e name server t tmp notFound [-> | ->]; reflexivity.
  - intros e name server t notFound. destruct t; reflexivity.
  - unfold retryableErrnos.
    repeat constructor; intros; reflexivity.
Qed.

Lemma IsRetryable_classes_witness :
  IsRetryable (wrapError "request aborted: " Canceled) = false /\
  IsRetryable (OpError "read" "tcp" (ErrnoError ECONNRESET)) = true /\
  IsRetryable
    (DNSError (wrapError "lookup: " Canceled) "operation was canceled"
       "example.com" "" false true false) = false.
Proof.
  destruct IsRetryable_classes
    as (_ & _ & _ & Hctx & _ & _ & Hdns & _ & _ & _ & _ & Hop).
  split; [|split].
  - apply Hctx; reflexivity.
  - unfold retryableErrnos in Hop.
    apply Forall_cons in Hop. destruct Hop as [H _]. apply H.
  - rewrite Hdns by reflexivity. reflexivity.
Defined.

(** ** The loaded configuration *)

Section LoadConfig_properties.
Variable ParseFloat : string -> option float64.t.
Variable env : gmap string string.

Lemma loadMaxAttempts_eq c :
  loadMaxAttempts env c =
  set_MaxAttempts
    (default (MaxAttempts c) (accepted env "AZURE_LOGIN_RETRY_MAX_ATTEMPTS" 10)) c.
Proof.
  unfold loadMaxAttempts, accepted.
  destruct (String.eqb _ ""); simpl; [now destruct c|].
  destruct (strconv.Atoi _) as [n|]; simpl; [|now destruct c].
  destruct ((n >? 0) && (n <=? 10)); simpl; now destruct c.
Qed.

Lemma loadInitialDelay_eq c :
  loadInitialDelay env c =
  set_InitialDelay
    (default (InitialDelay c)
       (seconds <$> accepted env "AZURE_LOGIN_RETRY_INITIAL_DELAY" 60)) c.
Proof.
  unfold loadInitialDelay, accepted.
  destruct (String.eqb _ ""); simpl; [now destruct c|].
  destruct (strconv.Atoi _) as [n|]; simpl; [|now destruct c].
  destruct ((n >? 0) && (n <=? 60)); simpl; now destruct c.
Qed.

Lemma loadMaxDelay_eq c :
  loadMaxDelay env c =
  set_MaxDelay
    (default (MaxDelay c)
       (seconds <$> accepted env "AZURE_LOGIN_RETRY_MAX_DELAY" 300)) c.
Proof.
  unfold loadMaxDelay, accepted.
  destruct (String.eqb _ ""); simpl; [now destruct c|].
  destruct (strconv.Atoi _) as [n|]; simpl; [|now destruct c].
  destruct ((n >? 0) && (n <=? 300)); simpl; now destruct c.
Qed.

Lemma loadBackoffMultiplier_eq c :
  loadBackoffMultiplier ParseFloat env c =
  set_BackoffMultiplier
    (default (BackoffMultiplier c)
       (acceptedFloat ParseFloat env "AZURE_LOGIN_RETRY_BACKOFF_MULTIPLIER")) c.
Proof.
  unfold loadBackoffMultiplier, acceptedFloat.
  destruct (String.eqb _ ""); simpl; [now destruct c|].
  destruct (ParseFloat _) as [f|]; simpl; [|now destruct c].
  destruct (float64.ge f float64.one && float64.le f float64.five);
    simpl; now destruct c.
Qed.

(** [LoadConfig] field by field. *)
Lemma LoadConfig_eq :
  LoadConfig ParseFloat env =
  {| MaxAttempts :=
       default 3 (accepted env "AZURE_LOGIN_RETRY_MAX_ATTEMPTS" 10);
     InitialDelay :=
       default (seconds 1)
         (seconds <$> accepted env "AZURE_LOGIN_RETRY_INITIAL_DELAY" 60);
     MaxDelay :=
       default (seconds 30)
         (seconds <$> accepted env "AZURE_LOGIN_RETRY_MAX_DELAY" 300);
     BackoffMultiplier :=
       default float64.two
         (acceptedFloat ParseFloat env "AZURE_LOGIN_RETRY_BACKOFF_MULTIPLIER") |}.
Proof.
  unfold LoadConfig.
  rewrite loadBackoffMultiplier_eq, loadMaxDelay_eq, loadInitialDelay_eq,
    loadMaxAttempts_eq.
  reflexivity.
Qed.

Lemma accepted_range key hi n : accepted env key hi = Some n -> 1 <= n <= hi.
Proof.
  unfold accepted. destruct (String.eqb _ ""); [discriminate|].
  destruct (strconv.Atoi _) as [m|]; [|discriminate].
  destruct (m >? 0) eqn:H1; destruct (m <=? hi) eqn:H2; simpl;
    intros H; inversion H; subst. lia.
Qed.

Lemma acceptedFloat_range key f :
  acceptedFloat ParseFloat env key = Some f ->
  float64.ge f float64.one = true /\ float64.le f float64.five = true.
Proof.
  unfold acceptedFloat. destruct (String.eqb _ ""); [discriminate|].
  destruct (ParseFloat _) as [g|]; [|discriminate].
  destruct (float64.ge g float64.one) eqn:H1;
    destruct (float64.le g float64.five) eqn:H2; simpl;
    intros H; inversion H; subst. auto.
Qed.

Lemma seconds_small n : 0 <= n <= 300 -> seconds n = n * time.Second.
Proof.
  intros H. unfold seconds, wrap64, time.Second.
  rewrite Z.mod_small; lia.
Qed.
End LoadConfig_properties.

Lemma accepted_parsed env key hi n :
  accepted env key hi = Some n ->
  strconv.Atoi (os.Getenv env key) = Some n /\ 1 <= n <= hi.
Proof.
  intros H. split; [|eapply accepted_range; eauto].
  unfold accepted in H. destruct (String.eqb _ ""); [discriminate|].
  destruct (strconv.Atoi _) as [m|]; [|discriminate].
  destruct ((m >? 0) && (m <=? hi)); congruence.
Qed.

Lemma acceptedFloat_parsed ParseFloat env key f :
  acceptedFloat ParseFloat env key = Some f ->
  ParseFloat (os.Getenv env key) = Some f.
Proof.
  unfold acceptedFloat. destruct (String.eqb _ ""); [discriminate|].
  destruct (ParseFloat _) as [g|]; [|discriminate].
  destruct (float64.ge g float64.one && float64.le g float64.five);
    congruence.
Qed.

Lemma accepted_iff env key hi n :
  accepted env key hi = Some n <-> parsedInRange env key hi n.
Proof.
  unfold accepted, parsedInRange.
  destruct (String.eqb (os.Getenv env key) "") eqn:He.
  - apply String.eqb_eq in He. split; [discriminate|]. intros [H _]. congruence.
  - apply String.eqb_neq in He.
    destruct (strconv.Atoi _) as [m|].
    + destruct (m >? 0) eqn:H1; destruct (m <=? hi) eqn:H2; simpl;
        rewrite Z.gtb_ltb in H1;
        first [apply Z.ltb_lt in H1 | apply Z.ltb_ge in H1];
        first [apply Z.leb_le in H2 | apply Z.leb_gt in H2];
        (split; [intros [= <-] | intros (_ & [= <-] & Hr)]);
        try (repeat split; auto; lia); try lia; reflexivity.
    + split; [discriminate|]. intros (_ & H & _). discriminate.
Qed.

Lemma accepted_none env key hi :
  accepted env key hi = None <-> forall n, ~ parsedInRange env key hi n.
Proof.
  split.
  - intros H n Hn. apply accepted_iff in Hn. congruence.
  - intros H. destruct (accepted env key hi) as [n|] eqn:Ha; [|reflexivity].
    apply accepted_iff in Ha. exfalso. eapply H; eauto.
Qed.

Lemma acceptedFloat_iff ParseFloat env key f :
  acceptedFloat ParseFloat env key = Some f <->
  parsedInRangeFloat ParseFloat env key f.
Proof.
  unfold acceptedFloat, parsedInRangeFloat.
  destruct (String.eqb (os.Getenv env key) "") eqn:He.
  - apply String.eqb_eq in He. split; [discriminate|]. intros [H _]. congruence.
  - apply String.eqb_neq in He.
    destruct (ParseFloat _) as [g|].
    + destruct (float64.ge g float64.one) eqn:H1;
        destruct (float64.le g float64.five) eqn:H2; simpl;
        (split; [intros [= <-] | intros (_ & [= <-] & Hr1 & Hr2)]);
        try (repeat split; auto; fail); try congruence; reflexivity.
    + split; [discriminate|]. intros (_ & H & _). discriminate.
Qed.

Lemma acceptedFloat_none ParseFloat env key :
  acceptedFloat ParseFloat env key = None <->
  forall f, ~ parsedInRangeFloat ParseFloat env key f.
Proof.
  split.
  - intros H f Hf. apply acceptedFloat_iff in Hf. congruence.
  - intros H. destruct (acceptedFloat ParseFloat env key) as [f|] eqn:Ha;
      [|reflexivity].
    apply acceptedFloat_iff in Ha. exfalso. eapply H; eauto.
Qed.

(** C8. Whatever the environment holds, each field of the configuration
    [LoadConfig] returns is the parsed in-range value of its variable
    when the variable holds one (it is set, its text parses, and the
    number lies in the accepted range), and the default in every other
    case (unset or empty, not parsable, out of range); hence
    1 <= MaxAttempts <= 10, 1s <= InitialDelay <= 60s,
    1s <= MaxDelay <= 300s and 1.0 <= BackoffMultiplier <= 5.0. *)
Theorem LoadConfig_in_bounds :
  forall (ParseFloat : string -> option float64.t) (env : gmap string string),
    let c := LoadConfig ParseFloat env in
    ((forall n, parsedInRange env "AZURE_LOGIN_RETRY_MAX_ATTEMPTS" 10 n ->
                MaxAttempts c = n) /\
     ((forall n, ~ parsedInRange env "AZURE_LOGIN_RETRY_MAX_ATTEMPTS" 10 n) ->
      MaxAttempts c = 3)) /\
    ((forall n, parsedInRange env "AZURE_LOGIN_RETRY_INITIAL_DELAY" 60 n ->
                InitialDelay c = n * time.Second) /\
     ((forall n, ~ parsedInRange env "AZURE_LOGIN_RETRY_INITIAL_DELAY" 60 n) ->
      InitialDelay c = 1 * time.Second)) /\
    ((forall n, parsedInRange env "AZURE_LOGIN_RETRY_MAX_DELAY" 300 n ->
                MaxDelay c = n * time.Second) /\
     ((forall n, ~ parsedInRange env "AZURE_LOGIN_RETRY_MAX_DELAY" 300 n) ->
      MaxDelay c = 30 * time.Second)) /\
    ((forall f,
        parsedInRangeFloat ParseFloat env
          "AZURE_LOGIN_RETRY_BACKOFF_MULTIPLIER" f ->
        BackoffMultiplier c = f) /\
     ((forall f,
         ~ parsedInRangeFloat ParseFloat env
             "AZURE_LOGIN_RETRY_BACKOFF_MULTIPLIER" f) ->
      BackoffMultiplier c = float64.two)) /\
    1 <= MaxAttempts c <= 10 /\
    1 * time.Second <= InitialDelay c <= 60 * time.Second /\
    1 * time.Second <= MaxDelay c <= 300 * time.Second /\
    float64.ge (BackoffMultiplier c) float64.one = true /\
    float64.le (BackoffMultiplier c) float64.five = true.
Proof.
  intros ParseFloat env c. subst c. rewrite LoadConfig_eq. simpl.
  split; [|split; [|split; [|split]]].
  - split.
    + intros n Hn. apply accepted_iff in Hn. rewrite Hn. reflexivity.
    + intros Hn. apply accepted_none in Hn. rewrite Hn. reflexivity.
  - split.
    + intros n Hn. pose proof Hn as (_ & _ & Hr).
      apply accepted_iff in Hn. rewrite Hn. simpl.
      apply seconds_small. lia.
    + intros Hn. apply accepted_none in Hn. rewrite Hn. simpl.
      apply seconds_small. lia.
  - split.
    + intros n Hn. pose proof Hn as (_ & _ & Hr).
      apply accepted_iff in Hn. rewrite Hn. simpl.
      apply seconds_small. lia.
    + intros Hn. apply accepted_none in Hn. rewrite Hn. simpl.
      apply seconds_small. lia.
  - split.
    + intros f Hf. apply acceptedFloat_iff in Hf. rewrite Hf. reflexivity.
    + intros Hf. apply acceptedFloat_none in Hf. rewrite Hf. reflexivity.
  - destruct (accepted env "AZURE_LOGIN_RETRY_MAX_ATTEMPTS" 10)
      as [a|] eqn:Ha;
    destruct (accepted env "AZURE_LOGIN_RETRY_INITIAL_DELAY" 60)
      as [i|] eqn:Hi;
    destruct (accepted env "AZURE_LOGIN_RETRY_MAX_DELAY" 300)
      as [m|] eqn:Hm;
    destruct (acceptedFloat ParseFloat env
                "AZURE_LOGIN_RETRY_BACKOFF_MULTIPLIER")
      as [f|] eqn:Hf; simpl;
    repeat match goal with
           | H : accepted _ _ _ = Some _ |- _ =>
               apply accepted_range in H
           | H : acceptedFloat _ _ _ = Some _ |- _ =>
               apply acceptedFloat_range in H; destruct H as [? ?]
           end;
    rewrite ?seconds_small by lia;
    repeat split; try assumption; try reflexivity;
      try (unfold time.Second; lia).
Qed.

(** At [envMixed]: the out-of-range number of attempts and the delay
    that is not a number fall back to the defaults, as does the unset
    multiplier, and the in-range initial delay is taken. *)
Lemma LoadConfig_in_bounds_witness :
  let c := LoadConfig (fun _ => None) envMixed in
  MaxAttempts c = 3 /\
  parsedInRange envMixed "AZURE_LOGIN_RETRY_INITIAL_DELAY" 60 60 /\
  InitialDelay c = 60 * time.Second /\
  MaxDelay c = 30 * time.Second /\
  BackoffMultiplier c = float64.two.
Proof.
  assert (Hin : parsedInRange envMixed "AZURE_LOGIN_RETRY_INITIAL_DELAY" 60 60).
  { split; [discriminate|]. split; [reflexivity|lia]. }
  destruct (LoadConfig_in_bounds (fun _ => None) envMixed)
    as ((_ & Ha) & (Hi & _) & (_ & Hm) & (_ & Hf) & _).
  split; [|split; [|split; [|split]]].
  - apply Ha. intros n (_ & Hp & Hr). vm_compute in Hp.
    injection Hp as <-. lia.
  - exact Hin.
  - apply (Hi 60), Hin.
  - apply Hm. intros n (_ & Hp & _). vm_compute in Hp. discriminate.
  - apply Hf. intros f (Hset & _). apply Hset. reflexivity.
Defined.

(** ** The retry driver *)

Section Do_properties.
Context {St : Type}.
Variable c : Config.
Variable ctx : context.Context.
Variable operation : Operation St.

Lemma IsRetryable_not_nil e : IsRetryable e = true -> is_nil e = false.
Proof. destruct e; try reflexivity. rewrite IsRetryable_nil. discriminate. Qed.

Lemma outcome_S st i :
  outcome operation st (S i) = outcome operation (snd (operation st)) i.
Proof. reflexivity. Qed.

Lemma length_outcomesUpTo st n : length (outcomesUpTo operation st n) = n.
Proof. revert st; induction n; simpl; intros; [reflexivity|]. now rewrite IHn. Qed.

Lemma outcomesUpTo_snoc st n :
  outcomesUpTo operation st (S n) =
  (outcomesUpTo operation st n ++ [outcome operation st n])%list.
Proof.
  revert st; induction n; intros st; [reflexivity|].
  change (outcomesUpTo operation st (S (S n)))
    with (fst (operation st) :: outcomesUpTo operation (snd (operation st)) (S n)).
  rewrite IHn. reflexivity.
Qed.

Lemma last_outcomesUpTo st n :
  last (outcomesUpTo operation st (S n)) = Some (outcome operation st n).
Proof. rewrite outcomesUpTo_snoc. apply last_snoc. Qed.

Lemma stateAfter_S st n :
  stateAfter operation st (S n) =
  snd (operation (stateAfter operation st n)).
Proof. revert st; induction n; intros st; [reflexivity|]. simpl in *. apply IHn. Qed.

(** One pass through the loop body when the attempt fails with a
    retryable error, is not the last one, and the timer wins. *)
Lemma loop_retry fuel attempt delay lastErr st outs ws :
  attempt < MaxAttempts c ->
  IsRetryable (fst (operation st)) = true ->
  context.fires ctx (length ws) = false ->
  loop c ctx operation (S fuel) attempt delay lastErr st outs ws =
  loop c ctx operation fuel (attempt + 1) (nextDelay c delay)
       (fst (operation st)) (snd (operation st))
       (outs ++ [fst (operation st)])%list (ws ++ [delay])%list.
Proof.
  intros Hlt Hr Hf. simpl.
  destruct (operation st) as [err st'] eqn:Hop. simpl in *.
  rewrite (IsRetryable_not_nil _ Hr), Hr, Hf. simpl.
  replace (attempt <=? MaxAttempts c) with true by (symmetry; lia).
  replace (attempt >=? MaxAttempts c) with false by (symmetry; lia).
  reflexivity.
Qed.

(** The pass in which the operation succeeds. *)
Lemma loop_success fuel attempt delay lastErr st outs ws :
  attempt <= MaxAttempts c ->
  fst (operation st) = nil ->
  loop c ctx operation (S fuel) attempt delay lastErr st outs ws =
  Some (mkRun nil (outs ++ [nil])%list ws false (snd (operation st))).
Proof.
  intros Hle Hnil. simpl.
  destruct (operation st) as [err st'] eqn:Hop. simpl in *. subst err.
  apply Z.leb_le in Hle. rewrite Hle. reflexivity.
Qed.

(** The pass of the last allowed attempt, failing with a retryable
    error: the loop is left without a wait. *)
Lemma loop_last fuel delay lastErr st outs ws :
  IsRetryable (fst (operation st)) = true ->
  loop c ctx operation (S fuel) (MaxAttempts c) delay lastErr st outs ws =
  Some (mkRun (exhausted c (fst (operation st)))
              (outs ++ [fst (operation st)])%list ws false
              (snd (operation st))).
Proof.
  intros Hr. simpl.
  destruct (operation st) as [err st'] eqn:Hop. simpl in *.
  rewrite (IsRetryable_not_nil _ Hr), Hr, Z.leb_refl. simpl.
  rewrite Z.geb_leb, Z.leb_refl. reflexivity.
Qed.

(** [k] such passes in a row. *)
Lemma loop_retries k : forall fuel attempt delay lastErr st outs ws,
  attempt + Z.of_nat k <= MaxAttempts c ->
  (forall i, (i < k)%nat -> IsRetryable (outcome operation st i) = true) ->
  (forall i, (i < k)%nat -> context.fires ctx (length ws + i) = false) ->
  exists lastErr',
    loop c ctx operation (k + fuel) attempt delay lastErr st outs ws =
    loop c ctx operation fuel (attempt + Z.of_nat k)
         (Nat.iter k (nextDelay c) delay) lastErr'
         (stateAfter operation st k)
         (outs ++ outcomesUpTo operation st k)%list
         (ws ++ schedule c delay k)%list.
Proof.
  induction k as [|k IH]; intros fuel attempt delay lastErr st outs ws Hle Hr Hf.
  - exists lastErr. simpl. rewrite Z.add_0_r, !app_nil_r. reflexivity.
  - change (S k + fuel)%nat with (S (k + fuel)).
    rewrite loop_retry.
    + destruct (IH fuel (attempt + 1) (nextDelay c delay)
                  (fst (operation st)) (snd (operation st))
                  (outs ++ [fst (operation st)])%list (ws ++ [delay])%list)
        as [l' Hl'].
      * lia.
      * intros i Hi. rewrite <- outcome_S. apply Hr. lia.
      * intros i Hi. rewrite length_app. simpl.
        replace (length ws + 1 + i)%nat with (length ws + S i)%nat by lia.
        apply Hf. lia.
      * exists l'. rewrite Hl'. f_equal.
        -- lia.
        -- rewrite Nat.iter_succ_r. reflexivity.
        -- simpl. rewrite <- app_assoc. reflexivity.
        -- simpl. rewrite <- app_assoc. reflexivity.
    + lia.
    + apply (Hr 0%nat). lia.
    + rewrite <- (Nat.add_0_r (length ws)). apply Hf. lia.
Qed.

(** The pass in which the signal fires during the wait: the attempt
    fails with a retryable error, is not the last one, and the [select]
    takes the case [<-ctx.Done()]. *)
Lemma loop_fires fuel attempt delay lastErr st outs ws :
  attempt < MaxAttempts c ->
  IsRetryable (fst (operation st)) = true ->
  context.fires ctx (length ws) = true ->
  loop c ctx operation (S fuel) attempt delay lastErr st outs ws =
  Some (mkRun (context.Err ctx) (outs ++ [fst (operation st)])%list
              (ws ++ [delay])%list true (snd (operation st))).
Proof.
  intros Hlt Hr Hf. simpl.
  destruct (operation st) as [err st'] eqn:Hop. simpl in *.
  rewrite (IsRetryable_not_nil _ Hr), Hr, Hf. simpl.
  replace (attempt <=? MaxAttempts c) with true by (symmetry; lia).
  replace (attempt >=? MaxAttempts c) with false by (symmetry; lia).
  reflexivity.
Qed.

(** A wait of a run during which the signal fires is the last event of
    the run: the run left through [<-ctx.Done()] in that wait, and no
    call and no wait follows it. *)
Lemma loop_wait_cut fuel : forall attempt delay lastErr st outs ws r k,
  length ws = length outs ->
  (forall i, (i < length ws)%nat -> context.fires ctx i = false) ->
  loop c ctx operation fuel attempt delay lastErr st outs ws = Some r ->
  (k < length (waits r))%nat -> context.fires ctx k = true ->
  cancelled r = true /\ length (waits r) = S k /\
  length (outcomes r) = S k.
Proof.
  induction fuel as [|fuel IH];
    intros attempt delay lastErr st outs ws r k Hlen Hquiet Hrun Hk Hf;
    [discriminate|].
  simpl in Hrun.
  assert (Hno : (k < length ws)%nat -> False).
  { intros H. rewrite (Hquiet k H) in Hf. discriminate. }
  destruct (attempt <=? MaxAttempts c).
  2:{ injection Hrun as <-. simpl in *. tauto. }
  destruct (operation st) as [err st'].
  destruct (is_nil err).
  { injection Hrun as <-. simpl in *. tauto. }
  destruct (IsRetryable err); simpl in Hrun.
  2:{ injection Hrun as <-. simpl in *. tauto. }
  destruct (attempt >=? MaxAttempts c).
  { injection Hrun as <-. simpl in *. tauto. }
  destruct (context.fires ctx (length ws)) eqn:Hfires.
  - injection Hrun as <-. simpl in *. rewrite !length_app in *. simpl in *.
    assert (k = length ws) by (destruct (decide (k < length ws)%nat); [tauto|lia]).
    repeat split; lia.
  - eapply IH; [| |exact Hrun|exact Hk|exact Hf].
    + rewrite !length_app. simpl. lia.
    + intros i Hi. rewrite length_app in Hi. simpl in Hi.
      destruct (decide (i = length ws)) as [->|]; [exact Hfires|].
      apply Hquiet. lia.
Qed.

(** The context errors are final for the classifier. *)
Lemma context_Err_not_retryable : IsRetryable (context.Err ctx) = false.
Proof. unfold context.Err. destruct (context.why ctx); reflexivity. Qed.

(** The loop returns when its fuel covers the attempts that remain. *)
Lemma loop_total fuel : forall attempt delay lastErr st outs ws,
  MaxAttempts c - attempt <= Z.of_nat fuel ->
  exists r,
    loop c ctx operation (S fuel) attempt delay lastErr st outs ws = Some r.
Proof.
  induction fuel as [|fuel IH]; intros attempt delay lastErr st outs ws Hf;
    simpl; (destruct (attempt <=? MaxAttempts c) eqn:Hle; [|eauto]);
    destruct (operation st) as [err st'];
    (destruct (is_nil err); [eauto|]);
    (destruct (negb (IsRetryable err)); [eauto|]);
    (destruct (attempt >=? MaxAttempts c) eqn:Hge; [eauto|]);
    (destruct (context.fires ctx (length ws)); [eauto|]).
  - rewrite Z.geb_leb in Hge. apply Z.leb_gt in Hge. lia.
  - apply IH. lia.
Qed.

Lemma loop_cancelled fuel : forall attempt delay lastErr st outs ws r,
  Z.of_nat (length outs) = attempt - 1 ->
  loop c ctx operation fuel attempt delay lastErr st outs ws = Some r ->
  cancelled r = true ->
  result r = context.Err ctx /\
  Z.of_nat (length (outcomes r)) < MaxAttempts c /\
  exists opErr,
    last (outcomes r) = Some opErr /\
    IsRetryable opErr = true /\
    result r <> opErr.
Proof.
  induction fuel as [|fuel IH];
    intros attempt delay lastErr st outs ws r Hlen Hrun Hc; [discriminate|].
  simpl in Hrun.
  destruct (attempt <=? MaxAttempts c) eqn:Hle;
    [|injection Hrun as <-; discriminate].
  destruct (operation st) as [err st'].
  destruct (is_nil err); [injection Hrun as <-; discriminate|].
  destruct (IsRetryable err) eqn:Hr; simpl in Hrun;
    [|injection Hrun as <-; discriminate].
  destruct (attempt >=? MaxAttempts c) eqn:Hge;
    [injection Hrun as <-; discriminate|].
  destruct (context.fires ctx (length ws)).
  - injection Hrun as <-. simpl.
    rewrite Z.geb_leb in Hge. apply Z.leb_gt in Hge.
    split; [reflexivity|]. split.
    + rewrite length_app. simpl. lia.
    + exists err. rewrite last_snoc. repeat split; auto.
      intros E. rewrite <- E, context_Err_not_retryable in Hr.
      discriminate.
  - eapply IH; [|exact Hrun|exact Hc].
    rewrite length_app. simpl. lia.
Qed.

(** A nil result of the operation is the last one of the run, and the
    run then returns nil. *)
Lemma loop_nil_is_last fuel : forall attempt delay lastErr st outs ws r j,
  Forall (fun e => e <> nil) outs ->
  loop c ctx operation fuel attempt delay lastErr st outs ws = Some r ->
  outcomes r !! j = Some nil ->
  length (outcomes r) = S j /\ result r = nil /\ cancelled r = false.
Proof.
  assert (Hno : forall (l : list error) j,
             Forall (fun e => e <> nil) l -> l !! j = Some nil -> False).
  { intros l j Hl Hj. rewrite Forall_forall in Hl.
    apply (Hl nil); [|reflexivity]. eapply list_elem_of_lookup_2; eauto. }
  induction fuel as [|fuel IH];
    intros attempt delay lastErr st outs ws r j Houts Hrun Hj; [discriminate|].
  simpl in Hrun.
  destruct (attempt <=? MaxAttempts c);
    [|injection Hrun as <-; simpl in Hj; exfalso; eauto].
  destruct (operation st) as [err st'].
  assert (Hsnoc : is_nil err = false ->
                  Forall (fun e => e <> nil) (outs ++ [err])).
  { intros He. apply Forall_app. split; [exact Houts|].
    constructor; [|constructor]. intros ->. discriminate. }
  destruct (is_nil err) eqn:He.
  - injection Hrun as <-. simpl in *.
    destruct (Nat.lt_ge_cases j (length outs)) as [Hlt | Hge].
    + rewrite lookup_app_l in Hj by exact Hlt. exfalso; eauto.
    + rewrite lookup_app_r in Hj by exact Hge.
      destruct (j - length outs)%nat as [|d] eqn:Hd; [|discriminate].
      rewrite length_app. simpl. repeat split; lia.
  - specialize (Hsnoc eq_refl).
    destruct (negb (IsRetryable err));
      [injection Hrun as <-; simpl in Hj; exfalso; eauto|].
    destruct (attempt >=? MaxAttempts c);
      [injection Hrun as <-; simpl in Hj; exfalso; eauto|].
    destruct (context.fires ctx (length ws));
      [injection Hrun as <-; simpl in Hj; exfalso; eauto|].
    eapply IH; eauto.
Qed.

End Do_properties.

Section Do_outcomes.
Context {St : Type}.
Variable c : Config.
Variable ctx : context.Context.
Variable operation : Operation St.
Variable st : St.

(** The run up to the test of the loop condition for attempt [S k],
    when the first [k] attempts fail with retryable errors. *)
Lemma Do_after_retries k fuel :
  Z.of_nat (S k) <= MaxAttempts c ->
  S (Z.to_nat (MaxAttempts c)) = (k + fuel)%nat ->
  (forall i, (i < k)%nat -> IsRetryable (outcome operation st i) = true) ->
  (forall i, (i < k)%nat -> context.fires ctx i = false) ->
  exists lastErr',
    Do c ctx operation st =
    loop c ctx operation fuel (Z.of_nat (S k))
         (Nat.iter k (nextDelay c) (InitialDelay c)) lastErr'
         (stateAfter operation st k)
         (outcomesUpTo operation st k)
         (schedule c (InitialDelay c) k).
Proof.
  intros Hle Hfuel Hr Hf. unfold Do. rewrite Hfuel.
  destruct (loop_retries c ctx operation k fuel 1 (InitialDelay c) nil st [] [])
    as [l' Hl']; [lia | assumption | exact Hf |].
  exists l'. rewrite Hl'. f_equal. lia.
Qed.

(** Every call of [Do] returns: the fuel it gives the loop is enough. *)
Lemma Do_total : exists r, Do c ctx operation st = Some r.
Proof. unfold Do. apply loop_total. lia. Qed.

(** C9. With [MaxAttempts <= 0] the loop body is never entered: [Do]
    returns nil and the operation is not called. *)
Theorem Do_nonpositive_MaxAttempts :
  MaxAttempts c <= 0 ->
  Do c ctx operation st =
  Some {| result := nil; outcomes := []; waits := [];
          cancelled := false; final := st |}.
Proof.
  intros H. unfold Do. simpl.
  replace (1 <=? MaxAttempts c) with false by (symmetry; lia).
  unfold exhausted.
  replace (MaxAttempts c >? 1) with false by (symmetry; lia).
  reflexivity.
Qed.

(** C2. With at least one attempt allowed, an operation whose every
    call returns a non-nil error that is not retryable is called once,
    and [Do] returns the error of that call as it is: the very value,
    not nil and not a [wrapError] around it. *)
Theorem Do_non_retryable :
  1 <= MaxAttempts c ->
  (forall i, outcome operation st i <> nil /\
             IsRetryable (outcome operation st i) = false) ->
  Do c ctx operation st =
  Some {| result := outcome operation st 0;
          outcomes := [outcome operation st 0]; waits := [];
          cancelled := false; final := stateAfter operation st 1 |} /\
  outcome operation st 0 <> nil.
Proof.
  intros Hm Hop. destruct (Hop 0%nat) as [Hn Hr]. split; [|exact Hn].
  unfold Do. simpl. unfold outcome in *. simpl in *.
  replace (1 <=? MaxAttempts c) with true by (symmetry; lia).
  destruct (operation st) as [err st'] eqn:Heq. simpl in *.
  rewrite Hr. simpl.
  destruct err; reflexivity.
Qed.

(** The run of an operation that fails with a retryable error on its
    calls 1 to [n - 1] and succeeds on call [n], when none of the waits
    in between is cut short by the context. *)
Lemma Do_scripted_success (n : nat) :
  MaxAttempts c = Z.of_nat n -> (1 < n)%nat ->
  (forall i, (i < n - 1)%nat ->
             IsRetryable (outcome operation st i) = true) ->
  outcome operation st (n - 1) = nil ->
  (forall i, (i < n - 1)%nat -> context.fires ctx i = false) ->
  Do c ctx operation st =
  Some {| result := nil;
          outcomes := outcomesUpTo operation st n;
          waits := schedule c (InitialDelay c) (n - 1);
          cancelled := false;
          final := stateAfter operation st n |}.
Proof.
  intros Hm Hn Hr Hok Hf.
  destruct n as [|k]; [lia|]. replace (S k - 1)%nat with k in * by lia.
  destruct (Do_after_retries k 2) as [l' ->]; try assumption; try lia.
  rewrite loop_success by (try lia; exact Hok).
  rewrite outcomesUpTo_snoc, stateAfter_S. unfold outcome in *.
  rewrite Hok at 1. reflexivity.
Qed.
(** C1. With [MaxAttempts = n > 1], a call of [Do] in which the
    operation returns a retryable error on each of the attempts 1 to
    [n - 1] and nil on attempt [n] has called the operation exactly [n]
    times and returns nil: the success ends the run.  This is the run
    that takes place when the operation answers its calls in that way
    and no wait between the attempts is cut short by the context. *)
Theorem Do_succeeds_on_last_attempt (n : nat) :
  MaxAttempts c = Z.of_nat n -> (1 < n)%nat ->
  exists r,
    Do c ctx operation st = Some r /\
    ((forall i, (i < n - 1)%nat ->
                exists e, outcomes r !! i = Some e /\ IsRetryable e = true) ->
     outcomes r !! (n - 1)%nat = Some nil ->
     length (outcomes r) = n /\ result r = nil /\ cancelled r = false) /\
    ((forall i, (i < n - 1)%nat ->
                IsRetryable (outcome operation st i) = true) ->
     outcome operation st (n - 1) = nil ->
     (forall i, (i < n - 1)%nat -> context.fires ctx i = false) ->
     r = {| result := nil;
            outcomes := outcomesUpTo operation st n;
            waits := schedule c (InitialDelay c) (n - 1);
            cancelled := false;
            final := stateAfter operation st n |}).
Proof.
  intros Hm Hn. destruct Do_total as [r Hr]. exists r.
  split; [exact Hr|]. split.
  - intros _ Hnil.
    destruct (loop_nil_is_last c ctx operation _ _ _ _ _ _ _ r (n - 1)%nat
                (List.Forall_nil _) Hr Hnil) as (Hlen & Hres & Hc).
    repeat split; auto. lia.
  - intros Hretry Hok Hf.
    rewrite (Do_scripted_success n Hm Hn Hretry Hok Hf) in Hr.
    injection Hr as <-. reflexivity.
Qed.

(** C3, amended. With [MaxAttempts = n >= 1], an operation whose every
    call fails with a retryable error is called exactly [n] times when
    no wait between the attempts is cut short by the context.  For [n > 1] the result is a
    [wrapError] whose text gives the number of attempts and whose
    [Unwrap] is the error of the last call; for [n = 1] it is the error
    of the last call itself. *)
Theorem Do_exhausts (n : nat) :
  MaxAttempts c = Z.of_nat n -> (1 <= n)%nat ->
  (forall i, IsRetryable (outcome operation st i) = true) ->
  (forall i, (i < n - 1)%nat -> context.fires ctx i = false) ->
  let lastErr := outcome operation st (n - 1) in
  exists r,
    Do c ctx operation st = Some r /\
    outcomes r = outcomesUpTo operation st n /\
    length (outcomes r) = n /\
    last (outcomes r) = Some lastErr /\
    waits r = schedule c (InitialDelay c) (n - 1) /\
    cancelled r = false /\
    ((1 < n)%nat ->
     result r =
     wrapError ("operation failed after " ++ pretty (Z.of_nat n) ++
                " attempts: ") lastErr /\
     Unwrap (result r) = lastErr /\
     Wraps (result r) lastErr) /\
    (n = 1%nat -> result r = lastErr).
Proof.
  intros Hm Hn Hr Hf lastErr. subst lastErr.
  destruct n as [|k]; [lia|]. replace (S k - 1)%nat with k in * by lia.
  destruct (Do_after_retries k 2) as [l' ->];
    try lia; auto.
  rewrite <- Hm, loop_last by apply Hr.
  eexists. split; [reflexivity|]. simpl.
  change (fst (operation (stateAfter operation st k)))
    with (outcome operation st k).
  rewrite <- outcomesUpTo_snoc.
  repeat split.
  - apply length_outcomesUpTo.
  - apply last_outcomesUpTo.
  - unfold exhausted.
    assert (H1 : (MaxAttempts c >? 1) = true)
      by (rewrite Z.gtb_ltb; apply Z.ltb_lt; lia).
    rewrite H1, Hm. reflexivity.
  - unfold exhausted.
    assert (H1 : (MaxAttempts c >? 1) = true)
      by (rewrite Z.gtb_ltb; apply Z.ltb_lt; lia).
    rewrite H1. reflexivity.
  - unfold exhausted.
    assert (H1 : (MaxAttempts c >? 1) = true)
      by (rewrite Z.gtb_ltb; apply Z.ltb_lt; lia).
    rewrite H1. apply Wraps_step; [discriminate|]. simpl.
    apply Wraps_here. intros E.
    pose proof (Hr k) as Hk. unfold outcome in *. rewrite E in Hk.
    rewrite IsRetryable_nil in Hk. discriminate.
  - intros Hk. unfold exhausted.
    assert (H1 : (MaxAttempts c >? 1) = false)
      by (rewrite Z.gtb_ltb; apply Z.ltb_ge; lia).
    rewrite H1. injection Hk as ->. reflexivity.
Qed.

(** C6. When the cancellation signal fires during a wait between two
    attempts, [Do] abandons retrying there.  For every run: if the wait
    number [k] takes place (it is one of the waits of the run) and the
    [select] of it takes the case [<-ctx.Done()], then the run ends in
    that wait, [Do] returns the error of the context, which differs from
    the (retryable) error of the last call of the operation, and the
    operation has been called [k + 1] times, fewer than [MaxAttempts].
    And the wait does take place: after [k + 1] calls that failed with
    retryable errors, with an attempt left and no earlier wait cut
    short, the signal firing in wait [k] gives exactly this run, in
    which call [k + 2] is never made. *)
Theorem Do_cancelled_during_wait :
  exists r,
    Do c ctx operation st = Some r /\
    (forall k,
       (k < length (waits r))%nat -> context.fires ctx k = true ->
       cancelled r = true /\
       result r = context.Err ctx /\
       length (waits r) = S k /\
       length (outcomes r) = S k /\
       Z.of_nat (length (outcomes r)) < MaxAttempts c /\
       exists opErr,
         last (outcomes r) = Some opErr /\
         IsRetryable opErr = true /\
         result r <> opErr) /\
    (forall k,
       Z.of_nat (S k) < MaxAttempts c ->
       (forall i, (i <= k)%nat ->
                  IsRetryable (outcome operation st i) = true) ->
       (forall i, (i < k)%nat -> context.fires ctx i = false) ->
       context.fires ctx k = true ->
       r = {| result := context.Err ctx;
              outcomes := outcomesUpTo operation st (S k);
              waits := schedule c (InitialDelay c) (S k);
              cancelled := true;
              final := stateAfter operation st (S k) |}).
Proof.
  destruct Do_total as [r Hr]. exists r. split; [exact Hr|]. split.
  - intros k Hk Hf.
    assert (Hcut : cancelled r = true /\ length (waits r) = S k /\
                   length (outcomes r) = S k).
    { unfold Do in Hr.
      eapply loop_wait_cut; [| |exact Hr|exact Hk|exact Hf];
        [reflexivity|]. simpl. intros i Hi. lia. }
    destruct Hcut as (Hc & Hw & Ho).
    assert (Hend : result r = context.Err ctx /\
                   Z.of_nat (length (outcomes r)) < MaxAttempts c /\
                   exists opErr,
                     last (outcomes r) = Some opErr /\
                     IsRetryable opErr = true /\
                     result r <> opErr)
      by (eapply loop_cancelled; [|exact Hr|exact Hc]; reflexivity).
    destruct Hend as (Hres & Hlt & Hop).
    repeat split; auto.
  - intros k Hlt Hretry Hquiet Hf.
    destruct (Do_after_retries k (S (Z.to_nat (MaxAttempts c)) - k))
      as [lastErr' Heq]; [lia|lia| |exact Hquiet|].
    { intros i Hi. apply Hretry. lia. }
    rewrite Heq in Hr.
    replace (S (Z.to_nat (MaxAttempts c)) - k)%nat
      with (S (Z.to_nat (MaxAttempts c) - k)) in Hr by lia.
    rewrite loop_fires in Hr.
    + injection Hr as <-.
      rewrite outcomesUpTo_snoc, stateAfter_S.
      f_equal. clear. generalize (InitialDelay c) as d.
      induction k as [|k IH]; intros d; [reflexivity|].
      change ((d :: (schedule c (nextDelay c d) k
                     ++ [Nat.iter (S k) (nextDelay c) d]))%list
              = d :: schedule c (nextDelay c d) (S k)).
      f_equal. rewrite Nat.iter_succ_r. apply IH.
    + lia.
    + apply (Hretry k). lia.
    + assert (Hl : forall d n, length (schedule c d n) = n).
      { clear. intros d n. revert d.
        induction n as [|n IH]; intros d; simpl; [reflexivity|].
        rewrite IH. reflexivity. }
      rewrite Hl. exact Hf.
Qed.
End Do_outcomes.

(** ** The backoff schedule *)

Lemma nextDelay_le_MaxDelay c delay : nextDelay c delay <= MaxDelay c.
Proof.
  unfold nextDelay.
  destruct (_ >? MaxDelay c) eqn:H; [lia|].
  rewrite Z.gtb_ltb in H. apply Z.ltb_ge in H. exact H.
Qed.

(** Of [k] successive waits, the first lasts the delay the loop was
    entered with, and every later one is at most [MaxDelay]. *)
Lemma schedule_clamped c delay k :
  schedule c delay k !! 0%nat = (if k is O then None else Some delay) /\
  Forall (fun w => w <= MaxDelay c) (tail (schedule c delay k)).
Proof.
  split; [destruct k; reflexivity|].
  destruct k as [|k]; simpl; [constructor|].
  generalize (nextDelay_le_MaxDelay c delay).
  generalize (nextDelay c delay) as d. clear delay.
  induction k as [|k IH]; intros d Hd; simpl; constructor; auto.
  apply IH, nextDelay_le_MaxDelay.
Qed.

(** C5, at the configuration loaded from [envLongFirstDelay] (three
    attempts, initial delay 60s, maximum delay 1s) and an operation that
    always fails with a connection reset: the first wait lasts the whole
    initial delay of 60s, not the minimum of the initial and the maximum
    delay, which is 1s; the second wait is the clamped 1s. *)
Theorem Do_first_wait_not_clamped :
  forall ParseFloat : string -> option float64.t,
    let c := LoadConfig ParseFloat envLongFirstDelay in
    c = mkConfig 3 (60 * time.Second) (1 * time.Second) float64.two /\
    exists r,
      Do c context.Background (counting (fun _ => connReset)) O = Some r /\
      waits r = [60 * time.Second; 1 * time.Second] /\
      waits r !! 0%nat = Some (InitialDelay c) /\
      Z.min (InitialDelay c) (MaxDelay c) = 1 * time.Second /\
      waits r !! 0%nat <> Some (Z.min (InitialDelay c) (MaxDelay c)).
Proof.
  intros ParseFloat c.
  assert (Hc : c = mkConfig 3 (60 * time.Second) (1 * time.Second) float64.two)
    by (subst c; vm_compute; reflexivity).
  split; [exact Hc|]. rewrite Hc. clear c Hc.
  eexists. split; [vm_compute; reflexivity|].
  repeat split; discriminate.
Qed.

(** ** The scenarios of the package's tests *)

Lemma Do_succeeds_on_last_attempt_witness :
  exists r,
    Do cfgBackoff context.Background (failsBefore 4) O = Some r /\
    length (outcomes r) = 4%nat /\ result r = nil /\
    waits r = [10 * time.Millisecond; 20 * time.Millisecond;
               40 * time.Millisecond].
Proof.
  destruct (Do_succeeds_on_last_attempt cfgBackoff context.Background
              (failsBefore 4) O 4) as (r & Hr & Hrun & Hscript).
  - reflexivity.
  - lia.
  - exists r. split; [exact Hr|].
    assert (Heq : r = {| result := nil;
                         outcomes := [connReset; connReset; connReset; nil];
                         waits := [10 * time.Millisecond;
                                   20 * time.Millisecond;
                                   40 * time.Millisecond];
                         cancelled := false;
                         final := 4%nat |}).
    { apply Hscript.
      - intros [|[|[|i]]] Hi; try reflexivity. simpl in Hi. lia.
      - reflexivity.
      - intros i _. reflexivity. }
    destruct Hrun as (Hlen & Hres & _).
    + intros [|[|[|i]]] Hi; subst r; simpl;
        try (eexists; split; [reflexivity|reflexivity]).
      simpl in Hi. lia.
    + subst r. reflexivity.
    + split; [exact Hlen|]. split; [exact Hres|]. subst r. reflexivity.
Defined.

Lemma Do_non_retryable_witness :
  Do (mkConfig 3 (10 * time.Millisecond) (1 * time.Second) float64.two)
     context.Background (counting (fun _ => permanentErr)) O =
  Some {| result := permanentErr; outcomes := [permanentErr]; waits := [];
          cancelled := false; final := 1%nat |}.
Proof.
  refine (proj1 (Do_non_retryable _ context.Background
                   (counting (fun _ => permanentErr)) O _ _)).
  - simpl. lia.
  - intros i. split; [discriminate | reflexivity].
Defined.

Lemma Do_exhausts_witness :
  exists r,
    Do (mkConfig 3 (10 * time.Millisecond) (1 * time.Second) float64.two)
       context.Background (counting (fun _ => connReset)) O = Some r /\
    length (outcomes r) = 3%nat /\
    result r = wrapError "operation failed after 3 attempts: " connReset.
Proof.
  destruct (Do_exhausts
              (mkConfig 3 (10 * time.Millisecond) (1 * time.Second) float64.two)
              context.Background (counting (fun _ => connReset)) O 3)
    as (r & Hr & _ & Hlen & _ & _ & _ & Hwrap & _).
  - reflexivity.
  - lia.
  - intros i. reflexivity.
  - intros i _. reflexivity.
  - exists r. split; [exact Hr|]. split; [exact Hlen|].
    apply Hwrap. lia.
Defined.

(** The scenario of [TestDoWithContextCancellation]: five attempts are
    allowed and every call fails with a connection reset, yet the context
    is done during the first wait, so the operation is called once and
    [Do] returns [context.Canceled], which does not wrap the error of the
    call. *)
Lemma Do_exhausts_counterexample :
  (forall i,
     IsRetryable (outcome (counting (fun _ => connReset)) O i) = true) /\
  exists r,
    Do cfgCancel ctxCancelled (counting (fun _ => connReset)) O = Some r /\
    outcomes r = [connReset] /\
    Z.of_nat (length (outcomes r)) <> MaxAttempts cfgCancel /\
    result r = Canceled /\
    Unwrap (result r) <> connReset.
Proof.
  split; [intros i; reflexivity|].
  eexists. split; [vm_compute; reflexivity|].
  simpl. repeat split; discriminate.
Qed.

Lemma Do_nonpositive_MaxAttempts_witness :
  Do (mkConfig 0 (1 * time.Second) (30 * time.Second) float64.two)
     context.Background (counting (fun _ => connReset)) O =
  Some {| result := nil; outcomes := []; waits := [];
          cancelled := false; final := O |}.
Proof.
  apply (Do_nonpositive_MaxAttempts
           (mkConfig 0 (1 * time.Second) (30 * time.Second) float64.two)).
  simpl. lia.
Defined.

Lemma Do_cancelled_during_wait_witness :
  Do cfgCancel ctxCancelled (counting (fun _ => connReset)) O =
  Some {| result := Canceled;
          outcomes := [connReset];
          waits := [100 * time.Millisecond];
          cancelled := true;
          final := 1%nat |}.
Proof.
  destruct (Do_cancelled_during_wait cfgCancel ctxCancelled
              (counting (fun _ => connReset)) O) as (r & Hr & _ & Hrun).
  rewrite Hr. f_equal. apply (Hrun 0%nat).
  - vm_compute. reflexivity.
  - intros i Hi. replace i with 0%nat by lia. reflexivity.
  - intros i Hi. lia.
  - reflexivity.
Defined.

(** ** The kubeconfig merge *)

Section Upsert_properties.
Context {A : Type}.
Variable name_of : A -> string.
Variable name : string.
Variable update : A -> A.
Variable fresh : A.

Lemma upsertBy_upserted l :
  upserted name_of name update fresh l (upsertBy name_of name update fresh l).
Proof.
  unfold upsertBy, upserted.
  destruct (list_find _ l) as [[i x]|] eqn:Hfind.
  - apply list_find_Some in Hfind as (Hi & Hx & Hfirst).
    left. exists i, x. repeat split; auto.
    + apply length_alter.
    + rewrite list_lookup_alter_eq, Hi. reflexivity.
    + intros j Hj. apply list_lookup_alter_ne. congruence.
  - apply list_find_None in Hfind. right. split; auto.
Qed.

(** An upsert leaves every entry with another name where it was. *)
Lemma upserted_frame l l' j y :
  upserted name_of name update fresh l l' ->
  l !! j = Some y -> name_of y <> name ->
  l' !! j = Some y.
Proof.
  intros [(i & x & Hi & Hx & _ & _ & _ & Hother) | [_ ->]] Hj Hy.
  - rewrite Hother; [exact Hj|]. intros ->. congruence.
  - rewrite lookup_app_l; [exact Hj|]. eapply lookup_lt_Some; eauto.
Qed.
End Upsert_properties.

Section Merge.
Import aks.
Variable any : Type.
Variable creds : ClusterCredentials.
Variable k : Kubeconfig any.

Ltac case_finds :=
  repeat match goal with
         | |- context [list_find ?P ?l] =>
             destruct (list_find P l) as [[? ?]|]; simpl
         end.

Ltac frame_of_upsert :=
  eapply upserted_frame; [apply upsertBy_upserted | eassumption | assumption].

(** What the merge leaves in each list, and in the other fields: the
    three helpers run one after the other and each writes its own list. *)
Lemma Merge_Clusters :
  Clusters any (MergeClusterCredentials any creds k) =
  upsertBy NamedCluster.Name (ClusterName creds)
    (fun c => NamedCluster.mk (NamedCluster.Name c) (newCluster creds))
    (NamedCluster.mk (ClusterName creds) (newCluster creds))
    (Clusters any k).
Proof.
  unfold MergeClusterCredentials, upsertContext, upsertUser, upsertCluster,
    upsertBy.
  destruct (list_find _ (Clusters any k)) as [[? ?]|]; simpl;
    case_finds; reflexivity.
Qed.

Lemma Merge_Users :
  Users any (MergeClusterCredentials any creds k) =
  upsertBy NamedUser.Name (userNameOf creds)
    (fun u => NamedUser.mk (NamedUser.Name u) azurecliUser)
    (NamedUser.mk (userNameOf creds) azurecliUser)
    (Users any k).
Proof.
  unfold MergeClusterCredentials, upsertContext, upsertUser, upsertCluster,
    upsertBy.
  destruct (list_find _ (Clusters any k)) as [[? ?]|]; simpl;
    destruct (list_find _ (Users any k)) as [[? ?]|]; simpl;
    case_finds; reflexivity.
Qed.

Lemma Merge_Contexts :
  Contexts any (MergeClusterCredentials any creds k) =
  upsertBy NamedContext.Name (ClusterName creds)
    (fun c => NamedContext.mk (NamedContext.Name c)
                (newContext creds (Context.Namespace (NamedContext.Context c))))
    (NamedContext.mk (ClusterName creds) (newContext creds ""))
    (Contexts any k).
Proof.
  unfold MergeClusterCredentials, upsertContext, upsertUser, upsertCluster,
    upsertBy.
  destruct (list_find _ (Clusters any k)) as [[? ?]|]; simpl;
    destruct (list_find _ (Users any k)) as [[? ?]|]; simpl;
    case_finds; reflexivity.
Qed.

Lemma Merge_frame :
  let k' := MergeClusterCredentials any creds k in
  CurrentContext any k' = ClusterName creds /\
  APIVersion any k' = APIVersion any k /\
  Kind any k' = Kind any k /\
  Preferences any k' = Preferences any k.
Proof.
  unfold MergeClusterCredentials, upsertContext, upsertUser, upsertCluster.
  destruct (list_find _ (Clusters any k)) as [[? ?]|]; simpl;
    destruct (list_find _ (Users any k)) as [[? ?]|]; simpl;
    case_finds; repeat split; reflexivity.
Qed.

(** C10. [MergeClusterCredentials] sets [CurrentContext] to the cluster
    name and upserts one entry by name in each of [Clusters] (name: the
    cluster name), [Contexts] (name: the cluster name) and [Users]
    (name: [clusterUser_<resource group>_<cluster name>]): where the
    name is present its first entry is updated in place and the length
    is kept, otherwise one entry is appended; entries with another name
    stay where and as they were, and so do the other fields. *)
Theorem MergeClusterCredentials_upserts :
  let k' := MergeClusterCredentials any creds k in
  CurrentContext any k' = ClusterName creds /\
  upserted NamedCluster.Name (ClusterName creds)
    (fun c => NamedCluster.mk (NamedCluster.Name c) (newCluster creds))
    (NamedCluster.mk (ClusterName creds) (newCluster creds))
    (Clusters any k) (Clusters any k') /\
  upserted NamedContext.Name (ClusterName creds)
    (fun c => NamedContext.mk (NamedContext.Name c)
                (newContext creds (Context.Namespace (NamedContext.Context c))))
    (NamedContext.mk (ClusterName creds) (newContext creds ""))
    (Contexts any k) (Contexts any k') /\
  upserted NamedUser.Name (userNameOf creds)
    (fun u => NamedUser.mk (NamedUser.Name u) azurecliUser)
    (NamedUser.mk (userNameOf creds) azurecliUser)
    (Users any k) (Users any k') /\
  (forall j y, Clusters any k !! j = Some y ->
               NamedCluster.Name y <> ClusterName creds ->
               Clusters any k' !! j = Some y) /\
  (forall j y, Contexts any k !! j = Some y ->
               NamedContext.Name y <> ClusterName creds ->
               Contexts any k' !! j = Some y) /\
  (forall j y, Users any k !! j = Some y ->
               NamedUser.Name y <> userNameOf creds ->
               Users any k' !! j = Some y) /\
  APIVersion any k' = APIVersion any k /\
  Kind any k' = Kind any k /\
  Preferences any k' = Preferences any k.
Proof.
  intros k'. subst k'.
  destruct Merge_frame as (Hcur & Hapi & Hkind & Hpref).
  rewrite Merge_Clusters, Merge_Contexts, Merge_Users.
  split; [exact Hcur|].
  split; [apply upsertBy_upserted|].
  split; [apply upsertBy_upserted|].
  split; [apply upsertBy_upserted|].
  split; [intros j y Hj Hy; frame_of_upsert|].
  split; [intros j y Hj Hy; frame_of_upsert|].
  split; [intros j y Hj Hy; frame_of_upsert|].
  auto.
Qed.
End Merge.

(** ** The tables of the package's tests *)

(** [TestIsRetryable], row by row. *)
Example TestIsRetryable :
  map IsRetryable
    [nil; Canceled; DeadlineExceeded;
     OpError "read" "tcp" (ErrnoError ECONNRESET);
     OpError "" "" (ErrnoError ECONNREFUSED);
     OpError "" "" (ErrnoError ENETUNREACH);
     OpError "" "" (ErrnoError EHOSTUNREACH);
     OpError "" "" (ErrnoError ECONNABORTED);
     URLError "" "" (OpError "" "" (ErrnoError ECONNRESET));
     URLError "" "" (errorString "permanent error");
     errorString "some error"]
  = [false; false; false; true; true; true; true; true; true; false; false].
Proof. vm_compute. reflexivity. Qed.

(** [TestLoadConfigFromEnv], the rows that set no multiplier. *)
Example TestLoadConfigFromEnv ParseFloat :
  LoadConfig ParseFloat ∅ = DefaultConfig /\
  LoadConfig ParseFloat (<["AZURE_LOGIN_RETRY_MAX_ATTEMPTS" := "5"]> ∅) =
  mkConfig 5 (1 * time.Second) (30 * time.Second) float64.two /\
  LoadConfig ParseFloat
    (<["AZURE_LOGIN_RETRY_MAX_ATTEMPTS" := "invalid"]>
       (<["AZURE_LOGIN_RETRY_INITIAL_DELAY" := "-1"]>
          (<["AZURE_LOGIN_RETRY_MAX_DELAY" := "1000"]> ∅))) =
  DefaultConfig.
Proof. repeat split; vm_compute; reflexivity. Qed.

(** [TestMergeClusterCredentials_UpdateExisting]: the cluster and the
    context are updated in place, the user is added after the old one. *)
Example TestMergeClusterCredentials_UpdateExisting :
  let config :=
    aks.mkKubeconfig unit "v1" "Config" ""
      [aks.NamedCluster.mk "existing-cluster"
         (aks.Cluster.mk "https://old-url.example.com" "b2xkLWNlcnQ=")]
      [aks.NamedContext.mk "existing-cluster"
         (aks.Context.mk "existing-cluster" "old-user" "")]
      [aks.NamedUser.mk "old-user" (aks.User.mk None)]
      ∅ in
  let credentials :=
    {| aks.ClusterName := "existing-cluster";
       aks.ServerURL := "https://new-url.example.com";
       aks.CACertificate := list_byte_of_string "new-ca-cert";
       aks.ResourceGroup := "test-rg";
       aks.SubscriptionID := "test-sub";
       aks.TenantID := "";
       aks.ClientID := "" |} in
  let merged := aks.MergeClusterCredentials unit credentials config in
  aks.Clusters unit merged =
    [aks.NamedCluster.mk "existing-cluster"
       (aks.Cluster.mk "https://new-url.example.com" "bmV3LWNhLWNlcnQ=")] /\
  aks.Contexts unit merged =
    [aks.NamedContext.mk "existing-cluster"
       (aks.Context.mk "existing-cluster"
          "clusterUser_test-rg_existing-cluster" "")] /\
  aks.Users unit merged =
    [aks.NamedUser.mk "old-user" (aks.User.mk None);
     aks.NamedUser.mk "clusterUser_test-rg_existing-cluster"
       (aks.azurecliUser)] /\
  aks.CurrentContext unit merged = "existing-cluster".
Proof. repeat split; vm_compute; reflexivity. Qed.

(** * Further properties *)

(** ** Every run of the retry driver *)

Section Do_runs.
Context {St : Type}.
Variable c : Config.
Variable ctx : context.Context.
Variable operation : Operation St.

(** The shape of a run that the loop completes from one of its heads:
    as many waits as calls so far, every call so far failed with a
    retryable error. *)
Lemma loop_shape fuel : forall attempt delay lastErr st outs ws r,
  Z.of_nat (length outs) = attempt - 1 ->
  length ws = length outs ->
  (outs <> [] -> attempt <= MaxAttempts c) ->
  Forall (fun e => IsRetryable e = true) outs ->
  loop c ctx operation fuel attempt delay lastErr st outs ws = Some r ->
  Z.of_nat (length (outcomes r)) <= Z.max (attempt - 1) (MaxAttempts c) /\
  length (waits r) =
    (if cancelled r then length (outcomes r) else pred (length (outcomes r))) /\
  Forall (fun e => IsRetryable e = true) (removelast (outcomes r)).
Proof.
  induction fuel as [|fuel IH];
    intros attempt delay lastErr st outs ws r Hlen Hws Hhead Hretry Hrun;
    [discriminate|].
  simpl in Hrun.
  destruct (attempt <=? MaxAttempts c) eqn:Hle.
  2:{ injection Hrun as <-. simpl. apply Z.leb_gt in Hle.
      destruct outs as [|e outs];
        [|assert (attempt <= MaxAttempts c) by (apply Hhead; discriminate); lia].
      destruct ws; [|discriminate]. repeat split; simpl; [lia|constructor]. }
  apply Z.leb_le in Hle.
  destruct (operation st) as [err st'].
  assert (Hfinal : forall res b,
    length (if b : bool then (ws ++ [delay])%list else ws) =
      (if b then length (outs ++ [err]) else pred (length (outs ++ [err]))) /\
    Z.of_nat (length (outs ++ [err])) <= Z.max (attempt - 1) (MaxAttempts c) /\
    Forall (fun e => IsRetryable e = true) (removelast (outs ++ [err])) /\
    res = res :> error).
  { intros res b. rewrite removelast_last, !length_app. simpl.
    repeat split; auto; destruct b; rewrite ?length_app; simpl; lia. }
  destruct (is_nil err) eqn:He.
  { injection Hrun as <-. simpl.
    destruct (Hfinal nil false) as (H1 & H2 & H3 & _). auto. }
  destruct (IsRetryable err) eqn:Hr; simpl in Hrun.
  2:{ injection Hrun as <-. simpl.
      destruct (Hfinal err false) as (H1 & H2 & H3 & _). auto. }
  destruct (attempt >=? MaxAttempts c) eqn:Hge.
  { injection Hrun as <-. simpl.
    destruct (Hfinal err false) as (H1 & H2 & H3 & _). auto. }
  rewrite Z.geb_leb in Hge. apply Z.leb_gt in Hge.
  destruct (context.fires ctx (length ws)).
  { injection Hrun as <-. simpl.
    destruct (Hfinal err true) as (H1 & H2 & H3 & _). auto. }
  apply IH in Hrun.
  - destruct Hrun as (H1 & H2 & H3). repeat split; auto. lia.
  - rewrite length_app. simpl. lia.
  - rewrite !length_app. simpl. lia.
  - intros _. lia.
  - apply Forall_app. split; [exact Hretry|]. constructor; [exact Hr|constructor].
Qed.

Lemma schedule_snoc d0 n :
  schedule c d0 (S n) =
  (schedule c d0 n ++ [Nat.iter n (nextDelay c) d0])%list.
Proof.
  revert d0. induction n as [|n IH]; intros d0; [reflexivity|].
  change (schedule c d0 (S (S n)))
    with (d0 :: schedule c (nextDelay c d0) (S n)).
  rewrite IH, Nat.iter_succ_r. reflexivity.
Qed.

(** The waits of a run are those of the backoff recurrence. *)
Lemma loop_waits d0 fuel : forall attempt delay lastErr st outs ws r,
  ws = schedule c d0 (length ws) ->
  delay = Nat.iter (length ws) (nextDelay c) d0 ->
  loop c ctx operation fuel attempt delay lastErr st outs ws = Some r ->
  waits r = schedule c d0 (length (waits r)).
Proof.
  induction fuel as [|fuel IH];
    intros attempt delay lastErr st outs ws r Hws Hdelay Hrun; [discriminate|].
  assert (Hnext : (ws ++ [delay])%list =
                  schedule c d0 (length (ws ++ [delay])%list)).
  { rewrite length_app. simpl. rewrite Nat.add_1_r, schedule_snoc.
    rewrite <- Hws, <- Hdelay. reflexivity. }
  simpl in Hrun.
  destruct (attempt <=? MaxAttempts c); [|injection Hrun as <-; exact Hws].
  destruct (operation st) as [err st'].
  destruct (is_nil err); [injection Hrun as <-; exact Hws|].
  destruct (negb (IsRetryable err)); [injection Hrun as <-; exact Hws|].
  destruct (attempt >=? MaxAttempts c); [injection Hrun as <-; exact Hws|].
  destruct (context.fires ctx (length ws));
    [injection Hrun as <-; exact Hnext|].
  eapply IH; [exact Hnext| |exact Hrun].
  rewrite length_app. simpl. rewrite Nat.add_1_r. simpl.
  rewrite <- Hdelay. reflexivity.
Qed.

(** What a run returns, by the way the loop was left. *)
Lemma loop_result fuel : forall attempt delay lastErr st outs ws r,
  Z.of_nat (length outs) = attempt - 1 ->
  (outs <> [] -> attempt <= MaxAttempts c) ->
  (outs = [] -> lastErr = nil) ->
  loop c ctx operation fuel attempt delay lastErr st outs ws = Some r ->
  (cancelled r = true /\ result r = context.Err ctx) \/
  (cancelled r = false /\ result r = default nil (last (outcomes r)) /\
   (outcomes r = [] \/ IsRetryable (result r) = false \/
    MaxAttempts c = 1)) \/
  (cancelled r = false /\ 1 < MaxAttempts c /\
   Z.of_nat (length (outcomes r)) = MaxAttempts c /\
   exists lastErr',
     last (outcomes r) = Some lastErr' /\ IsRetryable lastErr' = true /\
     result r =
       wrapError ("operation failed after " ++ pretty (MaxAttempts c) ++
                  " attempts: ") lastErr').
Proof.
  induction fuel as [|fuel IH];
    intros attempt delay lastErr st outs ws r Hlen Hhead Hzero Hrun;
    [discriminate|].
  simpl in Hrun.
  destruct (attempt <=? MaxAttempts c) eqn:Hle.
  2:{ injection Hrun as <-. simpl. apply Z.leb_gt in Hle.
      destruct outs as [|e outs];
        [|assert (attempt <= MaxAttempts c) by (apply Hhead; discriminate); lia].
      simpl in Hlen. right. left. unfold exhausted.
      assert (H1 : (MaxAttempts c >? 1) = false)
        by (rewrite Z.gtb_ltb; apply Z.ltb_ge; lia).
      rewrite H1, Hzero by reflexivity. auto. }
  apply Z.leb_le in Hle.
  destruct (operation st) as [err st'].
  destruct (is_nil err) eqn:He.
  { destruct err; try discriminate He.
    injection Hrun as <-. simpl. right. left. rewrite last_snoc. simpl.
    split; [reflexivity|]. split; [reflexivity|].
    right. left. apply IsRetryable_nil. }
  destruct (IsRetryable err) eqn:Hr; simpl in Hrun.
  2:{ injection Hrun as <-. simpl. right. left. rewrite last_snoc. simpl.
      split; [reflexivity|]. split; [reflexivity|]. auto. }
  destruct (attempt >=? MaxAttempts c) eqn:Hge.
  { injection Hrun as <-. simpl. rewrite Z.geb_leb in Hge.
    apply Z.leb_le in Hge. unfold exhausted.
    destruct (MaxAttempts c >? 1) eqn:Hm.
    - right. right. rewrite Z.gtb_ltb in Hm. apply Z.ltb_lt in Hm.
      repeat split; [exact Hm | rewrite length_app; simpl; lia |].
      exists err. rewrite last_snoc. auto.
    - right. left. rewrite Z.gtb_ltb in Hm. apply Z.ltb_ge in Hm.
      rewrite last_snoc. simpl.
      split; [reflexivity|]. split; [reflexivity|]. right. right. lia. }
  rewrite Z.geb_leb in Hge. apply Z.leb_gt in Hge.
  destruct (context.fires ctx (length ws)).
  { injection Hrun as <-. simpl. left. auto. }
  eapply IH; [| | |exact Hrun].
  - rewrite length_app. simpl. lia.
  - intros _. lia.
  - intros E. destruct outs; discriminate.
Qed.
End Do_runs.

Section Do_run_properties.
Context {St : Type}.
Variable c : Config.
Variable ctx : context.Context.
Variable operation : Operation St.
Variable st : St.

Lemma Do_shape r :
  Do c ctx operation st = Some r ->
  Z.of_nat (length (outcomes r)) <= Z.max 0 (MaxAttempts c) /\
  length (waits r) =
    (if cancelled r then length (outcomes r) else pred (length (outcomes r))) /\
  Forall (fun e => IsRetryable e = true) (removelast (outcomes r)).
Proof.
  intros Hr. unfold Do in Hr.
  apply loop_shape in Hr; auto; try reflexivity. intros H. congruence.
Qed.

Lemma Do_result r :
  Do c ctx operation st = Some r ->
  (cancelled r = true /\ result r = context.Err ctx) \/
  (cancelled r = false /\ result r = default nil (last (outcomes r)) /\
   (outcomes r = [] \/ IsRetryable (result r) = false \/
    MaxAttempts c = 1)) \/
  (cancelled r = false /\ 1 < MaxAttempts c /\
   Z.of_nat (length (outcomes r)) = MaxAttempts c /\
   exists lastErr',
     last (outcomes r) = Some lastErr' /\ IsRetryable lastErr' = true /\
     result r =
       wrapError ("operation failed after " ++ pretty (MaxAttempts c) ++
                  " attempts: ") lastErr').
Proof.
  intros Hr. unfold Do in Hr.
  eapply loop_result; [| | |exact Hr]; auto. intros H. congruence.
Qed.

Lemma Do_cancelled_calls r :
  Do c ctx operation st = Some r -> cancelled r = true ->
  Z.of_nat (length (outcomes r)) < MaxAttempts c.
Proof.
  intros Hr Hc. unfold Do in Hr.
  eapply loop_cancelled in Hr; [|reflexivity|exact Hc]. apply Hr.
Qed.

(** X1. Whatever the operation and the context do, [Do] returns after at
    most [MaxAttempts] calls of the operation (none when [MaxAttempts]
    is not positive). *)
Theorem Do_calls_bounded :
  exists r,
    Do c ctx operation st = Some r /\
    Z.of_nat (length (outcomes r)) <= Z.max 0 (MaxAttempts c).
Proof.
  destruct (Do_total c ctx operation st) as [r Hr]. exists r.
  split; [exact Hr|]. apply Do_shape, Hr.
Qed.

(** X2. A run waits once between two successive calls and never after
    the call it ends with: it has one wait fewer than calls, unless it
    was cut short during a wait, which is then its last event. *)
Theorem Do_waits_between_calls :
  exists r,
    Do c ctx operation st = Some r /\
    (cancelled r = false -> length (waits r) = pred (length (outcomes r))) /\
    (cancelled r = true -> length (waits r) = length (outcomes r)) /\
    Z.of_nat (length (waits r)) <= Z.max 0 (MaxAttempts c - 1).
Proof.
  destruct (Do_total c ctx operation st) as [r Hr]. exists r.
  split; [exact Hr|].
  destruct (Do_shape r Hr) as (Hb & Hw & _).
  destruct (cancelled r) eqn:Hc.
  - pose proof (Do_cancelled_calls r Hr Hc).
    repeat split; try discriminate; auto; lia.
  - repeat split; try discriminate; auto; lia.
Qed.

(** X3. The operation is called again only after it failed with a
    retryable error: every result but the last one of a run is a non-nil
    error that [IsRetryable] accepts. *)
Theorem Do_retries_only_retryable :
  exists r,
    Do c ctx operation st = Some r /\
    forall i e,
      (S i < length (outcomes r))%nat -> outcomes r !! i = Some e ->
      e <> nil /\ IsRetryable e = true.
Proof.
  destruct (Do_total c ctx operation st) as [r Hr]. exists r.
  split; [exact Hr|]. intros i e Hi He.
  destruct (Do_shape r Hr) as (_ & _ & Hall).
  assert (Hin : removelast (outcomes r) !! i = Some e).
  { destruct (outcomes r) as [|x l] eqn:Ho using rev_ind; [discriminate|].
    rewrite removelast_last. rewrite length_app in Hi. simpl in Hi.
    rewrite lookup_app_l in He by lia. exact He. }
  rewrite Forall_forall in Hall.
  assert (Hre : IsRetryable e = true)
    by (apply Hall; eapply list_elem_of_lookup_2; eauto).
  split; [|exact Hre]. intros ->. rewrite IsRetryable_nil in Hre. discriminate.
Qed.

Lemma Do_waits r :
  Do c ctx operation st = Some r ->
  waits r = schedule c (InitialDelay c) (length (waits r)).
Proof.
  intros Hr. unfold Do in Hr.
  eapply loop_waits; [| |exact Hr]; reflexivity.
Qed.

Lemma schedule_lookup d0 n i :
  (i < n)%nat ->
  schedule c d0 n !! i = Some (Nat.iter i (nextDelay c) d0).
Proof.
  revert d0 i. induction n as [|n IH]; intros d0 i Hi; [lia|].
  destruct i as [|i]; [reflexivity|].
  simpl. rewrite IH by lia. rewrite <- Nat.iter_succ_r. reflexivity.
Qed.

(** X4. The waits of every run follow the backoff recurrence: the first
    lasts [InitialDelay]; each later one is the one before it multiplied
    by [BackoffMultiplier] in [float64], truncated to whole nanoseconds
    and clamped to [MaxDelay], so it never exceeds [MaxDelay]. *)
Theorem Do_waits_backoff :
  exists r,
    Do c ctx operation st = Some r /\
    (forall w, waits r !! 0%nat = Some w -> w = InitialDelay c) /\
    (forall i w w',
       waits r !! i = Some w -> waits r !! S i = Some w' ->
       w' = nextDelay c w /\ w' <= MaxDelay c).
Proof.
  destruct (Do_total c ctx operation st) as [r Hr]. exists r.
  split; [exact Hr|]. pose proof (Do_waits r Hr) as Hw.
  split.
  - intros w H0.
    assert (Hlt : (0 < length (waits r))%nat)
      by (eapply lookup_lt_Some; eauto).
    rewrite Hw in H0. rewrite schedule_lookup in H0 by lia.
    simpl in H0. congruence.
  - intros i w w' Hi HSi.
    assert (Hlt : (S i < length (waits r))%nat)
      by (eapply lookup_lt_Some; eauto).
    rewrite Hw in Hi, HSi.
    rewrite schedule_lookup in Hi by lia.
    rewrite schedule_lookup in HSi by lia.
    simpl in HSi. injection Hi as <-. injection HSi as <-.
    split; [reflexivity | apply nextDelay_le_MaxDelay].
Qed.

(** X5. [Do] reports success exactly when the last call of the
    operation succeeded (or when no call was made at all): it never
    turns a failure of the last call into nil, and never a success into
    an error. *)
Theorem Do_success_iff :
  exists r,
    Do c ctx operation st = Some r /\
    (result r = nil <->
     outcomes r = [] \/ last (outcomes r) = Some nil).
Proof.
  destruct (Do_total c ctx operation st) as [r Hr]. exists r.
  split; [exact Hr|].
  assert (Hnil : forall j, outcomes r !! j = Some nil ->
                           result r = nil /\ length (outcomes r) = S j).
  { intros j Hj. unfold Do in Hr.
    destruct (loop_nil_is_last c ctx operation _ _ _ _ _ _ _ r j
                (List.Forall_nil _) Hr Hj) as (H1 & H2 & _). auto. }
  destruct (Do_result r Hr)
    as [[Hc Hres] | [(Hc & Hres & Hcase) | (Hc & Hm & Hlen & e & Hl & He & Hres)]].
  - split.
    + intros E. rewrite E in Hres. unfold context.Err in Hres.
      destruct (context.why ctx); discriminate.
    + intros [E | E].
      * pose proof (Do_cancelled_calls r Hr Hc) as Hlt.
        destruct (Do_shape r Hr) as (_ & Hw & _). rewrite Hc, E in Hw.
        unfold Do in Hr.
        eapply loop_cancelled in Hr; [|reflexivity|exact Hc].
        destruct Hr as (_ & _ & e & Hl & _). rewrite E in Hl. discriminate.
      * rewrite last_lookup in E. apply Hnil in E. apply E.
  - split.
    + intros E. rewrite E in Hres.
      destruct (outcomes r) as [|x l] eqn:Ho using rev_ind; [auto|].
      right. rewrite last_snoc in *. simpl in Hres. congruence.
    + intros [E | E]; rewrite E in Hres; exact Hres.
  - split.
    + intros E. rewrite E in Hres. discriminate.
    + intros [E | E]; [rewrite E in Hl; discriminate|].
      rewrite Hl in E. injection E as ->.
      rewrite IsRetryable_nil in He. discriminate.
Qed.

(** X6. What [Do] can return: the error of the context when a wait was
    cut short; the result of the last call itself when that call
    succeeded, failed with an error that is not retryable, or was the
    only attempt allowed; and otherwise, after [MaxAttempts > 1] calls
    that all failed with retryable errors, the [fmt.Errorf] wrapper
    around the error of the last call. *)
Theorem Do_result_forms :
  exists r,
    Do c ctx operation st = Some r /\
    ((cancelled r = true /\ result r = context.Err ctx) \/
     (cancelled r = false /\ result r = default nil (last (outcomes r)) /\
      (outcomes r = [] \/ IsRetryable (result r) = false \/
       MaxAttempts c = 1)) \/
     (cancelled r = false /\ 1 < MaxAttempts c /\
      Z.of_nat (length (outcomes r)) = MaxAttempts c /\
      exists lastErr',
        last (outcomes r) = Some lastErr' /\ IsRetryable lastErr' = true /\
        result r =
          wrapError ("operation failed after " ++ pretty (MaxAttempts c) ++
                     " attempts: ") lastErr' /\
        Unwrap (result r) = lastErr')).
Proof.
  destruct (Do_total c ctx operation st) as [r Hr]. exists r.
  split; [exact Hr|].
  destruct (Do_result r Hr)
    as [H | [H | (Hc & Hm & Hlen & e & Hl & He & Hres)]]; auto.
  right. right. repeat split; auto. exists e. rewrite Hres. auto.
Qed.

(** X7. With a single attempt allowed there is no retry: the operation
    is called once and [Do] returns what it returned, nil or any error,
    retryable or not, without a wait and whatever the context. *)
Theorem Do_single_attempt :
  MaxAttempts c = 1 ->
  Do c ctx operation st =
  Some {| result := fst (operation st);
          outcomes := [fst (operation st)];
          waits := [];
          cancelled := false;
          final := snd (operation st) |}.
Proof.
  intros Hm. unfold Do. rewrite Hm. simpl. rewrite Hm.
  destruct (operation st) as [err st']. simpl.
  destruct (is_nil err) eqn:He; [destruct err; try discriminate; reflexivity|].
  destruct (IsRetryable err); simpl; [|reflexivity].
  unfold exhausted. rewrite Hm. reflexivity.
Qed.
End Do_run_properties.

Lemma Do_single_attempt_witness :
  Do (mkConfig 1 (1 * time.Second) (30 * time.Second) float64.two)
     ctxCancelled (counting (fun _ => connReset)) O =
  Some {| result := connReset; outcomes := [connReset]; waits := [];
          cancelled := false; final := 1%nat |}.
Proof.
  apply (Do_single_attempt
           (mkConfig 1 (1 * time.Second) (30 * time.Second) float64.two)).
  reflexivity.
Defined.

(** ** The driver under a loaded configuration *)

Lemma totalWait_bound bound (ws : list time.Duration) :
  Forall (fun w => w <= bound) ws ->
  totalWait ws <= Z.of_nat (length ws) * bound.
Proof.
  induction 1 as [|w ws Hw Hws IH]; simpl; [lia|].
  unfold totalWait in *. simpl. lia.
Qed.

Lemma schedule_bounded c delay bound k :
  delay <= bound -> MaxDelay c <= bound ->
  Forall (fun w => w <= bound) (schedule c delay k).
Proof.
  intros Hd Hm. revert delay Hd.
  induction k as [|k IH]; intros delay Hd; simpl; constructor; auto.
  apply IH. pose proof (nextDelay_le_MaxDelay c delay). lia.
Qed.

(** X8. With the configuration [LoadConfig] yields, whatever the
    environment holds, a call of [Do] makes at most 10 calls of the
    operation and at most 9 waits, none longer than 300 seconds: it
    spends at most 2700 seconds waiting. *)
Theorem LoadConfig_Do_bounded :
  forall (St : Type) (ParseFloat : string -> option float64.t)
         (env : gmap string string) (ctx : context.Context)
         (operation : Operation St) (st : St),
  exists r,
    Do (LoadConfig ParseFloat env) ctx operation st = Some r /\
    (length (outcomes r) <= 10)%nat /\
    (length (waits r) <= 9)%nat /\
    Forall (fun w => w <= 300 * time.Second) (waits r) /\
    totalWait (waits r) <= 2700 * time.Second.
Proof.
  intros St ParseFloat env ctx operation st.
  set (c := LoadConfig ParseFloat env).
  destruct (Do_total c ctx operation st) as [r Hr]. exists r.
  split; [exact Hr|].
  assert (Hb : 1 <= MaxAttempts c <= 10 /\
               InitialDelay c <= 300 * time.Second /\
               MaxDelay c <= 300 * time.Second).
  { subst c. rewrite LoadConfig_eq. simpl.
    destruct (accepted env "AZURE_LOGIN_RETRY_MAX_ATTEMPTS" 10) eqn:Ha;
    destruct (accepted env "AZURE_LOGIN_RETRY_INITIAL_DELAY" 60) eqn:Hi;
    destruct (accepted env "AZURE_LOGIN_RETRY_MAX_DELAY" 300) eqn:Hm; simpl;
    repeat match goal with
           | H : accepted _ _ _ = Some _ |- _ => apply accepted_range in H
           end;
    rewrite ?seconds_small by lia; unfold time.Second; lia. }
  destruct Hb as (Ha & Hi & Hm).
  destruct (Do_shape c ctx operation st r Hr) as (Hcalls & Hw & _).
  assert (Hwaits : (length (waits r) <= 9)%nat).
  { destruct (cancelled r) eqn:Hc.
    - pose proof (Do_cancelled_calls c ctx operation st r Hr Hc). lia.
    - lia. }
  assert (Hall : Forall (fun w => w <= 300 * time.Second) (waits r)).
  { rewrite (Do_waits c ctx operation st r Hr).
    apply schedule_bounded; assumption. }
  repeat split; auto; try lia.
  pose proof (totalWait_bound _ _ Hall). unfold time.Second in *. lia.
Qed.

(** X9. Under the default settings a run makes at most three calls and
    its waits are the first ones of 1 second, then 2 seconds, whatever
    the operation and the context do: it spends at most 3 seconds
    waiting (the [1s, 2s] of the comments on the request timeouts). *)
Theorem DefaultConfig_Do_waits :
  forall (St : Type) (ctx : context.Context) (operation : Operation St)
         (st : St),
  exists r,
    Do DefaultConfig ctx operation st = Some r /\
    (length (outcomes r) <= 3)%nat /\
    (waits r = [] \/ waits r = [1 * time.Second] \/
     waits r = [1 * time.Second; 2 * time.Second]) /\
    totalWait (waits r) <= 3 * time.Second.
Proof.
  intros St ctx operation st.
  destruct (Do_total DefaultConfig ctx operation st) as [r Hr]. exists r.
  split; [exact Hr|].
  destruct (Do_shape DefaultConfig ctx operation st r Hr) as (Hcalls & Hw & _).
  change (MaxAttempts DefaultConfig) with 3 in Hcalls.
  assert (Hwaits : (length (waits r) <= 2)%nat).
  { destruct (cancelled r) eqn:Hc.
    - pose proof (Do_cancelled_calls DefaultConfig ctx operation st r Hr Hc)
        as Hlt.
      change (MaxAttempts DefaultConfig) with 3 in Hlt. lia.
    - lia. }
  split; [lia|].
  pose proof (Do_waits DefaultConfig ctx operation st r Hr) as Hs.
  destruct (length (waits r)) as [|[|[|n]]] eqn:Hlen; [| | |lia];
    rewrite Hs; vm_compute; intuition congruence.
Qed.

(** ** Wrappers and the classifier *)

Lemma IsRetryable_wrap (prefix : string) (err : error) :
  IsRetryable (wrapError prefix err) = IsRetryable err.
Proof.
  rewrite (IsRetryable_eq (wrapError prefix err)), (IsRetryable_eq err).
  simpl. destruct (As is_URLError err) eqn:Hu.
  - destruct err; try reflexivity. discriminate.
  - destruct err; reflexivity.
Qed.

(** X10. [IsRetryable] looks through the wrappers that [fmt.Errorf] makes
    with [%w]: a wrapped error is classified as the error it wraps.  In
    particular the error [Do] returns after the last attempt is
    retryable exactly when the error of the last call was. *)
Theorem IsRetryable_wrapError :
  (forall prefix err,
     IsRetryable (wrapError prefix err) = IsRetryable err) /\
  (forall c err, IsRetryable (exhausted c err) = IsRetryable err).
Proof.
  split; [exact IsRetryable_wrap|].
  intros c err. unfold exhausted.
  destruct (MaxAttempts c >? 1); auto using IsRetryable_wrap.
Qed.

(** ** The environment of the configuration *)

(** X11. [LoadConfig] depends on its four variables only: two
    environments in which these have the same values give the same
    configuration, and when none of them is set (or all are empty) the
    configuration is the default one. *)
Theorem LoadConfig_reads_four_variables :
  forall (ParseFloat : string -> option float64.t)
         (env env' : gmap string string),
    (Forall (fun key => os.Getenv env key = os.Getenv env' key)
            retryVariables ->
     LoadConfig ParseFloat env = LoadConfig ParseFloat env') /\
    (Forall (fun key => os.Getenv env key = "") retryVariables ->
     LoadConfig ParseFloat env = DefaultConfig).
Proof.
  intros ParseFloat env env'. unfold retryVariables. split; intros H;
    repeat match goal with
           | H : Forall _ (_ :: _) |- _ =>
               apply Forall_cons in H; destruct H as [? H]
           end;
    rewrite !LoadConfig_eq; unfold accepted, acceptedFloat.
  - repeat match goal with H : os.Getenv env _ = _ |- _ => rewrite H; clear H end.
    reflexivity.
  - repeat match goal with H : os.Getenv env _ = _ |- _ => rewrite H; clear H end.
    reflexivity.
Qed.

Lemma LoadConfig_reads_four_variables_witness :
  LoadConfig (fun _ => None)
    (<["HOME" := "/home/runner"]> envLongFirstDelay) =
  LoadConfig (fun _ => None) envLongFirstDelay /\
  LoadConfig (fun _ => None) (<["AZURE_LOGIN_RETRY_MAX_DELAY" := ""]> ∅) =
  DefaultConfig.
Proof.
  split.
  - apply (proj1 (LoadConfig_reads_four_variables (fun _ => None) _ _)).
    unfold retryVariables. repeat constructor.
  - apply (proj2 (LoadConfig_reads_four_variables (fun _ => None) _ ∅)).
    unfold retryVariables. repeat constructor.
Defined.

(** ** More on the kubeconfig merge *)

Section Upsert_more.
Context {A : Type}.
Variable name_of : A -> string.
Variable name : string.
Variable update : A -> A.
Variable fresh : A.
Hypothesis update_name : forall x, name_of (update x) = name_of x.
Hypothesis fresh_name : name_of fresh = name.

(** After an upsert the first entry called [name] is the one written. *)
Lemma upsertBy_find l :
  exists i y,
    list_find (fun x => name_of x = name)
              (upsertBy name_of name update fresh l) = Some (i, y) /\
    (y = fresh \/ exists x, y = update x).
Proof.
  unfold upsertBy.
  destruct (list_find _ l) as [[i x]|] eqn:Hfind.
  - apply list_find_Some in Hfind as (Hi & Hx & Hfirst).
    exists i, (update x). split; [|right; eauto].
    apply list_find_Some. split; [|split].
    + rewrite list_lookup_alter_eq, Hi. reflexivity.
    + rewrite update_name. exact Hx.
    + intros j y Hj Hlt. rewrite list_lookup_alter_ne in Hj by lia. eauto.
  - apply list_find_None in Hfind.
    exists (length l), fresh. split; [|left; reflexivity].
    apply list_find_Some. split; [|split].
    + rewrite lookup_app_r by lia. rewrite Nat.sub_diag. reflexivity.
    + exact fresh_name.
    + intros j y Hj Hlt. rewrite lookup_app_l in Hj by lia.
      rewrite Forall_forall in Hfind. apply Hfind.
      eapply list_elem_of_lookup_2; eauto.
Qed.

Lemma map_name_alter i l :
  map name_of (alter update i l) = map name_of l.
Proof.
  revert i. induction l as [|x l IH]; intros [|i]; simpl; try reflexivity.
  - rewrite update_name. reflexivity.
  - f_equal. apply IH.
Qed.

(** An upsert creates no second entry of a name. *)
Lemma upsertBy_NoDup l :
  NoDup (map name_of l) ->
  NoDup (map name_of (upsertBy name_of name update fresh l)).
Proof.
  intros Hnd. unfold upsertBy.
  destruct (list_find _ l) as [[i x]|] eqn:Hfind.
  - rewrite map_name_alter. exact Hnd.
  - apply list_find_None in Hfind.
    rewrite map_app. simpl. apply NoDup_app. split; [exact Hnd|]. split.
    + intros n Hn Hin. apply list_elem_of_singleton in Hin. subst n.
      apply list_elem_of_fmap in Hn as (y & Hy & Hin).
      rewrite Forall_forall in Hfind. apply (Hfind y Hin). congruence.
    + apply NoDup_singleton.
Qed.

Hypothesis update_idem : forall x, update (update x) = update x.
Hypothesis update_fresh : update fresh = fresh.

(** Upserting twice is upserting once. *)
Lemma upsertBy_idem l :
  upsertBy name_of name update fresh (upsertBy name_of name update fresh l) =
  upsertBy name_of name update fresh l.
Proof.
  destruct (upsertBy_find l) as (i & y & Hfind & Hy).
  unfold upsertBy at 1. rewrite Hfind.
  apply list_find_Some in Hfind as (Hi & _ & _).
  apply list_eq. intros j. rewrite list_lookup_alter.
  destruct (decide (i = j)) as [<-|]; [|reflexivity].
  rewrite Hi. simpl. f_equal.
  destruct Hy as [-> | [x ->]]; auto.
Qed.
End Upsert_more.

Section Merge_more.
Import aks.
Variable any : Type.
Variable creds : ClusterCredentials.
Variable k : Kubeconfig any.

Lemma Kubeconfig_ext (a b : Kubeconfig any) :
  APIVersion any a = APIVersion any b -> Kind any a = Kind any b ->
  CurrentContext any a = CurrentContext any b ->
  Clusters any a = Clusters any b -> Contexts any a = Contexts any b ->
  Users any a = Users any b -> Preferences any a = Preferences any b ->
  a = b.
Proof. destruct a, b; simpl; intros; subst; reflexivity. Qed.

(** X12. Merging the same credentials a second time changes nothing:
    no entry is added twice and the entries written the first time are
    written again with the same contents. *)
Theorem MergeClusterCredentials_idempotent :
  MergeClusterCredentials any creds (MergeClusterCredentials any creds k) =
  MergeClusterCredentials any creds k.
Proof.
  set (k1 := MergeClusterCredentials any creds k).
  destruct (Merge_frame any creds k1) as (Hcur & Hapi & Hkind & Hpref).
  destruct (Merge_frame any creds k) as (Hcur0 & _).
  apply Kubeconfig_ext.
  - exact Hapi.
  - exact Hkind.
  - transitivity (ClusterName creds); [exact Hcur | symmetry; exact Hcur0].
  - rewrite Merge_Clusters. subst k1. rewrite Merge_Clusters.
    apply upsertBy_idem; reflexivity.
  - rewrite Merge_Contexts. subst k1. rewrite Merge_Contexts.
    apply upsertBy_idem; reflexivity.
  - rewrite Merge_Users. subst k1. rewrite Merge_Users.
    apply upsertBy_idem; reflexivity.
  - exact Hpref.
Qed.

(** X13. The merge keeps names unique: a list of clusters, contexts or
    users in which no name occurs twice has no name twice afterwards. *)
Theorem MergeClusterCredentials_unique_names :
  let k' := MergeClusterCredentials any creds k in
  (NoDup (map NamedCluster.Name (Clusters any k)) ->
   NoDup (map NamedCluster.Name (Clusters any k'))) /\
  (NoDup (map NamedContext.Name (Contexts any k)) ->
   NoDup (map NamedContext.Name (Contexts any k'))) /\
  (NoDup (map NamedUser.Name (Users any k)) ->
   NoDup (map NamedUser.Name (Users any k'))).
Proof.
  intros k'. subst k'.
  rewrite Merge_Clusters, Merge_Contexts, Merge_Users.
  repeat split; intros H; apply upsertBy_NoDup; auto.
Qed.

(** X14. After the merge the current context resolves: the first context
    entry called [CurrentContext] names the cluster and the user of the
    credentials, the first cluster entry of that name carries the server
    URL and the base64 text of the CA certificate of the credentials,
    and the first user entry of that name carries the kubelogin exec
    configuration. *)
Theorem MergeClusterCredentials_resolves :
  let k' := MergeClusterCredentials any creds k in
  exists i ctxEntry j clusterEntry l userEntry,
    list_find (fun x => NamedContext.Name x = CurrentContext any k')
              (Contexts any k') = Some (i, ctxEntry) /\
    Context.Cluster (NamedContext.Context ctxEntry) = ClusterName creds /\
    Context.User (NamedContext.Context ctxEntry) = userNameOf creds /\
    list_find (fun x => NamedCluster.Name x =
                        Context.Cluster (NamedContext.Context ctxEntry))
              (Clusters any k') = Some (j, clusterEntry) /\
    NamedCluster.Cluster clusterEntry =
      Cluster.mk (ServerURL creds)
                 (base64.EncodeToString (CACertificate creds)) /\
    list_find (fun x => NamedUser.Name x =
                        Context.User (NamedContext.Context ctxEntry))
              (Users any k') = Some (l, userEntry) /\
    NamedUser.User userEntry = azurecliUser.
Proof.
  intros k'. subst k'.
  destruct (Merge_frame any creds k) as (Hcur & _). rewrite Hcur.
  rewrite Merge_Clusters, Merge_Contexts, Merge_Users.
  destruct (upsertBy_find NamedContext.Name (ClusterName creds)
              (fun c => NamedContext.mk (NamedContext.Name c)
                 (newContext creds (Context.Namespace (NamedContext.Context c))))
              (NamedContext.mk (ClusterName creds) (newContext creds ""))
              (fun _ => eq_refl) eq_refl (Contexts any k))
    as (i & ce & Hce & Hcase).
  destruct (upsertBy_find NamedCluster.Name (ClusterName creds)
              (fun c => NamedCluster.mk (NamedCluster.Name c) (newCluster creds))
              (NamedCluster.mk (ClusterName creds) (newCluster creds))
              (fun _ => eq_refl) eq_refl (Clusters any k))
    as (j & cl & Hcl & Hclcase).
  destruct (upsertBy_find NamedUser.Name (userNameOf creds)
              (fun u => NamedUser.mk (NamedUser.Name u) azurecliUser)
              (NamedUser.mk (userNameOf creds) azurecliUser)
              (fun _ => eq_refl) eq_refl (Users any k))
    as (l & us & Hus & Huscase).
  assert (Hc1 : Context.Cluster (NamedContext.Context ce) = ClusterName creds)
    by (destruct Hcase as [-> | [x ->]]; reflexivity).
  assert (Hc2 : Context.User (NamedContext.Context ce) = userNameOf creds)
    by (destruct Hcase as [-> | [x ->]]; reflexivity).
  exists i, ce, j, cl, l, us. rewrite Hc1, Hc2.
  repeat split; auto.
  - destruct Hclcase as [-> | [x ->]]; reflexivity.
  - destruct Huscase as [-> | [x ->]]; reflexivity.
Qed.
End Merge_more.

Lemma MergeClusterCredentials_unique_names_witness :
  NoDup (map aks.NamedCluster.Name
           (aks.Clusters unit
              (aks.MergeClusterCredentials unit
                 {| aks.ClusterName := "c2"; aks.ServerURL := "https://c2";
                    aks.CACertificate := []; aks.ResourceGroup := "rg";
                    aks.SubscriptionID := ""; aks.TenantID := "";
                    aks.ClientID := "" |}
                 (aks.mkKubeconfig unit "v1" "Config" "c1"
                    [aks.NamedCluster.mk "c1" (aks.Cluster.mk "https://c1" "")]
                    [] [] ∅)))).
Proof.
  apply (proj1 (MergeClusterCredentials_unique_names unit _ _)).
  simpl. apply NoDup_singleton.
Defined.

(** ** base64: decoding what [EncodeToString] wrote *)

Lemma testbit_above (n v i : Z) :
  0 <= v < 2 ^ n -> 0 <= n <= i -> Z.testbit v i = false.
Proof.
  intros Hv Hi. destruct (Z.eq_dec v 0) as [->|]; [apply Z.testbit_0_l|].
  apply Z.bits_above_log2; [lia|]. apply Z.log2_lt_pow2; [lia|].
  assert (2 ^ n <= 2 ^ i) by (apply Z.pow_le_mono_r; lia). lia.
Qed.

Lemma byte_range (a : Byte.byte) : 0 <= Z.of_N (Byte.to_N a) < 2 ^ 8.
Proof. pose proof (Byte.to_N_bounded a). lia. Qed.

Lemma byteOf_to_N (v : N) (a : Byte.byte) :
  N.land v 255 = Byte.to_N a -> base64dec.byteOf v = a.
Proof.
  intros H. unfold base64dec.byteOf. rewrite H, Byte.of_to_N. reflexivity.
Qed.

Ltac bits_of_N :=
  apply N2Z.inj;
  repeat first [rewrite N2Z.inj_lor | rewrite N2Z.inj_land
               | rewrite N2Z.inj_shiftl | rewrite N2Z.inj_shiftr];
  cbn [Z.of_N];
  change 63 with (Z.ones 6); change 255 with (Z.ones 8).

Ltac byte_bits :=
  repeat match goal with
  | |- context [Z.testbit (Z.of_N (Byte.to_N ?a)) ?i] =>
      first [ rewrite (testbit_above 8 (Z.of_N (Byte.to_N a)) i) by lia
            | rewrite (Z.testbit_neg_r (Z.of_N (Byte.to_N a)) i) by lia ]
  end;
  rewrite ?orb_false_r, ?orb_false_l, ?andb_true_r, ?andb_false_r.

Lemma testbit_of_N_high (n v : N) (i : Z) :
  (forall j, (n <= j)%N -> N.testbit v j = false) ->
  Z.of_N n <= i -> Z.testbit (Z.of_N v) i = false.
Proof.
  intros H Hi. rewrite Z.testbit_of_N' by lia. apply H. lia.
Qed.

Lemma byte_high (a : Byte.byte) (j : N) :
  (8 <= j)%N -> N.testbit (Byte.to_N a) j = false.
Proof.
  intros Hj. pose proof (byte_range a) as Ha.
  rewrite <- (N2Z.id j), <- Z.testbit_of_N' by lia.
  apply (testbit_above 8); lia.
Qed.

(** The 24 bits of a group of three bytes. *)
Lemma word_high (a b c : Byte.byte) (j : N) :
  (24 <= j)%N ->
  N.testbit (N.lor (N.lor (N.shiftl (Byte.to_N a) 16)
                          (N.shiftl (Byte.to_N b) 8)) (Byte.to_N c)) j
  = false.
Proof.
  intros Hj.
  rewrite !N.lor_spec, !N.shiftl_spec_high', !byte_high by lia.
  reflexivity.
Qed.

Lemma word_bytes (a b c : Byte.byte) :
  let v := N.lor (N.lor (N.shiftl (Byte.to_N a) 16)
                        (N.shiftl (Byte.to_N b) 8)) (Byte.to_N c) in
  base64dec.byteOf (N.shiftr v 16) = a /\
  base64dec.byteOf (N.shiftr v 8) = b /\
  base64dec.byteOf v = c.
Proof.
  intros v. subst v.
  pose proof (byte_range a) as Ha. pose proof (byte_range b) as Hb.
  pose proof (byte_range c) as Hc.
  repeat split; apply byteOf_to_N; bits_of_N; Z.bitblast;
    byte_bits; try reflexivity.
Qed.

(** The four sextets of 24 bits put together again, and what is left of
    them when the last one or two are padding. *)
Lemma quantum_sextets (v : N) :
  (forall j, (24 <= j)%N -> N.testbit v j = false) ->
  base64dec.quantum (N.land (N.shiftr v 18) 63) (N.land (N.shiftr v 12) 63)
    (N.land (N.shiftr v 6) 63) (N.land v 63) = v /\
  N.shiftr (base64dec.quantum (N.land (N.shiftr v 18) 63)
              (N.land (N.shiftr v 12) 63) (N.land (N.shiftr v 6) 63) 0) 8
  = N.shiftr v 8 /\
  N.shiftr (base64dec.quantum (N.land (N.shiftr v 18) 63)
              (N.land (N.shiftr v 12) 63) (N.land (N.shiftr v 6) 63) 0) 16
  = N.shiftr v 16 /\
  N.shiftr (base64dec.quantum (N.land (N.shiftr v 18) 63)
              (N.land (N.shiftr v 12) 63) 0 0) 16
  = N.shiftr v 16.
Proof.
  intros Hv. unfold base64dec.quantum.
  pose proof (fun i => testbit_of_N_high 24 v i Hv) as HV.
  pose proof (N2Z.is_nonneg v) as H0.
  repeat split; bits_of_N; revert H0 HV; generalize (Z.of_N v); intros V H0 HV;
    Z.bitblast;
    repeat match goal with
    | |- context [Z.testbit V ?i] => rewrite (HV i) by lia
    end; try reflexivity.
Qed.

Lemma decodeMap_enc (v : N) :
  base64dec.decodeMap (base64.enc v) = Some (N.land v 63).
Proof.
  unfold base64.enc.
  assert (Hlt : (N.land v 63 < 64)%N).
  { change 63%N with (N.ones 6). rewrite N.land_ones.
    apply N.mod_lt. discriminate. }
  revert Hlt. generalize (N.land v 63). intros k Hk.
  assert (Hall : forallb (fun n =>
            match base64dec.decodeMap
                    (default "="%char (String.get n base64.encodeStd)) with
            | Some j => N.eqb j (N.of_nat n)
            | None => false
            end) (seq 0 64) = true) by (vm_compute; reflexivity).
  rewrite forallb_forall in Hall.
  specialize (Hall (N.to_nat k)).
  destruct (base64dec.decodeMap _) as [j|].
  - f_equal. rewrite <- (N2Nat.id k). apply N.eqb_eq.
    apply Hall. apply in_seq. lia.
  - discriminate Hall. apply in_seq. lia.
Qed.

Lemma decode_group (c1 c2 c3 c4 : ascii) (s1 s2 s3 s4 : N) (rest : string)
    (si : Z) (dst : list Byte.byte) :
  base64dec.decodeMap c1 = Some s1 -> base64dec.decodeMap c2 = Some s2 ->
  base64dec.decodeMap c3 = Some s3 -> base64dec.decodeMap c4 = Some s4 ->
  base64dec.decode (String c1 (String c2 (String c3 (String c4 rest))))
    si [] dst
  = base64dec.decode rest (si + 1 + 1 + 1 + 1) []
      (dst ++ [base64dec.byteOf (N.shiftr (base64dec.quantum s1 s2 s3 s4) 16);
               base64dec.byteOf (N.shiftr (base64dec.quantum s1 s2 s3 s4) 8);
               base64dec.byteOf (base64dec.quantum s1 s2 s3 s4)])%list.
Proof.
  intros H1 H2 H3 H4.
  cbn [base64dec.decode]. rewrite H1. cbn [app].
  rewrite H2. cbn [app]. rewrite H3. cbn [app]. rewrite H4. reflexivity.
Qed.

Lemma decode_pad1 (c1 c2 c3 : ascii) (s1 s2 s3 : N) (si : Z)
    (dst : list Byte.byte) :
  base64dec.decodeMap c1 = Some s1 -> base64dec.decodeMap c2 = Some s2 ->
  base64dec.decodeMap c3 = Some s3 ->
  base64dec.decode (String c1 (String c2 (String c3 "="))) si [] dst
  = ((dst ++ [base64dec.byteOf (N.shiftr (base64dec.quantum s1 s2 s3 0) 16);
              base64dec.byteOf (N.shiftr (base64dec.quantum s1 s2 s3 0) 8)])
     %list, nil).
Proof.
  intros H1 H2 H3.
  cbn [base64dec.decode]. rewrite H1. cbn [app].
  rewrite H2. cbn [app]. rewrite H3. reflexivity.
Qed.

Lemma decode_pad2 (c1 c2 : ascii) (s1 s2 : N) (si : Z)
    (dst : list Byte.byte) :
  base64dec.decodeMap c1 = Some s1 -> base64dec.decodeMap c2 = Some s2 ->
  base64dec.decode (String c1 (String c2 "==")) si [] dst
  = ((dst ++ [base64dec.byteOf (N.shiftr (base64dec.quantum s1 s2 0 0) 16)])
     %list, nil).
Proof.
  intros H1 H2.
  cbn [base64dec.decode]. rewrite H1. cbn [app]. rewrite H2. reflexivity.
Qed.

Lemma decode_encode (n : nat) :
  forall (b : list Byte.byte) (si : Z) (dst : list Byte.byte),
    (length b <= n)%nat ->
    base64dec.decode (base64.EncodeToString b) si [] dst
    = ((dst ++ b)%list, nil).
Proof.
  induction n as [|n IH]; intros b si dst Hn.
  - destruct b; [|simpl in Hn; lia]. cbn. rewrite app_nil_r. reflexivity.
  - destruct b as [|x [|y [|z rest]]].
    + cbn. rewrite app_nil_r. reflexivity.
    + cbn [base64.EncodeToString].
      rewrite (decode_pad2 _ _ _ _ si dst (decodeMap_enc _) (decodeMap_enc _)).
      pose proof (word_high x Byte.x00 Byte.x00) as Hh.
      pose proof (word_bytes x Byte.x00 Byte.x00) as (Hx & _ & _).
      cbn [Byte.to_N] in Hh, Hx.
      rewrite N.shiftl_0_l, !N.lor_0_r in Hh, Hx.
      destruct (quantum_sextets _ Hh) as (_ & _ & _ & ->).
      rewrite Hx. reflexivity.
    + cbn [base64.EncodeToString].
      rewrite (decode_pad1 _ _ _ _ _ _ si dst
                 (decodeMap_enc _) (decodeMap_enc _) (decodeMap_enc _)).
      pose proof (word_high x y Byte.x00) as Hh.
      pose proof (word_bytes x y Byte.x00) as (Hx & Hy & _).
      cbn [Byte.to_N] in Hh, Hx, Hy.
      rewrite !N.lor_0_r in Hh, Hx, Hy.
      destruct (quantum_sextets _ Hh) as (_ & -> & -> & _).
      rewrite Hx, Hy. reflexivity.
    + cbn [base64.EncodeToString].
      rewrite (decode_group _ _ _ _ _ _ _ _ _ si dst
                 (decodeMap_enc _) (decodeMap_enc _) (decodeMap_enc _)
                 (decodeMap_enc _)).
      pose proof (word_high x y z) as Hh.
      pose proof (word_bytes x y z) as (Hx & Hy & Hz).
      destruct (quantum_sextets _ Hh) as (-> & _).
      rewrite Hx, Hy, Hz, IH by (simpl in Hn; lia).
      rewrite <- app_assoc. reflexivity.
Qed.

Lemma DecodeString_EncodeToString (b : list Byte.byte) :
  base64dec.DecodeString (base64.EncodeToString b) = (b, nil).
Proof.
  unfold base64dec.DecodeString.
  apply (decode_encode (length b) b 0 []). lia.
Qed.

(** ** Package aks: from Azure's answer to the kubeconfig *)

Lemma is_nil_nil (e : error) : is_nil e = true -> e = nil.
Proof. destruct e; simpl; congruence. Qed.

Lemma is_nil_not_nil (e : error) : is_nil e = false -> e <> nil.
Proof. destruct e; simpl; congruence. Qed.

(** X15. [extractClusterInfo] reads the entry [clusters] of the map and
    the first element of that list only: the other keys of the
    kubeconfig and the clusters after the first have no part in the
    result. *)
Theorem extractClusterInfo_first_cluster_only
    (m m' : gmap string yaml.any) (first : yaml.any)
    (rest rest' : list yaml.any) :
  aksclient.extractClusterInfo
    (<["clusters" := yaml.anySlice (first :: rest)]> m)
  = aksclient.extractClusterInfo
      (<["clusters" := yaml.anySlice (first :: rest')]> m').
Proof.
  unfold aksclient.extractClusterInfo.
  rewrite !lookup_insert_eq. reflexivity.
Qed.

(** X16. [extractClusterInfo] returns an error or a result, never parts
    of both: with a non-nil error the server URL is empty and the
    certificate is the nil slice; with a nil error the certificate is
    the decoding of a text stored under [certificate-authority-data]
    beside the server URL in the [cluster] map of the first cluster. *)
Theorem extractClusterInfo_result_or_error (m : gmap string yaml.any) :
  let r := aksclient.extractClusterInfo m in
  (r.2 <> nil /\ r.1.1 = "" /\ r.1.2 = []) \/
  (r.2 = nil /\
   exists first rest firstCluster clusterData caCertBase64,
     m !! "clusters" = Some (yaml.anySlice (first :: rest)) /\
     first = yaml.anyMap firstCluster /\
     firstCluster !! "cluster" = Some (yaml.anyMap clusterData) /\
     clusterData !! "server" = Some (yaml.anyString r.1.1) /\
     clusterData !! "certificate-authority-data"
       = Some (yaml.anyString caCertBase64) /\
     base64dec.DecodeString caCertBase64 = (r.1.2, nil)).
Proof.
  unfold aksclient.extractClusterInfo.
  destruct (m !! "clusters") as [[| | | | |[|first rest]| |]|] eqn:Hc;
    simpl; try (left; repeat split; congruence).
  destruct first as [| | | | | |firstCluster|];
    simpl; try (left; repeat split; congruence).
  destruct (firstCluster !! "cluster") as [[| | | | | |clusterData|]|] eqn:Hd;
    simpl; try (left; repeat split; congruence).
  destruct (clusterData !! "server") as [[| | | |s| | |]|] eqn:Hs;
    simpl; try (left; repeat split; congruence).
  destruct (clusterData !! "certificate-authority-data")
    as [[| | | |t| | |]|] eqn:Ht;
    simpl; try (left; repeat split; congruence).
  destruct (base64dec.DecodeString t) as [b err] eqn:Hdec.
  destruct (is_nil err) eqn:He; simpl.
  - right. split; [reflexivity|].
    apply is_nil_nil in He. subst err.
    exists (yaml.anyMap firstCluster), rest, firstCluster, clusterData, t.
    repeat split; assumption.
  - left. repeat split; congruence.
Qed.

Lemma Merge_cluster_entry (any : Type) (creds : aks.ClusterCredentials)
    (k : aks.Kubeconfig any) :
  exists j entry,
    list_find (fun x => aks.NamedCluster.Name x = aks.ClusterName creds)
      (aks.Clusters any (aks.MergeClusterCredentials any creds k))
    = Some (j, entry) /\
    aks.NamedCluster.Cluster entry = newCluster creds.
Proof.
  rewrite Merge_Clusters.
  destruct (upsertBy_find aks.NamedCluster.Name (aks.ClusterName creds)
              (fun c => aks.NamedCluster.mk (aks.NamedCluster.Name c)
                          (newCluster creds))
              (aks.NamedCluster.mk (aks.ClusterName creds) (newCluster creds))
              (fun _ => eq_refl) eq_refl (aks.Clusters any k))
    as (j & cl & Hcl & Hcase).
  exists j, cl. split; [exact Hcl|].
  destruct Hcase as [-> | [x ->]]; reflexivity.
Qed.

Section GetClusterCredentials_properties.
Context {World : Type}.
Variable Unmarshal : list Byte.byte -> gmap string yaml.any * error.
Variable getClusterInfo : aksclient.Client -> string -> World -> error * World.
Variable getClusterUserCredentials :
  aksclient.Client -> string -> World ->
  (list aksclient.kubeconfigValue.t * error) * World.
Variable c : aksclient.Client.
Variables resourceGroup clusterName : string.
Variable w : World.

Lemma GetClusterCredentials_inv creds err w' :
  aksclient.GetClusterCredentials Unmarshal getClusterInfo
    getClusterUserCredentials c resourceGroup clusterName w
  = (Some creds, err, w') ->
  err = nil /\
  exists url1 url2 w1 first rest kubeconfigData kubeconfigMap,
    getClusterInfo c url1 w = (nil, w1) /\
    getClusterUserCredentials c url2 w1 = (first :: rest, nil, w') /\
    base64dec.DecodeString (aksclient.kubeconfigValue.Value first)
      = (kubeconfigData, nil) /\
    Unmarshal kubeconfigData = (kubeconfigMap, nil) /\
    aksclient.extractClusterInfo kubeconfigMap
      = (aks.ServerURL creds, aks.CACertificate creds, nil) /\
    creds = {| aks.ClusterName := clusterName;
               aks.ServerURL := aks.ServerURL creds;
               aks.CACertificate := aks.CACertificate creds;
               aks.ResourceGroup := resourceGroup;
               aks.SubscriptionID := aksclient.subscriptionID c;
               aks.TenantID := "";
               aks.ClientID := "" |}.
Proof.
  unfold aksclient.GetClusterCredentials.
  destruct (getClusterInfo c _ w) as [e1 w1] eqn:H1.
  destruct (is_nil e1) eqn:He1; simpl; [|discriminate].
  apply is_nil_nil in He1. subst e1.
  destruct (getClusterUserCredentials c _ w1) as [[ks e2] w2] eqn:H2.
  destruct (is_nil e2) eqn:He2; simpl; [|discriminate].
  apply is_nil_nil in He2. subst e2.
  destruct ks as [|first rest]; [discriminate|].
  destruct (base64dec.DecodeString _) as [data e3] eqn:H3.
  destruct (is_nil e3) eqn:He3; simpl; [|discriminate].
  apply is_nil_nil in He3. subst e3.
  destruct (Unmarshal data) as [m e4] eqn:H4.
  destruct (is_nil e4) eqn:He4; simpl; [|discriminate].
  apply is_nil_nil in He4. subst e4.
  destruct (aksclient.extractClusterInfo m) as [[s b] e5] eqn:H5.
  destruct (is_nil e5) eqn:He5; simpl; [|discriminate].
  apply is_nil_nil in He5. subst e5.
  intros [= <- <- <-]. split; [reflexivity|].
  eexists _, _, w1, first, rest, data, m. simpl. repeat split; eauto.
Qed.

(** X17. [GetClusterCredentials] returns credentials or an error, never
    both and never neither: the pointer is nil exactly when the error is
    not. *)
Theorem GetClusterCredentials_result_xor_error :
  let r := aksclient.GetClusterCredentials Unmarshal getClusterInfo
             getClusterUserCredentials c resourceGroup clusterName w in
  r.1.1 = None <-> r.1.2 <> nil.
Proof.
  unfold aksclient.GetClusterCredentials.
  destruct (getClusterInfo c _ w) as [e1 w1].
  destruct (is_nil e1) eqn:He1; simpl;
    [|apply is_nil_not_nil in He1; tauto].
  destruct (getClusterUserCredentials c _ w1) as [[ks e2] w2].
  destruct (is_nil e2) eqn:He2; simpl;
    [|apply is_nil_not_nil in He2; tauto].
  destruct ks as [|first rest]; [simpl; split; congruence|].
  destruct (base64dec.DecodeString _) as [data e3].
  destruct (is_nil e3) eqn:He3; simpl; [|split; congruence].
  destruct (Unmarshal data) as [m e4].
  destruct (is_nil e4) eqn:He4; simpl; [|split; congruence].
  destruct (aksclient.extractClusterInfo m) as [[s b] e5].
  destruct (is_nil e5) eqn:He5; simpl;
    [|apply is_nil_not_nil in He5; tauto].
  split; [discriminate|congruence].
Qed.

(** X18. From Azure's answer to the kubeconfig, as [runGetCredentials]
    chains the two: when
    [GetClusterCredentials] returns credentials, they carry the cluster
    name, the resource group and the client's subscription, an empty
    tenant and client id, and the server URL and certificate
    [extractClusterInfo] read from the first kubeconfig of the answer;
    after [MergeClusterCredentials] the current context is the cluster
    name, and the first cluster entry of that name has that server URL
    and a [certificate-authority-data] that decodes to the very bytes of
    the certificate. *)
Theorem GetClusterCredentials_Merge (any : Type) (k : aks.Kubeconfig any)
    creds err w' :
  aksclient.GetClusterCredentials Unmarshal getClusterInfo
    getClusterUserCredentials c resourceGroup clusterName w
  = (Some creds, err, w') ->
  aks.ClusterName creds = clusterName /\
  aks.ResourceGroup creds = resourceGroup /\
  aks.SubscriptionID creds = aksclient.subscriptionID c /\
  aks.TenantID creds = "" /\ aks.ClientID creds = "" /\
  (exists url w1 first rest kubeconfigData kubeconfigMap,
     getClusterUserCredentials c url w1 = (first :: rest, nil, w') /\
     base64dec.DecodeString (aksclient.kubeconfigValue.Value first)
       = (kubeconfigData, nil) /\
     Unmarshal kubeconfigData = (kubeconfigMap, nil) /\
     aksclient.extractClusterInfo kubeconfigMap
       = (aks.ServerURL creds, aks.CACertificate creds, nil)) /\
  let k' := aks.MergeClusterCredentials any creds k in
  aks.CurrentContext any k' = clusterName /\
  exists j entry,
    list_find (fun x => aks.NamedCluster.Name x = clusterName)
      (aks.Clusters any k') = Some (j, entry) /\
    aks.Cluster.Server (aks.NamedCluster.Cluster entry)
      = aks.ServerURL creds /\
    base64dec.DecodeString
      (aks.Cluster.CertificateAuthorityData (aks.NamedCluster.Cluster entry))
    = (aks.CACertificate creds, nil).
Proof.
  intros Hget.
  apply GetClusterCredentials_inv in Hget
    as (_ & url1 & url2 & w1 & first & rest & data & m
        & _ & H2 & H3 & H4 & H5 & Hc).
  assert (Hname : aks.ClusterName creds = clusterName)
    by (rewrite Hc; reflexivity).
  split; [exact Hname|].
  split; [rewrite Hc; reflexivity|].
  split; [rewrite Hc; reflexivity|].
  split; [rewrite Hc; reflexivity|].
  split; [rewrite Hc; reflexivity|].
  split; [exists url2, w1, first, rest, data, m; auto|].
  intros k'. subst k'.
  destruct (Merge_frame any creds k) as (Hcur & _).
  split; [rewrite Hcur; exact Hname|].
  destruct (Merge_cluster_entry any creds k) as (j & entry & Hfind & Hentry).
  rewrite Hname in Hfind.
  exists j, entry. split; [exact Hfind|].
  rewrite Hentry. unfold newCluster. simpl.
  split; [reflexivity|]. apply DecodeString_EncodeToString.
Qed.
End GetClusterCredentials_properties.

Lemma GetClusterCredentials_Merge_witness :
  aks.CurrentContext unit
    (aks.MergeClusterCredentials unit testCredentials
       (aks.mkKubeconfig unit "v1" "Config" "" [] [] [] ∅))
  = "test-cluster".
Proof.
  refine (proj1 (proj2 (proj2 (proj2 (proj2 (proj2 (proj2
    (GetClusterCredentials_Merge (World := unit)
       (fun _ => (testKubeconfigMap, nil))
       (fun _ _ w => (nil, w))
       (fun _ _ w =>
          ([aksclient.kubeconfigValue.mk "clusterUser" "YXBpVmVyc2lvbjogdjE="],
           nil, w))
       testClient "test-rg" "test-cluster" tt unit _ testCredentials nil tt
       _)))))))).
  vm_compute. reflexivity.
Defined.

(** [TestExtractClusterInfo_Success] *)
Example TestExtractClusterInfo_Success :
  let r := aksclient.extractClusterInfo testKubeconfigMap in
  r.1.1 = "https://test-cluster.hcp.eastus.azmk8s.io:443" /\
  r.2 = nil /\
  base64.EncodeToString r.1.2 =
    "LS0tLS1CRUdJTiBDRVJUSUZJQ0FURS0tLS0tCk1JSURCVENDQWUyZ0F3SUJBZ0lJZVlLQ3RWUU1ZMHM9Ci0tLS0tRU5EIENFUlRJRklDQVRFLS0tLS0K" /\
  (0 < length r.1.2)%nat.
Proof. vm_compute. repeat split; lia. Qed.

(** ** Package commands: the shape of an identifier *)

Lemma inClass_hex (c : ascii) :
  regexp.inClass [("0", "9"); ("a", "f"); ("A", "F")]%char c = isHexDigit c.
Proof.
  unfold regexp.inClass, isHexDigit. simpl. rewrite orb_false_r.
  rewrite orb_assoc. reflexivity.
Qed.

Lemma takeHex_spec (n : nat) : forall s g t,
  takeHex n s = Some (g, t) <-> s = (g ++ t)%string /\ hexGroup n g = true.
Proof.
  unfold hexGroup.
  induction n as [|n IH]; intros s g t; simpl.
  - split.
    + intros [= <- <-]. auto.
    + intros [-> H]. destruct g; [reflexivity|discriminate].
  - destruct s as [|c rest].
    + split; [discriminate|]. intros [H1 H2].
      destruct g; [discriminate|discriminate].
    + split.
      * destruct (isHexDigit c) eqn:Hc; [|discriminate].
        destruct (takeHex n rest) as [[g' t']|] eqn:Ht; [|discriminate].
        intros [= <- <-]. apply IH in Ht as [-> Hg]. simpl.
        rewrite Hc. auto.
      * intros [Hs Hg]. destruct g as [|c' g']; [discriminate|].
        simpl in Hs, Hg. injection Hs as <- ->.
        apply andb_prop in Hg as [Hlen Hall].
        apply andb_prop in Hall as [Hc Hall]. rewrite Hc.
        assert (Ht : takeHex n (g' ++ t)%string = Some (g', t)).
        { apply IH. split; [reflexivity|]. rewrite Hall, andb_true_r.
          exact Hlen. }
        rewrite Ht. reflexivity.
Qed.

Lemma matchAt_Repeat_hex (n : nat) : forall pos s,
  regexp.matchAt (regexp.Repeat commands.hexClass n) pos s =
  match takeHex n s with
  | Some (_, t) => [((n + pos)%nat, t)]
  | None => []
  end.
Proof.
  induction n as [|n IH]; intros pos s; [reflexivity|].
  change (regexp.matchAt (regexp.Repeat commands.hexClass (S n)) pos s)
    with (flat_map
            (fun '(p, t) =>
               regexp.matchAt (regexp.Repeat commands.hexClass n) p t)
            (regexp.matchAt commands.hexClass pos s)).
  destruct s as [|c rest]; [reflexivity|].
  change (regexp.matchAt commands.hexClass pos (String c rest))
    with (if regexp.inClass [("0", "9"); ("a", "f"); ("A", "F")]%char c
          then [(S pos, rest)] else []).
  cbn [takeHex].
  rewrite inClass_hex. destruct (isHexDigit c); [|reflexivity].
  cbn [flat_map]. rewrite app_nil_r, IH.
  destruct (takeHex n rest) as [[g t]|]; [|reflexivity].
  replace (n + S pos)%nat with (S n + pos)%nat by lia. reflexivity.
Qed.

Lemma matchFrom_anchored (r : regexp.Regexp) (s : string) : forall pos,
  regexp.matchFrom (regexp.Concat regexp.BeginText r) (S pos) s = false.
Proof.
  induction s as [|c rest IH]; intros pos; simpl; [reflexivity|apply IH].
Qed.

Lemma append_empty_r (s : string) : (s ++ "")%string = s.
Proof.
  induction s as [|a s IH]; [reflexivity|].
  change (String a (s ++ "") = String a s). rewrite IH. reflexivity.
Qed.

Lemma append_one (c : ascii) (s : string) :
  (String c "" ++ s)%string = String c s.
Proof. reflexivity. Qed.

Lemma matchAt_Concat (r1 r2 : regexp.Regexp) (pos : nat) (s : string) :
  regexp.matchAt (regexp.Concat r1 r2) pos s =
  flat_map (fun '(p, t) => regexp.matchAt r2 p t) (regexp.matchAt r1 pos s).
Proof. reflexivity. Qed.

Lemma matchAt_group_dash (n : nat) (r : regexp.Regexp) (pos : nat)
    (s : string) :
  regexp.matchAt
    (regexp.Concat (regexp.Repeat commands.hexClass n)
       (regexp.Concat (regexp.Literal "-") r)) pos s =
  match takeHex n s with
  | Some (_, String c t) =>
      if Ascii.eqb "-" c then regexp.matchAt r (S (n + pos)) t else []
  | _ => []
  end.
Proof.
  rewrite matchAt_Concat, matchAt_Repeat_hex.
  destruct (takeHex n s) as [[g [|c t]]|]; try reflexivity.
  cbn [flat_map]. rewrite app_nil_r, matchAt_Concat.
  cbn [regexp.matchAt]. destruct (Ascii.eqb "-" c); [|reflexivity].
  cbn [flat_map]. apply app_nil_r.
Qed.

Lemma matchAt_group_end (n pos : nat) (s : string) :
  regexp.matchAt
    (regexp.Concat (regexp.Repeat commands.hexClass n) regexp.EndText) pos s =
  match takeHex n s with
  | Some (_, EmptyString) => [((n + pos)%nat, EmptyString)]
  | _ => []
  end.
Proof.
  rewrite matchAt_Concat, matchAt_Repeat_hex.
  destruct (takeHex n s) as [[g [|c t]]|]; reflexivity.
Qed.

Lemma MatchString_anchored (r : regexp.Regexp) (s : string) :
  regexp.MatchString (regexp.Concat regexp.BeginText r) s =
  match regexp.matchAt r 0 s with _ :: _ => true | [] => false end.
Proof.
  unfold regexp.MatchString.
  assert (H : regexp.matchAt (regexp.Concat regexp.BeginText r) 0 s
              = regexp.matchAt r 0 s).
  { rewrite matchAt_Concat. cbn [regexp.matchAt Nat.eqb flat_map].
    apply app_nil_r. }
  destruct s as [|c rest]; cbn [regexp.matchFrom]; rewrite H;
    destruct (regexp.matchAt r 0 _); try reflexivity.
  apply matchFrom_anchored.
Qed.

(** X19. [isValidUUID] accepts exactly the texts made of five groups of
    8, 4, 4, 4 and 12 hexadecimal digits (either case) joined by single
    hyphens: the pattern is anchored at both ends, so nothing may come
    before the first group or after the last, not even a line feed. *)
Theorem isValidUUID_iff (id : string) :
  commands.isValidUUID id = true <->
  exists g1 g2 g3 g4 g5 : string,
    id = (g1 ++ "-" ++ g2 ++ "-" ++ g3 ++ "-" ++ g4 ++ "-" ++ g5)%string /\
    hexGroup 8 g1 = true /\ hexGroup 4 g2 = true /\ hexGroup 4 g3 = true /\
    hexGroup 4 g4 = true /\ hexGroup 12 g5 = true.
Proof.
  unfold commands.isValidUUID, commands.uuidPattern.
  rewrite MatchString_anchored, matchAt_group_dash.
  split.
  - destruct (takeHex 8 id) as [[g1 [|c1 t1]]|] eqn:H1; try discriminate.
    destruct (Ascii.eqb "-" c1) eqn:E1; try discriminate.
    rewrite matchAt_group_dash.
    destruct (takeHex 4 t1) as [[g2 [|c2 t2]]|] eqn:H2; try discriminate.
    destruct (Ascii.eqb "-" c2) eqn:E2; try discriminate.
    rewrite matchAt_group_dash.
    destruct (takeHex 4 t2) as [[g3 [|c3 t3]]|] eqn:H3; try discriminate.
    destruct (Ascii.eqb "-" c3) eqn:E3; try discriminate.
    rewrite matchAt_group_dash.
    destruct (takeHex 4 t3) as [[g4 [|c4 t4]]|] eqn:H4; try discriminate.
    destruct (Ascii.eqb "-" c4) eqn:E4; try discriminate.
    rewrite matchAt_group_end.
    destruct (takeHex 12 t4) as [[g5 [|c5 t5]]|] eqn:H5; try discriminate.
    intros _.
    apply Ascii.eqb_eq in E1, E2, E3, E4. subst c1 c2 c3 c4.
    apply takeHex_spec in H1 as [-> G1]. apply takeHex_spec in H2 as [-> G2].
    apply takeHex_spec in H3 as [-> G3]. apply takeHex_spec in H4 as [-> G4].
    apply takeHex_spec in H5 as [-> G5].
    exists g1, g2, g3, g4, g5.
    rewrite append_empty_r.
    repeat split; assumption.
  - intros (g1 & g2 & g3 & g4 & g5 & -> & G1 & G2 & G3 & G4 & G5).
    rewrite (proj2 (takeHex_spec 8 _ g1 _) (conj eq_refl G1)).
    rewrite append_one, Ascii.eqb_refl, matchAt_group_dash.
    rewrite (proj2 (takeHex_spec 4 _ g2 _) (conj eq_refl G2)).
    rewrite append_one, Ascii.eqb_refl, matchAt_group_dash.
    rewrite (proj2 (takeHex_spec 4 _ g3 _) (conj eq_refl G3)).
    rewrite append_one, Ascii.eqb_refl, matchAt_group_dash.
    rewrite (proj2 (takeHex_spec 4 _ g4 _) (conj eq_refl G4)).
    rewrite append_one, Ascii.eqb_refl, matchAt_group_end.
    assert (H5 : takeHex 12 g5 = Some (g5, EmptyString)).
    { apply takeHex_spec. split; [|exact G5].
      symmetry. apply append_empty_r. }
    rewrite H5. reflexivity.
Qed.

(** [TestIsValidUUID] *)
Example TestIsValidUUID :
  map commands.isValidUUID
    ["12345678-1234-1234-1234-123456789abc";
     "12345678-1234-1234-1234-123456789ABC";
     "12345678-ABCD-1234-abcd-123456789ABC";
     "12345678123412341234123456789abc";
     "1234-1234-1234-1234";
     "12345678-1234-1234-1234-123456789abcd";
     "not-a-uuid-at-all";
     "";
     "12345678 1234 1234 1234 123456789abc";
     "1234567g-1234-1234-1234-123456789abc"]
  = [true; true; true; false; false; false; false; false; false; false].
Proof. vm_compute. reflexivity. Qed.

(** ** Package auth: the token requests under the retry driver *)

Lemma LoadConfig_MaxAttempts (ParseFloat : string -> option float64.t)
    (env : gmap string string) :
  1 <= MaxAttempts (LoadConfig ParseFloat env) <= 10.
Proof.
  rewrite LoadConfig_eq. simpl.
  destruct (accepted env "AZURE_LOGIN_RETRY_MAX_ATTEMPTS" 10) eqn:Ha; simpl;
    [apply accepted_range in Ha|]; lia.
Qed.

Section Do_state.
Context {St : Type}.
Variable c : Config.
Variable ctx : context.Context.
Variable operation : Operation St.

Lemma exhausted_not_nil (e : error) : is_nil e = false -> exhausted c e <> nil.
Proof.
  unfold exhausted. destruct (MaxAttempts c >? 1); [discriminate|].
  apply is_nil_not_nil.
Qed.

Lemma context_Err_not_nil : context.Err ctx <> nil.
Proof. unfold context.Err. destruct (context.why ctx); discriminate. Qed.


(** A run goes on from the calls and waits made so far, and calls the
    operation again when an attempt is left. *)
Lemma loop_prefix fuel : forall attempt delay lastErr st outs ws r,
  loop c ctx operation fuel attempt delay lastErr st outs ws = Some r ->
  exists outs' ws',
    outcomes r = (outs ++ outs')%list /\ waits r = (ws ++ ws')%list /\
    (attempt <= MaxAttempts c -> outs' <> []).
Proof.
  induction fuel as [|fuel IH];
    intros attempt delay lastErr st outs ws r Hrun; [discriminate|].
  simpl in Hrun.
  destruct (attempt <=? MaxAttempts c) eqn:Hle.
  2:{ injection Hrun as <-. simpl. exists [], [].
      rewrite !app_nil_r. apply Z.leb_gt in Hle.
      repeat split; auto; lia. }
  destruct (operation st) as [err st'].
  destruct (is_nil err).
  { injection Hrun as <-. simpl. exists [err], [].
    rewrite app_nil_r. repeat split; auto; discriminate. }
  destruct (IsRetryable err); simpl in Hrun.
  2:{ injection Hrun as <-. simpl. exists [err], [].
      rewrite app_nil_r. repeat split; auto; discriminate. }
  destruct (attempt >=? MaxAttempts c).
  { injection Hrun as <-. simpl. exists [err], [].
    rewrite app_nil_r. repeat split; auto; discriminate. }
  destruct (context.fires ctx (length ws)).
  { injection Hrun as <-. simpl. exists [err], [delay].
    repeat split; auto; discriminate. }
  apply IH in Hrun as (outs' & ws' & Ho & Hw & _).
  exists (err :: outs'), (delay :: ws').
  rewrite Ho, Hw, <- !app_assoc. repeat split; auto; discriminate.
Qed.

(** After a first call that failed with a retryable error, with an
    attempt left and a wait that is not cut short, the operation is
    called again. *)
Lemma Do_second_call (st st' : St) (err : error) :
  1 < MaxAttempts c ->
  operation st = (err, st') -> IsRetryable err = true ->
  context.fires ctx 0 = false ->
  exists r,
    Do c ctx operation st = Some r /\
    outcomes r !! 0%nat = Some err /\
    (2 <= length (outcomes r))%nat /\
    waits r !! 0%nat = Some (InitialDelay c).
Proof.
  intros Hm Hop Hr Hf.
  destruct (Do_total c ctx operation st) as [r Hrun]. exists r.
  split; [exact Hrun|]. unfold Do in Hrun. cbn [loop] in Hrun.
  replace (1 <=? MaxAttempts c) with true in Hrun
    by (symmetry; apply Z.leb_le; lia).
  rewrite Hop in Hrun.
  pose proof (IsRetryable_not_nil _ Hr) as He. rewrite He, Hr in Hrun.
  cbn [negb] in Hrun.
  replace (1 >=? MaxAttempts c) with false in Hrun
    by (symmetry; rewrite Z.geb_leb; apply Z.leb_gt; lia).
  cbn [length app] in Hrun. rewrite Hf in Hrun.
  apply loop_prefix in Hrun as (outs' & ws' & Ho & Hw & Hmore).
  rewrite Ho, Hw. simpl.
  destruct outs' as [|e outs']; [exfalso; apply Hmore; [lia|reflexivity]|].
  repeat split; auto. simpl. lia.
Qed.

(** What the captured state is after a run, for an operation that keeps
    [J] when it fails and establishes [Q] when it succeeds. *)
Variables J Q : St -> Prop.
Hypothesis step : forall s,
  J s -> if is_nil (operation s).1 then Q (operation s).2
         else J (operation s).2.

Lemma loop_state fuel : forall attempt delay lastErr st outs ws r,
  J st ->
  loop c ctx operation fuel attempt delay lastErr st outs ws = Some r ->
  (result r = nil /\ Q (final r)) \/
  (J (final r) /\ (result r <> nil \/ MaxAttempts c < attempt)).
Proof.
  induction fuel as [|fuel IH];
    intros attempt delay lastErr st outs ws r HJ Hrun; [discriminate|].
  simpl in Hrun.
  destruct (attempt <=? MaxAttempts c) eqn:Hle.
  2:{ injection Hrun as <-. simpl. apply Z.leb_gt in Hle. right. auto. }
  pose proof (step st HJ) as Hstep.
  destruct (operation st) as [err st']. simpl in Hstep.
  destruct (is_nil err) eqn:He.
  { injection Hrun as <-. simpl. left. auto. }
  destruct (IsRetryable err); simpl in Hrun.
  2:{ injection Hrun as <-. simpl. right. split; [exact Hstep|].
      left. apply is_nil_not_nil, He. }
  destruct (attempt >=? MaxAttempts c) eqn:Hge.
  { injection Hrun as <-. simpl. right. split; [exact Hstep|].
    left. apply exhausted_not_nil, He. }
  rewrite Z.geb_leb in Hge. apply Z.leb_gt in Hge.
  destruct (context.fires ctx (length ws)).
  { injection Hrun as <-. simpl. right. split; [exact Hstep|].
    left. apply context_Err_not_nil. }
  apply IH in Hrun; [|exact Hstep].
  destruct Hrun as [H | [HJ' [H | H]]]; auto. lia.
Qed.

Lemma Do_state (st : St) (r : Run St) :
  1 <= MaxAttempts c -> J st -> Do c ctx operation st = Some r ->
  (result r = nil /\ Q (final r)) \/ (result r <> nil /\ J (final r)).
Proof.
  intros Hm HJ Hrun. unfold Do in Hrun.
  apply loop_state in Hrun; [|exact HJ].
  destruct Hrun as [H | [HJ' [H | H]]]; auto. lia.
Qed.
End Do_state.

Section Requests_properties.
Variable env : gmap string string.
Variable ParseFloat : string -> option float64.t.
Context {World Request Body Time : Type}.
Variable tokenURLWithAudience : string -> string -> string * error.
Variable Encode : gmap string string -> string.
Variable NewRequestWithContext :
  string -> string -> option string -> Request * error.
Variable HeaderAdd : string -> string -> Request -> Request.
Variable HeaderSet : string -> string -> Request -> Request.
Variable clientDo :
  time.Duration -> Request -> World -> http.Response Body * error * World.
Variable decodeValue : Z -> Body -> string * error.
Variable ReadAll : Z -> Body -> list Byte.byte * error.
Variable unmarshalError : list Byte.byte -> string * error.
Variable unmarshalToken : list Byte.byte -> auth.TokenResponse Time * error.
Variable Now : World -> Time.
Variable Add : Time -> time.Duration -> Time.

Abbreviation requestOIDCToken :=
  (auth.requestOIDCToken NewRequestWithContext HeaderAdd clientDo decodeValue).
Abbreviation GetGitHubOIDCToken :=
  (auth.GetGitHubOIDCToken env ParseFloat tokenURLWithAudience
     NewRequestWithContext HeaderAdd clientDo decodeValue).
Abbreviation exchangeToken :=
  (auth.exchangeToken Encode NewRequestWithContext HeaderSet clientDo ReadAll
     unmarshalError unmarshalToken Now Add).
Abbreviation ExchangeOIDCToken :=
  (auth.ExchangeOIDCToken env ParseFloat Encode NewRequestWithContext
     HeaderSet clientDo ReadAll unmarshalError unmarshalToken Now Add).

Lemma requestOIDCToken_step (tokenURL requestToken : string)
    (s : World * string) :
  s.2 = "" ->
  if is_nil (requestOIDCToken tokenURL requestToken s).1
  then (requestOIDCToken tokenURL requestToken s).2.2 <> ""
  else (requestOIDCToken tokenURL requestToken s).2.2 = "".
Proof.
  intros Hs. unfold auth.requestOIDCToken.
  destruct (NewRequestWithContext _ _ _) as [req e1].
  destruct (is_nil e1); simpl; [|exact Hs].
  destruct (clientDo _ _ _) as [[resp e2] w'].
  destruct (is_nil e2); simpl; [|exact Hs].
  destruct (http.StatusCode resp =? http.StatusOK); simpl; [|exact Hs].
  destruct (decodeValue _ _) as [Value e3].
  destruct (is_nil e3); simpl; [|exact Hs].
  destruct (String.eqb Value "") eqn:Hv; simpl; [exact Hs|].
  apply String.eqb_neq, Hv.
Qed.

Lemma GetGitHubOIDCToken_returns (ctx : context.Context) (w : World) :
  exists token err w',
    GetGitHubOIDCToken ctx w = Some (token, err, w') /\
    (err = nil <-> token <> "").
Proof using Type.
  unfold auth.GetGitHubOIDCToken.
  destruct (String.eqb (os.Getenv env "ACTIONS_ID_TOKEN_REQUEST_TOKEN") "").
  { eexists _, _, _. split; [reflexivity|]. split; [discriminate|intros H; exfalso; apply H; reflexivity]. }
  destruct (String.eqb (os.Getenv env "ACTIONS_ID_TOKEN_REQUEST_URL") "").
  { eexists _, _, _. split; [reflexivity|]. split; [discriminate|intros H; exfalso; apply H; reflexivity]. }
  destruct (tokenURLWithAudience _ _) as [tokenURL e0].
  destruct (is_nil e0); simpl.
  2:{ eexists _, _, _. split; [reflexivity|]. split; [discriminate|intros H; exfalso; apply H; reflexivity]. }
  set (c := LoadConfig ParseFloat env).
  set (op := requestOIDCToken tokenURL
               (os.Getenv env "ACTIONS_ID_TOKEN_REQUEST_TOKEN")).
  destruct (Do_total c ctx op (w, "")) as [r Hr]. rewrite Hr.
  destruct (Do_state c ctx op (fun s => s.2 = "") (fun s => s.2 <> "")
              (requestOIDCToken_step _ _) (w, "") r
              (proj1 (LoadConfig_MaxAttempts ParseFloat env)) eq_refl Hr)
    as [[Hres HQ] | [Hres HJ]].
  - rewrite Hres. simpl. eexists _, _, _. split; [reflexivity|].
    split; [intros _; exact HQ|reflexivity].
  - destruct (is_nil (result r)) eqn:He;
      [apply is_nil_nil in He; contradiction|]. simpl.
    eexists _, _, _. split; [reflexivity|]. split; [discriminate|intros H; exfalso; apply H; reflexivity].
Qed.

(** X20. [GetGitHubOIDCToken] always returns, with a token or with an
    error and never with both or neither: the error is nil exactly when
    the token is not empty. *)
Theorem GetGitHubOIDCToken_token_xor_error (ctx : context.Context)
    (w : World) :
  exists token err w',
    GetGitHubOIDCToken ctx w = Some (token, err, w') /\
    (err = nil <-> token <> "").
Proof. apply GetGitHubOIDCToken_returns. Qed.


(** X22. A transport failure is retried although the closure wraps it:
    when the first request fails with an error that [IsRetryable]
    accepts (a connection reset, a client timeout, ...), the closure
    returns it inside [failed to request OIDC token: ], the driver still
    sees it as retryable, waits [InitialDelay] and sends the request
    again, provided the settings allow a second attempt and the wait is
    not cut short. *)
Theorem GetGitHubOIDCToken_transport_failure_retried
    (ctx : context.Context) (w w1 : World) (tokenURL requestToken : string)
    (req : Request) (resp : http.Response Body) (e : error) :
  NewRequestWithContext "GET" tokenURL None = (req, nil) ->
  clientDo auth.OIDCRequestTimeout
    (HeaderAdd "Accept" "application/json"
       (HeaderAdd "Authorization" ("Bearer " ++ requestToken) req))
    w = (resp, e, w1) ->
  IsRetryable e = true ->
  1 < MaxAttempts (LoadConfig ParseFloat env) ->
  context.fires ctx 0 = false ->
  exists r,
    Do (LoadConfig ParseFloat env) ctx
       (requestOIDCToken tokenURL requestToken) (w, "") = Some r /\
    outcomes r !! 0%nat
      = Some (wrapError "failed to request OIDC token: " e) /\
    (2 <= length (outcomes r))%nat /\
    waits r !! 0%nat = Some (InitialDelay (LoadConfig ParseFloat env)).
Proof using Type.
  intros Hreq Hdo Hr Hm Hf.
  apply Do_second_call with (st' := (w1, "")); auto.
  - unfold auth.requestOIDCToken. rewrite Hreq. simpl. rewrite Hdo.
    rewrite (IsRetryable_not_nil _ Hr). reflexivity.
  - rewrite IsRetryable_wrap. exact Hr.
Qed.

Lemma exchangeToken_step (c : auth.Client) (tokenEndpoint : string)
    (data : gmap string string)
    (s : World * option (auth.TokenResponse Time)) :
  s.2 = None ->
  let r := exchangeToken c tokenEndpoint data s in
  if is_nil r.1
  then exists response,
         r.2.2 = Some response /\
         auth.TenantID response = auth.tenantID c /\
         auth.ClientID response = auth.clientID c /\
         auth.SubscriptionID response = auth.subscriptionID c /\
         auth.ExpiresOn response =
           Add (Now r.2.1)
               (wrap64 (auth.ExpiresIn response * time.Second))
  else r.2.2 = None.
Proof.
  intros Hs r. subst r. unfold auth.exchangeToken.
  destruct (NewRequestWithContext _ _ _) as [req e1].
  destruct (is_nil e1); simpl; [|exact Hs].
  destruct (clientDo _ _ _) as [[resp e2] w'].
  destruct (is_nil e2); simpl; [|exact Hs].
  destruct (ReadAll _ _) as [body e3].
  destruct (is_nil e3); simpl; [|exact Hs].
  destruct (http.StatusCode resp =? http.StatusOK); simpl.
  2:{ destruct (unmarshalError body) as [msg e4].
      destruct (is_nil e4); simpl; exact Hs. }
  destruct (unmarshalToken body) as [response e5].
  destruct (is_nil e5); simpl; [|exact Hs].
  eexists. split; [reflexivity|]. simpl. auto.
Qed.

Lemma ExchangeOIDCToken_returns (c : auth.Client)
    (ctx : context.Context) (oidcToken : string) (w : World) :
  exists tokenResp err w',
    ExchangeOIDCToken c ctx oidcToken w = Some (tokenResp, err, w') /\
    (err = nil <-> tokenResp <> None) /\
    forall response,
      tokenResp = Some response ->
      auth.TenantID response = auth.tenantID c /\
      auth.ClientID response = auth.clientID c /\
      auth.SubscriptionID response = auth.subscriptionID c /\
      auth.ExpiresOn response =
        Add (Now w') (wrap64 (auth.ExpiresIn response * time.Second)).
Proof using Type.
  unfold auth.ExchangeOIDCToken.
  set (c' := LoadConfig ParseFloat env).
  match goal with
  | |- context [Do c' ctx ?o (w, None)] => set (op := o)
  end.
  destruct (Do_total c' ctx op (w, None)) as [r Hr]. rewrite Hr.
  destruct (Do_state c' ctx op (fun s => s.2 = None)
              (fun s => exists response,
                 s.2 = Some response /\
                 auth.TenantID response = auth.tenantID c /\
                 auth.ClientID response = auth.clientID c /\
                 auth.SubscriptionID response = auth.subscriptionID c /\
                 auth.ExpiresOn response =
                   Add (Now s.1)
                       (wrap64 (auth.ExpiresIn response * time.Second)))
              (exchangeToken_step c _ _) (w, None) r
              (proj1 (LoadConfig_MaxAttempts ParseFloat env)) eq_refl Hr)
    as [[Hres (response & Hsome & HQ)] | [Hres HJ]].
  - rewrite Hres. simpl. eexists _, _, _. split; [reflexivity|].
    rewrite Hsome. split; [split; [discriminate|reflexivity]|].
    intros response' [= <-]. exact HQ.
  - destruct (is_nil (result r)) eqn:He;
      [apply is_nil_nil in He; contradiction|]. simpl.
    eexists _, _, _. split; [reflexivity|].
    split; [split; [intros E; contradiction|intros E; congruence]|discriminate].
Qed.

(** X23. [ExchangeOIDCToken] always returns, with a token response or
    with an error and never with both or neither. A response it returns
    carries the tenant, client and subscription of the client, not what
    the body of the answer said, and expires [expires_in] seconds after
    the clock reading taken when the answer was parsed. *)
Theorem ExchangeOIDCToken_response_xor_error (c : auth.Client)
    (ctx : context.Context) (oidcToken : string) (w : World) :
  exists tokenResp err w',
    ExchangeOIDCToken c ctx oidcToken w = Some (tokenResp, err, w') /\
    (err = nil <-> tokenResp <> None) /\
    forall response,
      tokenResp = Some response ->
      auth.TenantID response = auth.tenantID c /\
      auth.ClientID response = auth.clientID c /\
      auth.SubscriptionID response = auth.subscriptionID c /\
      auth.ExpiresOn response =
        Add (Now w') (wrap64 (auth.ExpiresIn response * time.Second)).
Proof. apply ExchangeOIDCToken_returns. Qed.

End Requests_properties.

Lemma GetGitHubOIDCToken_transport_failure_retried_witness :
  exists r,
    Do (LoadConfig (fun _ => None) testOIDCEnv) context.Background
       (auth.requestOIDCToken testNewRequest testHeader testUnreachable
          (fun _ body => (body, nil)) "http://127.0.0.1:8080" "test-token")
       (0%nat, "") = Some r /\
    outcomes r !! 0%nat
      = Some (wrapError "failed to request OIDC token: " connReset) /\
    (2 <= length (outcomes r))%nat /\
    waits r !! 0%nat
      = Some (InitialDelay (LoadConfig (fun _ => None) testOIDCEnv)).
Proof.
  apply (GetGitHubOIDCToken_transport_failure_retried testOIDCEnv
           (fun _ => None) testNewRequest testHeader testUnreachable
           (fun _ body => (body, nil)) context.Background 0%nat 1%nat
           "http://127.0.0.1:8080" "test-token"
           "GET http://127.0.0.1:8080" (http.mkResponse 0 "") connReset).
  - reflexivity.
  - reflexivity.
  - reflexivity.
  - vm_compute. reflexivity.
  - reflexivity.
Defined.



(** ** Package commands: [login] *)

Section runLogin_properties.
Variable env : gmap string string.
Variable ParseFloat : string -> option float64.t.
Context {World Request Body Time : Type}.
Variable tokenURLWithAudience : string -> string -> string * error.
Variable Encode : gmap string string -> string.
Variable NewRequestWithContext :
  string -> string -> option string -> Request * error.
Variable HeaderAdd : string -> string -> Request -> Request.
Variable HeaderSet : string -> string -> Request -> Request.
Variable clientDo :
  time.Duration -> Request -> World -> http.Response Body * error * World.
Variable decodeValue : Z -> Body -> string * error.
Variable ReadAll : Z -> Body -> list Byte.byte * error.
Variable unmarshalError : list Byte.byte -> string * error.
Variable unmarshalToken : list Byte.byte -> auth.TokenResponse Time * error.
Variable Now : World -> Time.
Variable Add : Time -> time.Duration -> Time.
Variable SaveToken :
  option (auth.TokenResponse Time) -> World -> error * World.
Variable Stderr : string -> World -> World.

Abbreviation runLogin :=
  (commands.runLogin env ParseFloat tokenURLWithAudience Encode
     NewRequestWithContext HeaderAdd HeaderSet clientDo decodeValue ReadAll
     unmarshalError unmarshalToken Now Add SaveToken Stderr).

(** X25. [runLogin] always returns, and it checks before it acts: when
    the client id, the tenant id or the subscription id it works with
    (the flag, else the environment variable) is not well formed, it
    returns an error and leaves the world as it found it: no request is
    sent, no token is saved, nothing is printed. *)
Theorem runLogin_checks_before_acting (ctx : context.Context)
    (flags : commands.loginFlags) (w : World) :
  exists err w',
    runLogin ctx flags w = Some (err, resolved env flags, w') /\
    (~ wellFormed (resolved env flags) -> err <> nil /\ w' = w).
Proof.
  unfold commands.runLogin, wellFormed, resolved. simpl.
  set (clientID := if String.eqb (commands.clientID flags) "" then _ else _).
  set (tenantID := if String.eqb (commands.tenantID flags) "" then _ else _).
  set (subscriptionID :=
         if String.eqb (commands.subscriptionID flags) "" then _ else _).
  destruct (String.eqb clientID "") eqn:Hc0.
  { eexists _, _. split; [reflexivity|]. intros _. split; [discriminate|auto]. }
  destruct (commands.isValidUUID clientID) eqn:Hc; simpl.
  2:{ eexists _, _. split; [reflexivity|]. intros _.
      split; [discriminate|auto]. }
  destruct (String.eqb tenantID "") eqn:Ht0.
  { eexists _, _. split; [reflexivity|]. intros _. split; [discriminate|auto]. }
  destruct (commands.isValidUUID tenantID) eqn:Ht; simpl.
  2:{ eexists _, _. split; [reflexivity|]. intros _.
      split; [discriminate|auto]. }
  destruct (String.eqb subscriptionID "") eqn:Hs0; simpl.
  - destruct (commands.allowNoSubscription flags) eqn:Ha; simpl.
    2:{ eexists _, _. split; [reflexivity|]. intros _.
        split; [discriminate|auto]. }
    apply String.eqb_eq in Hs0.
    assert (Hwf : ~ ~ (true = true /\ true = true /\
                       (commands.isValidUUID subscriptionID = true \/
                        subscriptionID = "" /\ true = true))) by tauto.
    destruct (GetGitHubOIDCToken_returns env ParseFloat tokenURLWithAudience
                NewRequestWithContext HeaderAdd clientDo decodeValue ctx w)
      as (oidcToken & e1 & w1 & -> & _).
    destruct (is_nil e1); simpl;
      [|eexists _, _; split; [reflexivity|]; intros H; contradiction].
    destruct (ExchangeOIDCToken_returns env ParseFloat Encode
                NewRequestWithContext HeaderSet clientDo ReadAll
                unmarshalError unmarshalToken Now Add
                (auth.NewClient tenantID clientID subscriptionID)
                ctx oidcToken w1)
      as (tokenResp & e2 & w2 & -> & _).
    destruct (is_nil e2); simpl;
      [|eexists _, _; split; [reflexivity|]; intros H; contradiction].
    destruct (SaveToken tokenResp w2) as [e3 w3].
    destruct (is_nil e3); simpl;
      eexists _, _; (split; [reflexivity|]); intros H; contradiction.
  - destruct (commands.isValidUUID subscriptionID) eqn:Hs; simpl.
    2:{ eexists _, _. split; [reflexivity|]. intros _.
        split; [discriminate|auto]. }
    assert (Hwf : ~ ~ (true = true /\ true = true /\
                       (true = true \/
                        subscriptionID = "" /\
                        commands.allowNoSubscription flags = true)))
      by tauto.
    destruct (GetGitHubOIDCToken_returns env ParseFloat tokenURLWithAudience
                NewRequestWithContext HeaderAdd clientDo decodeValue ctx w)
      as (oidcToken & e1 & w1 & -> & _).
    destruct (is_nil e1); simpl;
      [|eexists _, _; split; [reflexivity|]; intros H; contradiction].
    destruct (ExchangeOIDCToken_returns env ParseFloat Encode
                NewRequestWithContext HeaderSet clientDo ReadAll
                unmarshalError unmarshalToken Now Add
                (auth.NewClient tenantID clientID subscriptionID)
                ctx oidcToken w1)
      as (tokenResp & e2 & w2 & -> & _).
    destruct (is_nil e2); simpl;
      [|eexists _, _; split; [reflexivity|]; intros H; contradiction].
    destruct (SaveToken tokenResp w2) as [e3 w3].
    destruct (is_nil e3); simpl;
      eexists _, _; (split; [reflexivity|]); intros H; contradiction.
Qed.

(** X26. A successful [login], end to end: when [runLogin] returns nil,
    the identifiers it worked with are well formed, the OIDC token it
    exchanged was not empty, and [SaveToken] was called, and succeeded,
    on a token response that is not nil, carries exactly these tenant,
    client and subscription identifiers, and expires [expires_in]
    seconds after the clock reading of the world it was saved in. *)
Theorem runLogin_success (ctx : context.Context)
    (flags flags' : commands.loginFlags) (w w' : World) :
  runLogin ctx flags w = Some (nil, flags', w') ->
  flags' = resolved env flags /\ wellFormed flags' /\
  exists oidcToken w0 w1 response w2,
    auth.GetGitHubOIDCToken env ParseFloat tokenURLWithAudience
      NewRequestWithContext HeaderAdd clientDo decodeValue ctx w
      = Some (oidcToken, nil, w0) /\
    oidcToken <> "" /\
    auth.ExchangeOIDCToken env ParseFloat Encode NewRequestWithContext
      HeaderSet clientDo ReadAll unmarshalError unmarshalToken Now Add
      (auth.NewClient (commands.tenantID flags') (commands.clientID flags')
         (commands.subscriptionID flags'))
      ctx oidcToken w0
      = Some (Some response, nil, w1) /\
    SaveToken (Some response) w1 = (nil, w2) /\
    auth.TenantID response = commands.tenantID flags' /\
    auth.ClientID response = commands.clientID flags' /\
    auth.SubscriptionID response = commands.subscriptionID flags' /\
    auth.ExpiresOn response =
      Add (Now w1) (wrap64 (auth.ExpiresIn response * time.Second)).
Proof using Type.
  unfold commands.runLogin, wellFormed, resolved. simpl.
  set (clientID := if String.eqb (commands.clientID flags) "" then _ else _).
  set (tenantID := if String.eqb (commands.tenantID flags) "" then _ else _).
  set (subscriptionID :=
         if String.eqb (commands.subscriptionID flags) "" then _ else _).
  destruct (String.eqb clientID ""); [discriminate|].
  destruct (commands.isValidUUID clientID) eqn:Hc; simpl; [|discriminate].
  destruct (String.eqb tenantID ""); [discriminate|].
  destruct (commands.isValidUUID tenantID) eqn:Ht; simpl; [|discriminate].
  assert (Hgate :
    (if String.eqb subscriptionID ""
        && negb (commands.allowNoSubscription flags)
     then true
     else negb (String.eqb subscriptionID "")
          && negb (commands.isValidUUID subscriptionID)) = false ->
    commands.isValidUUID subscriptionID = true \/
    subscriptionID = "" /\ commands.allowNoSubscription flags = true).
  { destruct (String.eqb subscriptionID "") eqn:Hs0; simpl.
    - destruct (commands.allowNoSubscription flags); simpl;
        [|discriminate].
      intros _. right. split; [apply String.eqb_eq, Hs0|reflexivity].
    - destruct (commands.isValidUUID subscriptionID); simpl;
        [|discriminate].
      intros _. left. reflexivity. }
  destruct (String.eqb subscriptionID ""
            && negb (commands.allowNoSubscription flags)) eqn:Hg1;
    [discriminate|].
  destruct (negb (String.eqb subscriptionID "")
            && negb (commands.isValidUUID subscriptionID)) eqn:Hg2;
    [discriminate|].
  specialize (Hgate eq_refl).
  destruct (GetGitHubOIDCToken_returns env ParseFloat tokenURLWithAudience
              NewRequestWithContext HeaderAdd clientDo decodeValue ctx w)
    as (oidcToken & e1 & w0 & Hget & Htoken).
  rewrite Hget.
  destruct (is_nil e1) eqn:He1; simpl; [|discriminate].
  apply is_nil_nil in He1. subst e1.
  destruct (ExchangeOIDCToken_returns env ParseFloat Encode
              NewRequestWithContext HeaderSet clientDo ReadAll
              unmarshalError unmarshalToken Now Add
              (auth.NewClient tenantID clientID subscriptionID)
              ctx oidcToken w0)
    as (tokenResp & e2 & w1 & Hex & Hsome & Hids).
  rewrite Hex.
  destruct (is_nil e2) eqn:He2; simpl; [|discriminate].
  apply is_nil_nil in He2. subst e2.
  destruct tokenResp as [response|];
    [|exfalso; apply (proj1 Hsome eq_refl); reflexivity].
  destruct (Hids response eq_refl) as (Hi1 & Hi2 & Hi3 & Hexp).
  destruct (SaveToken (Some response) w1) as [e3 w2] eqn:Hsave.
  destruct (is_nil e3) eqn:He3; simpl; [|discriminate].
  apply is_nil_nil in He3. subst e3.
  intros [= <- _]. simpl.
  split; [reflexivity|]. split; [auto|].
  exists oidcToken, w0, w1, response, w2.
  split; [reflexivity|]. split; [apply Htoken; reflexivity|].
  split; [exact Hex|]. split; [exact Hsave|]. auto.
Qed.
End runLogin_properties.

Lemma runLogin_success_witness :
  commands.runLogin testOIDCEnv (fun _ => None) testTokenURL (fun _ => "form")
    testNewRequest testHeader testHeader (testServer 200 "mock-oidc-token")
    (fun _ body => (body, nil)) testReadAll (fun _ => ("", nil))
    (fun _ => (testTokenResponse, nil))
    (fun requests => Z.of_nat requests) Z.add
    (fun _ w => (nil, w)) (fun _ w => w)
    context.Background testFlags 0%nat
  = Some (nil, testFlags, 2%nat) /\
  wellFormed testFlags.
Proof.
  assert (H :
    commands.runLogin testOIDCEnv (fun _ => None) testTokenURL
      (fun _ => "form") testNewRequest testHeader testHeader
      (testServer 200 "mock-oidc-token")
      (fun _ body => (body, nil)) testReadAll (fun _ => ("", nil))
      (fun _ => (testTokenResponse, nil))
      (fun requests => Z.of_nat requests) Z.add
      (fun _ w => (nil, w)) (fun _ w => w)
      context.Background testFlags 0%nat
    = Some (nil, testFlags, 2%nat)) by (vm_compute; reflexivity).
  split; [exact H|].
  exact (proj1 (proj2 (runLogin_success _ _ _ _ _ _ _ _ _ _ _ _ _ _ _ _
                         _ _ _ _ _ H))).
Defined.

(** ** Packages config and aks: writing the files *)

Lemma append_tmp_neq (s : string) : (s ++ ".tmp")%string <> s.
Proof.
  induction s as [|a s IH]; [discriminate|].
  change (String a (s ++ ".tmp") <> String a s). congruence.
Qed.

Section Files_properties.
Context {World : Type}.
Variable MkdirAll : string -> Z -> World -> error * World.
Variable WriteFile : string -> list Byte.byte -> Z -> World -> error * World.
Variable Rename : string -> string -> World -> error * World.
Variable Remove : string -> World -> error * World.
Variable ReadFile : string -> World -> list Byte.byte * error.

(** What a file holds, and what the calls do to the files: [MkdirAll]
    touches no file; [WriteFile] touches the file it is given, which
    holds the data when it succeeds and anything when it fails; [Rename]
    moves the contents in one step or fails and changes nothing;
    [Remove] touches the file it is given; [ReadFile] returns what the
    file holds. *)
Variable read : World -> string -> option (list Byte.byte).
Hypothesis MkdirAll_read : forall dir perm w p,
  read (MkdirAll dir perm w).2 p = read w p.
Hypothesis WriteFile_read : forall path data perm w,
  (forall p, p <> path -> read (WriteFile path data perm w).2 p = read w p) /\
  ((WriteFile path data perm w).1 = nil ->
   read (WriteFile path data perm w).2 path = Some data).
Hypothesis Rename_read : forall src dst w,
  if is_nil (Rename src dst w).1
  then read (Rename src dst w).2 dst = read w src /\
       (src <> dst -> read (Rename src dst w).2 src = None) /\
       forall p, p <> src -> p <> dst -> read (Rename src dst w).2 p = read w p
  else forall p, read (Rename src dst w).2 p = read w p.
Hypothesis Remove_read : forall path w p,
  p <> path -> read (Remove path w).2 p = read w p.
Hypothesis ReadFile_read : forall path w data,
  read w path = Some data -> ReadFile path w = (data, nil).

(** The steps both savers take once the data is there: write beside the
    file, then rename over it. *)
Lemma write_then_rename (path : string) (data : list Byte.byte) (w : World) :
  let tmpPath := (path ++ ".tmp")%string in
  let w1 := (WriteFile tmpPath data 384 w).2 in
  let w2 := (Rename tmpPath path w1).2 in
  let w3 := (Remove tmpPath w2).2 in
  (forall p, p <> path -> p <> tmpPath ->
     read w1 p = read w p /\ read w2 p = read w p /\ read w3 p = read w p) /\
  read w1 path = read w path /\
  ((WriteFile tmpPath data 384 w).1 = nil ->
   if is_nil (Rename tmpPath path w1).1
   then read w2 path = Some data /\ read w2 tmpPath = None
   else read w3 path = read w path).
Proof using MkdirAll_read WriteFile_read Rename_read Remove_read.
  intros tmpPath w1 w2 w3.
  pose proof (append_tmp_neq path) as Hne. fold tmpPath in Hne.
  destruct (WriteFile_read tmpPath data 384 w) as [Hw Hdata].
  fold w1 in Hw, Hdata.
  pose proof (Rename_read tmpPath path w1) as Hr. fold w2 in Hr.
  pose proof (Remove_read tmpPath w2) as Hrm. fold w3 in Hrm.
  assert (H1 : read w1 path = read w path) by (apply Hw; congruence).
  split; [|split; [exact H1|]].
  - intros p Hp Hpt. rewrite (Hw p Hpt).
    assert (H2 : read w2 p = read w p).
    { destruct (is_nil (Rename tmpPath path w1).1).
      - destruct Hr as (_ & _ & Hr). rewrite Hr by assumption. apply Hw, Hpt.
      - rewrite Hr. apply Hw, Hpt. }
    repeat split; [exact H2|]. rewrite Hrm by exact Hpt. exact H2.
  - intros Hok. specialize (Hdata Hok).
    destruct (is_nil (Rename tmpPath path w1).1).
    + destruct Hr as (Hdst & Hsrc & _). rewrite Hdst.
      split; [exact Hdata | apply Hsrc, Hne].
    + rewrite Hrm by congruence. rewrite Hr. exact H1.
Qed.

Variable Time : Type.
Variable Join : string -> string -> string.
Variable IsNotExist : error -> bool.
Variable Marshal : config.SavedToken Time -> list Byte.byte * error.
Variable Unmarshal : list Byte.byte -> config.SavedToken Time * error.

Abbreviation SaveToken :=
  (config.SaveToken Join MkdirAll WriteFile Rename Remove Marshal).
Abbreviation LoadToken := (config.LoadToken Join ReadFile IsNotExist Unmarshal).

Lemma SaveToken_file (c : config.Config)
    (token : auth.TokenResponse Time) (w : World) :
  let tokenPath := Join (config.configDir c) config.tokenFile in
  let r := SaveToken c token w in
  (forall p, p <> tokenPath -> p <> (tokenPath ++ ".tmp")%string ->
     read r.2 p = read w p) /\
  (r.1 <> nil -> read r.2 tokenPath = read w tokenPath) /\
  (r.1 = nil ->
   exists data,
     Marshal {| config.AccessToken := auth.AccessToken token;
                config.TokenType := auth.TokenType token;
                config.ExpiresOn := auth.ExpiresOn token;
                config.TenantID := auth.TenantID token;
                config.ClientID := auth.ClientID token;
                config.SubscriptionID := auth.SubscriptionID token |}
       = (data, nil) /\
     read r.2 tokenPath = Some data /\
     read r.2 (tokenPath ++ ".tmp")%string = None).
Proof using MkdirAll_read WriteFile_read Rename_read Remove_read.
  intros tokenPath r. subst r. unfold config.SaveToken. fold tokenPath.
  pose proof (MkdirAll_read (config.configDir c) 448 w) as Hmk.
  destruct (MkdirAll (config.configDir c) 448 w) as [e1 w0]. simpl in Hmk.
  destruct (is_nil e1) eqn:He1; simpl.
  2:{ repeat split; auto; discriminate. }
  destruct (Marshal _) as [data e2].
  destruct (is_nil e2) eqn:He2; simpl.
  2:{ repeat split; auto; discriminate. }
  apply is_nil_nil in He2. subst e2.
  destruct (write_then_rename tokenPath data w0) as (Hother & Hkeep & Hdone).
  destruct (WriteFile (tokenPath ++ ".tmp") data 384 w0) as [e3 w1].
  simpl in Hother, Hkeep, Hdone.
  destruct (is_nil e3) eqn:He3; simpl.
  2:{ split; [|split]; [| |discriminate].
      - intros p H1 H2. destruct (Hother p H1 H2) as (-> & _). apply Hmk.
      - intros _. rewrite Hkeep. apply Hmk. }
  apply is_nil_nil in He3. subst e3. specialize (Hdone eq_refl).
  destruct (Rename (tokenPath ++ ".tmp") tokenPath w1) as [e4 w2].
  simpl in Hother, Hdone.
  destruct (is_nil e4) eqn:He4; simpl.
  - split; [|split]; [| congruence |].
    + intros p H1 H2. destruct (Hother p H1 H2) as (_ & -> & _). apply Hmk.
    + intros _. exists data. destruct Hdone as [H1 H2]. auto.
  - destruct (Remove (tokenPath ++ ".tmp") w2) as [e5 w3].
    simpl in Hother, Hdone. simpl.
    split; [|split]; [| |discriminate].
    + intros p H1 H2. destruct (Hother p H1 H2) as (_ & _ & ->). apply Hmk.
    + intros _. rewrite Hdone. apply Hmk.
Qed.

(** X27. [SaveToken] replaces the token file in one step or not at all:
    whatever fails, the file holds afterwards the complete new data
    (when [SaveToken] returns nil, and then no temporary file is left)
    or exactly what it held before (when it returns an error); no file
    other than the token file and its temporary neighbour changes. *)
Theorem SaveToken_atomic (c : config.Config)
    (token : auth.TokenResponse Time) (w : World) :
  let tokenPath := Join (config.configDir c) config.tokenFile in
  let r := SaveToken c token w in
  (forall p, p <> tokenPath -> p <> (tokenPath ++ ".tmp")%string ->
     read r.2 p = read w p) /\
  (r.1 <> nil -> read r.2 tokenPath = read w tokenPath) /\
  (r.1 = nil ->
   exists data,
     Marshal {| config.AccessToken := auth.AccessToken token;
                config.TokenType := auth.TokenType token;
                config.ExpiresOn := auth.ExpiresOn token;
                config.TenantID := auth.TenantID token;
                config.ClientID := auth.ClientID token;
                config.SubscriptionID := auth.SubscriptionID token |}
       = (data, nil) /\
     read r.2 tokenPath = Some data /\
     read r.2 (tokenPath ++ ".tmp")%string = None).
Proof using MkdirAll_read WriteFile_read Rename_read Remove_read.
  apply SaveToken_file.
Qed.

(** X28. What [SaveToken] saved, [LoadToken] loads: after a successful
    [SaveToken], [LoadToken] on the same configuration returns a token
    with the access token, type, expiry and identifiers of the response,
    provided [json.Unmarshal] reads back what [json.Marshal] wrote for
    it. *)
Theorem SaveToken_LoadToken (c : config.Config)
    (token : auth.TokenResponse Time) (w w' : World) :
  (forall data,
     Marshal {| config.AccessToken := auth.AccessToken token;
                config.TokenType := auth.TokenType token;
                config.ExpiresOn := auth.ExpiresOn token;
                config.TenantID := auth.TenantID token;
                config.ClientID := auth.ClientID token;
                config.SubscriptionID := auth.SubscriptionID token |}
       = (data, nil) ->
     Unmarshal data
       = ({| config.AccessToken := auth.AccessToken token;
             config.TokenType := auth.TokenType token;
             config.ExpiresOn := auth.ExpiresOn token;
             config.TenantID := auth.TenantID token;
             config.ClientID := auth.ClientID token;
             config.SubscriptionID := auth.SubscriptionID token |}, nil)) ->
  SaveToken c token w = (nil, w') ->
  LoadToken c w' =
    (Some {| config.AccessToken := auth.AccessToken token;
             config.TokenType := auth.TokenType token;
             config.ExpiresOn := auth.ExpiresOn token;
             config.TenantID := auth.TenantID token;
             config.ClientID := auth.ClientID token;
             config.SubscriptionID := auth.SubscriptionID token |}, nil).
Proof using MkdirAll_read WriteFile_read Rename_read Remove_read
  ReadFile_read.
  intros Hjson Hsave.
  destruct (SaveToken_file c token w) as (_ & _ & Hok).
  rewrite Hsave in Hok. destruct (Hok eq_refl) as (data & Hm & Hread & _).
  simpl in Hread. unfold config.LoadToken.
  rewrite (ReadFile_read _ _ _ Hread). simpl.
  rewrite (Hjson _ Hm). reflexivity.
Qed.

(** X29. [SaveKubeconfig] replaces the kubeconfig in one step or not at
    all: whatever fails, the file holds afterwards the complete new YAML
    (when it returns nil, and then no temporary file is left) or exactly
    what it held before (when it returns an error); no file other than
    the kubeconfig and its temporary neighbour changes. *)
Theorem SaveKubeconfig_atomic (any : Type) (Dir : string -> string)
    (MarshalYAML : aks.Kubeconfig any -> list Byte.byte * error)
    (path : string) (k : aks.Kubeconfig any) (w : World) :
  let r := kubeconfig.SaveKubeconfig Dir MkdirAll WriteFile Rename Remove
             MarshalYAML path k w in
  (forall p, p <> path -> p <> (path ++ ".tmp")%string ->
     read r.2 p = read w p) /\
  (r.1 <> nil -> read r.2 path = read w path) /\
  (r.1 = nil ->
   exists data,
     MarshalYAML k = (data, nil) /\
     read r.2 path = Some data /\
     read r.2 (path ++ ".tmp")%string = None).
Proof using MkdirAll_read WriteFile_read Rename_read Remove_read.
  intros r. subst r. unfold kubeconfig.SaveKubeconfig.
  pose proof (MkdirAll_read (Dir path) 448 w) as Hmk.
  destruct (MkdirAll (Dir path) 448 w) as [e1 w0]. simpl in Hmk.
  destruct (is_nil e1) eqn:He1; simpl.
  2:{ repeat split; auto; discriminate. }
  destruct (MarshalYAML k) as [data e2].
  destruct (is_nil e2) eqn:He2; simpl.
  2:{ repeat split; auto; discriminate. }
  apply is_nil_nil in He2. subst e2.
  destruct (write_then_rename path data w0) as (Hother & Hkeep & Hdone).
  destruct (WriteFile (path ++ ".tmp") data 384 w0) as [e3 w1].
  simpl in Hother, Hkeep, Hdone.
  destruct (is_nil e3) eqn:He3; simpl.
  2:{ split; [|split]; [| |discriminate].
      - intros p H1 H2. destruct (Hother p H1 H2) as (-> & _). apply Hmk.
      - intros _. rewrite Hkeep. apply Hmk. }
  apply is_nil_nil in He3. subst e3. specialize (Hdone eq_refl).
  destruct (Rename (path ++ ".tmp") path w1) as [e4 w2].
  simpl in Hother, Hdone.
  destruct (is_nil e4) eqn:He4; simpl.
  - split; [|split]; [| congruence |].
    + intros p H1 H2. destruct (Hother p H1 H2) as (_ & -> & _). apply Hmk.
    + intros _. exists data. destruct Hdone as [H1 H2]. auto.
  - destruct (Remove (path ++ ".tmp") w2) as [e5 w3].
    simpl in Hother, Hdone. simpl.
    split; [|split]; [| |discriminate].
    + intros p H1 H2. destruct (Hother p H1 H2) as (_ & _ & ->). apply Hmk.
    + intros _. rewrite Hdone. apply Hmk.
Qed.
End Files_properties.


(** The file system kept in memory does what is asked of one. *)
Lemma memMkdirAll_read dir perm w p :
  memRead (memMkdirAll dir perm w).2 p = memRead w p.
Proof. reflexivity. Qed.

Lemma memWriteFile_read path data perm w :
  (forall p, p <> path ->
     memRead (memWriteFile path data perm w).2 p = memRead w p) /\
  ((memWriteFile path data perm w).1 = nil ->
   memRead (memWriteFile path data perm w).2 path = Some data).
Proof.
  unfold memRead, memWriteFile. cbn [fst snd]. split.
  - intros p Hp. apply lookup_insert_ne. congruence.
  - intros _. apply lookup_insert_eq.
Qed.

Lemma memRename_read src dst w :
  if is_nil (memRename src dst w).1
  then memRead (memRename src dst w).2 dst = memRead w src /\
       (src <> dst -> memRead (memRename src dst w).2 src = None) /\
       forall p, p <> src -> p <> dst ->
         memRead (memRename src dst w).2 p = memRead w p
  else forall p, memRead (memRename src dst w).2 p = memRead w p.
Proof.
  unfold memRead, memRename.
  destruct (w !! src) as [data|] eqn:Hsrc; cbn [fst snd is_nil];
    [|reflexivity].
  split; [apply lookup_insert_eq|]. split.
  - intros Hne. rewrite lookup_insert_ne by congruence.
    apply lookup_delete_eq.
  - intros p H1 H2. rewrite lookup_insert_ne by congruence.
    apply lookup_delete_ne. congruence.
Qed.

Lemma memRemove_read path w p :
  p <> path -> memRead (memRemove path w).2 p = memRead w p.
Proof.
  unfold memRead, memRemove. intros Hp.
  destruct (w !! path); cbn [fst snd]; [|reflexivity].
  apply lookup_delete_ne. congruence.
Qed.

Lemma memReadFile_read path w data :
  memRead w path = Some data -> memReadFile path w = (data, nil).
Proof. unfold memRead, memReadFile. intros ->. reflexivity. Qed.

Lemma SaveToken_atomic_witness :
  let tokenPath := memJoin "/home/runner/.azure" config.tokenFile in
  let r := config.SaveToken memJoin memMkdirAll memWriteFile memRename
             memRemove
             (fun s => (list_byte_of_string (config.AccessToken s), nil))
             (config.mkConfig "/home/runner/.azure") testTokenResponse ∅ in
  (forall p, p <> tokenPath -> p <> (tokenPath ++ ".tmp")%string ->
     memRead r.2 p = memRead ∅ p) /\
  (r.1 <> nil -> memRead r.2 tokenPath = memRead ∅ tokenPath) /\
  (r.1 = nil ->
   exists data,
     (list_byte_of_string "mock-access-token", nil) = (data, nil) /\
     memRead r.2 tokenPath = Some data /\
     memRead r.2 (tokenPath ++ ".tmp")%string = None).
Proof.
  exact (SaveToken_atomic memMkdirAll memWriteFile memRename memRemove
           memRead memMkdirAll_read memWriteFile_read memRename_read
           memRemove_read Z memJoin
           (fun s => (list_byte_of_string (config.AccessToken s), nil))
           (config.mkConfig "/home/runner/.azure") testTokenResponse ∅).
Defined.

(** [TestSaveAndLoadToken] *)
Lemma SaveToken_LoadToken_witness :
  config.LoadToken memJoin memReadFile (fun _ => false)
    (fun _ => (testSavedToken, nil))
    (config.mkConfig "/home/runner/.azure")
    (config.SaveToken memJoin memMkdirAll memWriteFile memRename memRemove
       (fun s => (list_byte_of_string (config.AccessToken s), nil))
       (config.mkConfig "/home/runner/.azure") testTokenResponse ∅).2
  = (Some testSavedToken, nil).
Proof.
  apply (SaveToken_LoadToken memMkdirAll memWriteFile memRename memRemove
           memReadFile memRead memMkdirAll_read memWriteFile_read
           memRename_read memRemove_read memReadFile_read Z memJoin
           (fun _ => false)
           (fun s => (list_byte_of_string (config.AccessToken s), nil))
           (fun _ => (testSavedToken, nil))
           (config.mkConfig "/home/runner/.azure") testTokenResponse ∅).
  - intros data _. reflexivity.
  - reflexivity.
Defined.

Lemma SaveKubeconfig_atomic_witness :
  let path := "/home/runner/.kube/config" in
  let r := kubeconfig.SaveKubeconfig (fun _ => "/home/runner/.kube")
             memMkdirAll memWriteFile memRename memRemove
             (fun k => (list_byte_of_string (aks.CurrentContext unit k), nil))
             path
             (aks.MergeClusterCredentials unit testCredentials
                (aks.mkKubeconfig unit "v1" "Config" "" [] [] [] ∅))
             ∅ in
  (forall p, p <> path -> p <> (path ++ ".tmp")%string ->
     memRead r.2 p = memRead ∅ p) /\
  (r.1 <> nil -> memRead r.2 path = memRead ∅ path) /\
  (r.1 = nil ->
   exists data,
     (list_byte_of_string
        (aks.CurrentContext unit
           (aks.MergeClusterCredentials unit testCredentials
              (aks.mkKubeconfig unit "v1" "Config" "" [] [] [] ∅))), nil)
     = (data, nil) /\
     memRead r.2 path = Some data /\
     memRead r.2 (path ++ ".tmp")%string = None).
Proof.
  exact (SaveKubeconfig_atomic memMkdirAll memWriteFile memRename memRemove
           memRead memMkdirAll_read memWriteFile_read memRename_read
           memRemove_read unit (fun _ => "/home/runner/.kube")
           (fun k => (list_byte_of_string (aks.CurrentContext unit k), nil))
           "/home/runner/.kube/config"
           (aks.MergeClusterCredentials unit testCredentials
              (aks.mkKubeconfig unit "v1" "Config" "" [] [] [] ∅))
           ∅).
Defined.
